(** * Graphite: the legacy-document migrator and the wasm build patcher

    A shallow embedding of [demo-artwork/upgrade.py] (module [Upgrade]) and
    of [wasm/build.py] (module [Build]), with the properties of the
    specification stated and proved over it. *)

From Stdlib Require Import ZArith List Lia.
From stdpp Require Import base option list gmap strings sorting.

Set Warnings "-register-all".
Local Open Scope string_scope.
Local Open Scope Z_scope.

(** ** JSON values

    JSON payloads the scripts never look into are kept as values of this
    type.  A float is kept by its printed form, so [100.0] and [100] stay
    apart. *)
Inductive json : Type :=
| JNull
| JBool (b : bool)
| JInt (n : Z)
| JFloat (repr : string)
| JStr (s : string)
| JList (items : list json)
| JDict (members : list (string * json)).

(** ** Python exceptions and fallible computations *)
Inductive error : Type := KeyError | IndexError | AssertionError.

Inductive result (A : Type) : Type :=
| Ok (a : A)
| Raise (e : error).
Arguments Ok {A} a.
Arguments Raise {A} e.

#[global] Instance result_ret : MRet result := λ A a, Ok a.
#[global] Instance result_bind : MBind result := λ A B f m,
  match m with Ok a => f a | Raise e => Raise e end.

(** [l[i]] on a Python list. *)
Definition list_index {A} (l : list A) (i : nat) : result A :=
  match l !! i with Some x => Ok x | None => Raise IndexError end.

(** [d[k]] on a Python dict used as a finite map. *)
Definition map_index {A} (m : gmap Z A) (k : Z) : result A :=
  match m !! k with Some x => Ok x | None => Raise KeyError end.

(** [for x in l: s = body(x, s)], stopping at the first exception. *)
Fixpoint for_each {A S} (body : A → S → result S) (l : list A) (s : S) : result S :=
  match l with
  | [] => Ok s
  | x :: r => s' ← body x s; for_each body r s'
  end.

(** [for index, x in enumerate(reversed(l))].  The last element of [l] is
    visited first, with index 0; an element followed by [r] in [l] is visited
    at index [length r], after all of [r]. *)
Definition for_enumerate_reversed {A S} (body : nat → A → S → result S)
  : list A → S → result S :=
  fix go l s :=
    match l with
    | [] => Ok s
    | x :: r => s' ← go r s; body (length r) x s'
    end.

(** [[f(x) for x in l]] for a fallible [f]. *)
Fixpoint map_result {A B} (f : A → result B) (l : list A) : result (list B) :=
  match l with
  | [] => Ok []
  | x :: r => y ← f x; ys ← map_result f r; Ok (y :: ys)
  end.

(** ** Insertion-ordered dicts

    [json.dump] writes a dict in insertion order; assigning to a key that is
    present keeps its place. *)
Module Dict.
Fixpoint set {V} (k : Z) (v : V) (d : list (Z * V)) : list (Z * V) :=
  match d with
  | [] => [(k, v)]
  | (k', v') :: r => if Z.eqb k k' then (k, v) :: r else (k', v') :: set k v r
  end.

Fixpoint get {V} (k : Z) (d : list (Z * V)) : option V :=
  match d with
  | [] => None
  | (k', v') :: r => if Z.eqb k k' then Some v' else get k r
  end.

Definition mem {V} (k : Z) (d : list (Z * V)) : bool :=
  match get k d with Some _ => true | None => false end.

Definition keys {V} (d : list (Z * V)) : list Z := map fst d.
End Dict.

Module Upgrade.

(** *** Nodes of a node graph

    Keys of a JSON object that holds nodes are decimal renderings of node
    ids, and [str] and [int] are inverse to each other on them: the model
    keys such objects by the id itself. *)
Inductive node_input : Type :=
| Node (node_id : Z) (output_index : Z) (lambda : bool)
| Value (tagged_value : json) (exposed : bool)
| Network (ty : json).

Record document_node : Type := {
  name : string;
  inputs : list node_input;
  manual_composition : json;
  has_primary_output : bool;
  implementation : json;
  position : Z * Z;               (* metadata.position: [x, y] *)
  skip_deduplication : bool;
  world_state_hash : Z;
  path : json
}.

Definition set_name (v : string) (n : document_node) : document_node :=
  {| name := v; inputs := inputs n; manual_composition := manual_composition n;
     has_primary_output := has_primary_output n; implementation := implementation n;
     position := position n; skip_deduplication := skip_deduplication n;
     world_state_hash := world_state_hash n; path := path n |}.

Definition set_inputs (v : list node_input) (n : document_node) : document_node :=
  {| name := name n; inputs := v; manual_composition := manual_composition n;
     has_primary_output := has_primary_output n; implementation := implementation n;
     position := position n; skip_deduplication := skip_deduplication n;
     world_state_hash := world_state_hash n; path := path n |}.

Definition set_manual_composition (v : json) (n : document_node) : document_node :=
  {| name := name n; inputs := inputs n; manual_composition := v;
     has_primary_output := has_primary_output n; implementation := implementation n;
     position := position n; skip_deduplication := skip_deduplication n;
     world_state_hash := world_state_hash n; path := path n |}.

Definition set_has_primary_output (v : bool) (n : document_node) : document_node :=
  {| name := name n; inputs := inputs n; manual_composition := manual_composition n;
     has_primary_output := v; implementation := implementation n;
     position := position n; skip_deduplication := skip_deduplication n;
     world_state_hash := world_state_hash n; path := path n |}.

Definition set_implementation (v : json) (n : document_node) : document_node :=
  {| name := name n; inputs := inputs n; manual_composition := manual_composition n;
     has_primary_output := has_primary_output n; implementation := v;
     position := position n; skip_deduplication := skip_deduplication n;
     world_state_hash := world_state_hash n; path := path n |}.

Definition set_position (v : Z * Z) (n : document_node) : document_node :=
  {| name := name n; inputs := inputs n; manual_composition := manual_composition n;
     has_primary_output := has_primary_output n; implementation := implementation n;
     position := v; skip_deduplication := skip_deduplication n;
     world_state_hash := world_state_hash n; path := path n |}.

(** [node["metadata"]["position"][0] = x] and [...[1] = y]. *)
Definition set_x (x : Z) (n : document_node) : document_node :=
  set_position (x, snd (position n)) n.
Definition set_y (y : Z) (n : document_node) : document_node :=
  set_position (fst (position n), y) n.
Definition pos_x (n : document_node) : Z := fst (position n).
Definition pos_y (n : document_node) : Z := snd (position n).

(** *** The legacy document *)
Record node_output : Type := { output_node_id : Z; node_output_index : Z }.

Record node_network : Type := {
  outputs : list node_output;
  nodes : gmap Z document_node
}.

(** [layer["data"]]: the legacy layer data is a tagged union with the one
    key ["Folder"] or ["Layer"].  Of a folder's layers only their ["data"]
    is read, so a folder holds the data of its layers, in declared order. *)
Inductive data : Type :=
| Folder (layers : list data)
| Layer (network : node_network).

(** *** The process-wide state

    A suspended generator is the value of its local variable, which is what
    the next [next()] yields. *)
Record globals : Type := {
  new_id : Z;
  y_position : Z;
  new_nodes : list (Z * document_node)
}.

Definition gen_id : Z := 42.
Definition gen_y : Z := 7.

(** [next(new_id)]: yield [new_id], then [new_id += 1]. *)
Definition next_new_id (g : globals) : Z * globals :=
  (new_id g,
   {| new_id := new_id g + 1; y_position := y_position g; new_nodes := new_nodes g |}).

(** [next(y_position)]: yield [y], then [y += 3]. *)
Definition next_y_position (g : globals) : Z * globals :=
  (y_position g,
   {| new_id := new_id g; y_position := y_position g + 3; new_nodes := new_nodes g |}).

(** [new_nodes[str(k)] = n]. *)
Definition emit (k : Z) (n : document_node) (g : globals) : globals :=
  {| new_id := new_id g; y_position := y_position g;
     new_nodes := Dict.set k n (new_nodes g) |}.

(** *** Constant JSON payloads *)
Definition concrete (type_name : string) (size align : Z) : json :=
  JDict [("Concrete",
          JDict [("name", JStr type_name); ("size", JInt size); ("align", JInt align)])].

Definition unresolved (type_name : string) : json :=
  JDict [("Unresolved", JDict [("name", JStr type_name)])].

Definition Footprint : json := concrete "graphene_core::transform::Footprint" 72 8.
Definition TransformNode : json :=
  unresolved "graphene_core::transform::TransformNode<_, _, _, _, _, _>".
Definition CullNode : json := unresolved "graphene_core::transform::CullNode<_>".

(** The literal empty graphic group that stands for a missing reference. *)
Definition empty_group : node_input :=
  Value (JDict [("GraphicGroup", JList [])]) true.

(** [node_to_input]: [None] and [0] are both falsy. *)
Definition node_to_input (node_id : option Z) : node_input :=
  match node_id with
  | Some n => if Z.eqb n 0 then empty_group else Node n 0 false
  | None => empty_group
  end.

(** A node of an embedded sub-network, as JSON. *)
Definition ref_input (n : Z) : json :=
  JDict [("Node", JDict [("node_id", JInt n); ("output_index", JInt 0);
                          ("lambda", JBool false)])].
Definition network_input (ty : json) : json := JDict [("Network", ty)].
Definition fn_type (a b : json) : json := JDict [("Fn", JList [a; b])].
Definition generic (v : string) : json := JDict [("Generic", JStr v)].

Definition inner_node (nm : string) (ins : list json) (mc : json) (impl : string)
    (pos : Z * Z) (skip : bool) : json :=
  JDict [("name", JStr nm); ("inputs", JList ins); ("manual_composition", mc);
         ("has_primary_output", JBool true); ("implementation", unresolved impl);
         ("metadata", JDict [("position", JList [JInt (fst pos); JInt (snd pos)])]);
         ("skip_deduplication", JBool skip); ("world_state_hash", JInt 0);
         ("path", JNull)].

Definition inner_network (ins : list Z) (out : Z) (nds : list (string * json)) : json :=
  JDict [("Network",
    JDict [("inputs", JList (map JInt ins));
           ("outputs", JList [JDict [("node_id", JInt out); ("node_output_index", JInt 0)]]);
           ("nodes", JDict nds); ("disabled", JList []); ("previous_outputs", JNull)])].

(** The implementation of every ["Layer"] wrapper node. *)
Definition layer_implementation : json :=
  inner_network [0; 2; 2; 2; 2; 2; 2; 2] 2
    [("1", inner_node "Monitor" [ref_input 0] Footprint
             "graphene_core::memo::MonitorNode<_, _, _>" (0, 0) true);
     ("2", inner_node "ConstructLayer"
             [ref_input 1;
              network_input (concrete "alloc::string::String" 12 4);
              network_input (concrete "graphene_core::raster::adjustments::BlendMode" 4 4);
              network_input (concrete "f32" 4 4);
              network_input (concrete "bool" 1 1);
              network_input (concrete "bool" 1 1);
              network_input (concrete "bool" 1 1);
              network_input
                (fn_type Footprint
                   (concrete "graphene_core::graphic_element::GraphicGroup" 12 4))]
             Footprint "graphene_core::ConstructLayerNode<_, _, _, _, _, _, _, _>"
             (0, 0) false);
     ("0", inner_node "To Graphic Element" [network_input (generic "T")] JNull
             "graphene_core::ToGraphicElementData" (0, 0) false)].

(** The ["Layer"] wrapper node of one [update_layer] call. *)
Definition layer_node (indent y : Z) (output next_id : option Z) : document_node :=
  {| name := "Layer";
     inputs := [ node_to_input output;
                 Value (JDict [("String", JStr "")]) false;
                 Value (JDict [("BlendMode", JStr "Normal")]) false;
                 Value (JDict [("F32", JFloat "100.0")]) false;
                 Value (JDict [("Bool", JBool true)]) false;
                 Value (JDict [("Bool", JBool false)]) false;
                 Value (JDict [("Bool", JBool false)]) false;
                 node_to_input next_id ];
     manual_composition := JNull;
     has_primary_output := true;
     implementation := layer_implementation;
     position := (- indent, y);
     skip_deduplication := false;
     world_state_hash := 0;
     path := JNull |}.

Definition EditorApi : json :=
  concrete
    "graphene_core::application_io::EditorApi<graphene_std::wasm_application_io::WasmApplicationIo>"
    176 8.

(** The root ["Output"] node that [migrate] stores under key ["0"]. *)
Definition root_output_node : document_node :=
  {| name := "Output";
     inputs := [ Node 42 0 false; Network EditorApi ];
     manual_composition := JNull;
     has_primary_output := true;
     implementation :=
       inner_network [3; 0] 3
         [("1", inner_node "Create Canvas" [ref_input 0] JNull
                  "graphene_std::wasm_application_io::CreateSurfaceNode" (0, 0) true);
          ("3", inner_node "RenderNode"
                  [ref_input 0; network_input (fn_type Footprint (generic "T")); ref_input 2]
                  JNull "graphene_std::wasm_application_io::RenderNode<_, _, _>" (0, 0) false);
          ("2", inner_node "Cache" [ref_input 1] (concrete "()" 0 1)
                  "graphene_core::memo::MemoNode<_, _>" (0, 0) false);
          ("0", inner_node "EditorApi" [network_input EditorApi] JNull
                  "graphene_core::ops::IdNode" (0, 0) false)];
     position := (8, 4);
     skip_deduplication := false;
     world_state_hash := 0;
     path := JNull |}.

(** The migrated document: the fixed envelope around [new_nodes].  The
    constant members that no property reads are kept as one JSON value. *)
Record document_network : Type := {
  network_inputs : list Z;
  network_outputs : list node_output;
  network_nodes : list (Z * document_node);
  disabled : list Z;
  previous_outputs : json
}.

Record document : Type := {
  legacy_root : json;
  network_of : document_network;
  commit_hash : string;
  saved_document_identifier : Z;
  auto_saved_document_identifier : Z;
  document_name : string;
  version : string;
  document_mode : string;
  view_mode : string;
  overlays_visible : bool;
  layer_metadata : list json;
  layer_range_selection_reference : json;
  navigation_handler : json;
  properties_panel_message_handler : json
}.

Definition legacy_root_default : json :=
  JDict [("visible", JBool true); ("name", JNull);
         ("data", JDict [("Folder", JDict [("next_assignment_id", JInt 0);
                                            ("layer_ids", JList []);
                                            ("layers", JList [])])]);
         ("transform",
          JDict [("matrix2", JList [JFloat "1.0"; JFloat "0.0"; JFloat "0.0"; JFloat "1.0"]);
                 ("translation", JList [JFloat "0.0"; JFloat "0.0"])]);
         ("preserve_aspect", JBool true);
         ("pivot", JList [JFloat "0.5"; JFloat "0.5"]);
         ("blend_mode", JStr "Normal"); ("opacity", JFloat "1.0")].

Definition assemble (nds : list (Z * document_node)) : document :=
  {| legacy_root := legacy_root_default;
     network_of :=
       {| network_inputs := [];
          network_outputs := [ {| output_node_id := 0; node_output_index := 0 |} ];
          network_nodes := nds;
          disabled := [];
          previous_outputs := JNull |};
     commit_hash := "ef46080400bc6c4e069765dd2127306abbc9a94b";
     saved_document_identifier := 0;
     auto_saved_document_identifier := 0;
     document_name := "Untitled Document 10";
     version := "0.0.18";
     document_mode := "DesignMode";
     view_mode := "Normal";
     overlays_visible := true;
     layer_metadata := [];
     layer_range_selection_reference := JNull;
     navigation_handler :=
       JDict [("pan", JList [JFloat "82.0"; JFloat "84.0"]); ("tilt", JFloat "0.0");
              ("zoom", JFloat "1.0"); ("transform_operation", JStr "None");
              ("mouse_position", JList [JFloat "389.0"; JFloat "507.0"]);
              ("finish_operation_with_click", JBool false)];
     properties_panel_message_handler := JDict [("active_selection", JNull)] |}.

(** *** The flattener *)

(** [list(map(lambda x, _: x, new_id, layers))]: [map] asks [new_id] first
    and [layers] second at every step, so the id drawn in the step that finds
    [layers] exhausted is dropped. *)
Fixpoint reserve_layer_ids {A} (layers : list A) (g : globals) : list Z * globals :=
  let '(x, g1) := next_new_id g in
  match layers with
  | [] => ([], g1)
  | _ :: r => let '(xs, g2) := reserve_layer_ids r g1 in (x :: xs, g2)
  end.

(** [zip(keys, new_id)]: [zip] asks [keys] first, so nothing is drawn once
    the keys are exhausted. *)
Fixpoint zip_new_id (keys : list Z) (g : globals) : list (Z * Z) * globals :=
  match keys with
  | [] => ([], g)
  | k :: r =>
      let '(x, g1) := next_new_id g in
      let '(ps, g2) := zip_new_id r g1 in
      ((k, x) :: ps, g2)
  end.

(** [dict(pairs)]: a later pair overrides an earlier one with the same key. *)
Definition dict_of_pairs (ps : list (Z * Z)) : gmap Z Z :=
  fold_left (λ m kv, <[kv.1 := kv.2]> m) ps ∅.

(** [network["nodes"][x]["name"]] for a key [x] of the network. *)
Definition name_at (nw : gmap Z document_node) (x : Z) : string :=
  match nw !! x with Some n => name n | None => "" end.

(** The rewriting of one input by the loop over [node["inputs"]]. *)
Definition rewrite_input (new_ids : gmap Z Z) (i : node_input) : result node_input :=
  match i with
  | Node old oi lam => new ← map_index new_ids old; Ok (Node new oi lam)
  | _ => Ok i
  end.

(** The ["Transform"] fixup. *)
Definition fix_transform (n : document_node) : document_node :=
  if String.eqb (name n) "Transform"
  then set_manual_composition Footprint (set_implementation TransformNode n)
  else n.

(** The rewrite of the original node into the ["Cull"] node, after its copy
    went to [new_nodes] under [shape]. *)
Definition to_cull (shape delta : Z) (n : document_node) : document_node :=
  let n := set_name "Cull" n in
  let n := set_inputs [Node shape 0 false] n in
  let n := set_manual_composition Footprint n in
  let n := set_has_primary_output true n in
  let n := set_implementation CullNode n in
  set_x (pos_x n + delta) n.

(** [node["metadata"]["position"][0] -= d]. *)
Definition shift_x (d : Z) (n : document_node) : document_node :=
  set_x (pos_x n - d) n.

(** The copy of a ["Shape"] node that goes to [new_nodes] under a fresh id. *)
Definition shape_copy (indent y shift_left : Z) (n : document_node) : document_node :=
  shift_x (shift_left + 8 + indent) (set_y y n).

(** The last two assignments of a turn: the final position of the node. *)
Definition place (indent y shift_left : Z) (n : document_node) : document_node :=
  shift_x (shift_left + indent) (set_y y n).

(** [any(map(lambda x: network["nodes"][x]["name"] == "Cull", nodes))]. *)
Definition has_cull (nw : gmap Z document_node) (nds : list Z) : bool :=
  existsb (λ x, String.eqb (name_at nw x) "Cull") nds.

(** *** Vocabulary of the properties *)

(** A node of the network after the renumbering of its inputs and the
    ["Transform"] fixup, before the ["Shape"] step. *)
Definition renumbered (ins : list node_input) (n : document_node) : document_node :=
  fix_transform (set_inputs ins n).

(** The ["Cull"] node that the original ["Shape"] node ends up as. *)
Definition cull_node (indent y shift_left shape : Z) (n : document_node)
  : document_node :=
  place indent y shift_left
    (to_cull shape (shift_left + 8 + indent) (shape_copy indent y shift_left n)).

Definition is_shape (nw : gmap Z document_node) (x : Z) : bool :=
  String.eqb (name_at nw x) "Shape".

(** The node that a pass over [l] duplicates, if any: with no ["Cull"] among
    [nds], the first ["Shape"] met. *)
Definition dup_target (nw : gmap Z document_node) (nds l : list Z) : option Z :=
  if has_cull nw nds then None else List.find (is_shape nw) l.

(** The ids that the inputs of a node refer to. *)
Definition node_refs (n : document_node) : list Z :=
  flat_map (λ i, match i with Node id _ _ => [id] | _ => [] end) (inputs n).

(** No emitted node refers to an id that is neither a key nor in [P]. *)
Definition closed_modulo (P : Z → Prop) (d : list (Z * document_node)) : Prop :=
  ∀ k n id, Dict.get k d = Some n → id ∈ node_refs n → id ∈ Dict.keys d ∨ P id.

(** Every key of the mapping came out of the id generator. *)
Definition keys_below (g : globals) : Prop :=
  ∀ k, k ∈ Dict.keys (new_nodes g) → k < new_id g.

(** The vertical positions of the nodes named ["Layer"]: below the next
    value of the generator, and one per node. *)
Definition layer_ys_below (g : globals) : Prop :=
  ∀ k n, Dict.get k (new_nodes g) = Some n → name n = "Layer" → pos_y n < y_position g.

Definition layer_ys_distinct (d : list (Z * document_node)) : Prop :=
  ∀ k1 k2 n1 n2, k1 ≠ k2 →
    Dict.get k1 d = Some n1 → Dict.get k2 d = Some n2 →
    name n1 = "Layer" → name n2 = "Layer" → pos_y n1 ≠ pos_y n2.

(** No node of a legacy network is named [nm]. *)
Fixpoint no_node_named (nm : string) (d : data) : Prop :=
  match d with
  | Folder layers =>
      (fix all l :=
         match l with [] => True | x :: r => no_node_named nm x ∧ all r end) layers
  | Layer network => ∀ k n, nodes network !! k = Some n → name n ≠ nm
  end.

(** *** Well-formed legacy documents *)

(** [x] is the key of a node of the network that is not named ["Output"]. *)
Definition survives (nw : gmap Z document_node) (x : Z) : Prop :=
  ∃ n, nw !! x = Some n ∧ name n ≠ "Output".

(** The declared output names a node of the network whose first input
    refers to a surviving node, and so does every ["Node"] input of every
    surviving node. *)
Definition well_formed_network (network : node_network) : Prop :=
  (∃ o on fid foi flam,
     outputs network !! 0%nat = Some o ∧
     nodes network !! output_node_id o = Some on ∧
     inputs on !! 0%nat = Some (Node fid foi flam) ∧
     survives (nodes network) fid) ∧
  ∀ x n id oi lam,
    nodes network !! x = Some n → name n ≠ "Output" →
    Node id oi lam ∈ inputs n → survives (nodes network) id.

(** Every folder has a layer and every network is well formed. *)
Fixpoint well_formed (d : data) : Prop :=
  match d with
  | Folder layers =>
      layers ≠ [] ∧
      (fix all l :=
         match l with [] => True | x :: r => well_formed x ∧ all r end) layers
  | Layer network => well_formed_network network
  end.

(** The number of folders and layers of a tree: one call of [update_layer]
    each. *)
Fixpoint calls (d : data) : nat :=
  match d with
  | Folder layers =>
      S ((fix sum l := match l with [] => 0%nat | x :: r => (calls x + sum r)%nat end)
           layers)
  | Layer _ => 1%nat
  end.

Section Flattener.

(** The order in which a [set] built from a given sequence of keys is
    iterated: fixed within one process, unknown otherwise. *)
Variable set_order : list Z → list Z.

(** [nodes]: the keys of the network whose node is not named ["Output"]. *)
Definition surviving (nw : gmap Z document_node) : list Z :=
  set_order
    (List.filter (λ old_id, negb (String.eqb (name_at nw old_id) "Output"))
       (set_order (map fst (map_to_list nw)))).

(** One turn of [for old_id in nodes].  The network is mutated in place, so
    a later turn sees the names this turn leaves behind; within the turn the
    name of the node changes only after the ["Cull"] test, so the test may read
    the network as the turn found it.  [copy.deepcopy] is the value stored
    under [shape]. *)
Definition update_node (indent y shift_left : Z) (new_ids : gmap Z Z)
    (nds : list Z) (old_id : Z) (st : gmap Z document_node * globals)
  : result (gmap Z document_node * globals) :=
  let '(nw, g) := st in
  node ← map_index nw old_id;
  ins ← map_result (rewrite_input new_ids) (inputs node);
  let node := fix_transform (set_inputs ins node) in
  let '(node, g) :=
    if String.eqb (name node) "Shape" then
      if negb (has_cull nw nds) then
        let node := shape_copy indent y shift_left node in
        let '(shape, g) := next_new_id g in
        let g := emit shape node g in
        (to_cull shape (shift_left + 8 + indent) node, g)
      else (node, g)
    else (node, g) in
  let node := place indent y shift_left node in
  new ← map_index new_ids old_id;
  Ok (<[old_id := node]> nw, emit new node g).

(** [new_ids] of a ["Layer"] call entered in state [g]. *)
Definition layer_new_ids (network : node_network) (g : globals) : gmap Z Z :=
  dict_of_pairs (zip_new_id (surviving (nodes network)) g).1.

(** The ["Layer"] branch: returns [output].  [shift_left] is the local
    variable of [update_layer]; the module-level [shift_left = 32] is never
    read. *)
Definition update_network (network : node_network) (indent y : Z) (g : globals)
  : result (option Z * globals) :=
  let nds := surviving (nodes network) in
  let '(pairs, g) := zip_new_id nds g in
  let new_ids := dict_of_pairs pairs in
  out ← list_index (outputs network) 0;
  output_node ← map_index (nodes network) (output_node_id out);
  let shift_left := pos_x output_node in
  feeding ← list_index (inputs output_node) 0;
  output ← match feeding with
           | Node id _ _ => map_index new_ids id
           | _ => Raise KeyError
           end;
  '(_, g) ← for_each (update_node indent y shift_left new_ids nds) nds (nodes network, g);
  Ok (Some output, g).

(** [assert(output == None or str(output) in new_nodes)]. *)
Definition assert_output (output : option Z) (g : globals) : result unit :=
  match output with
  | None => Ok ()
  | Some o => if Dict.mem o (new_nodes g) then Ok () else Raise AssertionError
  end.

Fixpoint update_layer (d : data) (indent layer_node_id : Z) (next_id : option Z)
    (g : globals) {struct d} : result globals :=
  let '(y, g) := next_y_position g in
  '(output, g) ←
    match d with
    | Folder layers =>
        let '(new_layer_ids, g) := reserve_layer_ids layers g in
        g ← for_enumerate_reversed
              (λ index layer g,
                 let next_index :=
                   if bool_decide (index + 1 < length new_layer_ids)%nat
                   then new_layer_ids !! (index + 1)%nat else None in
                 id ← list_index new_layer_ids index;
                 update_layer layer (indent + 5) id next_index g)
              layers g;
        output ← list_index new_layer_ids 0;
        Ok (Some output, g)
    | Layer network => update_network network indent y g
    end;
  _ ← assert_output output g;
  Ok (emit layer_node_id (layer_node indent y output next_id) g).

(** The call of a ["Folder"] on one of its layers, at its index in the
    reversed list; a lookup past the end of [ids] is [None]. *)
Definition child_call (ids : list Z) (indent : Z) (index : nat) (layer : data)
    (s : globals) : result globals :=
  id ← list_index ids index;
  update_layer layer (indent + 5) id (ids !! (index + 1)%nat) s.

(** [migrate]: the loaded [document["document_legacy"]["root"]["data"]] in,
    the dumped document out.  The three globals are reassigned first, so the
    state [g0] left by an earlier run is not read. *)
Definition migrate (root_data : data) (g0 : globals) : result (document * globals) :=
  let g := {| new_id := gen_id; y_position := gen_y; new_nodes := [] |} in
  let '(root_id, g) := next_new_id g in
  g ← update_layer root_data 0 root_id None g;
  let g := emit 0 root_output_node g in
  Ok (assemble (new_nodes g), g).

(** The two calls at the end of the script, on the two loaded files. *)
Definition main (cactus spires : data) (g0 : globals)
  : result (document * document * globals) :=
  '(doc1, g1) ← migrate cactus g0;
  '(doc2, g2) ← migrate spires g1;
  Ok (doc1, doc2, g2).

(** [update_layer] with a ghost log of the wrappers: every execution of
    [new_nodes[str(layer_node_id)] = node] appends the pair of
    [layer_node_id] and of the [y] that the call drew on entry.  The log is
    never read. *)
Fixpoint update_layer_log (d : data) (indent layer_node_id : Z) (next_id : option Z)
    (s : globals * list (Z * Z)) {struct d} : result (globals * list (Z * Z)) :=
  let '(g, log) := s in
  let '(y, g) := next_y_position g in
  '(output, g, log) ←
    match d with
    | Folder layers =>
        let '(new_layer_ids, g) := reserve_layer_ids layers g in
        '(g, log) ← for_enumerate_reversed
              (λ index layer s,
                 let next_index :=
                   if bool_decide (index + 1 < length new_layer_ids)%nat
                   then new_layer_ids !! (index + 1)%nat else None in
                 id ← list_index new_layer_ids index;
                 update_layer_log layer (indent + 5) id next_index s)
              layers (g, log);
        output ← list_index new_layer_ids 0;
        Ok (Some output, g, log)
    | Layer network =>
        '(output, g) ← update_network network indent y g;
        Ok (output, g, log)
    end;
  _ ← assert_output output g;
  Ok (emit layer_node_id (layer_node indent y output next_id) g,
      (log ++ [(layer_node_id, y)])%list).

(** The ids that a call draws from [new_id]: a folder draws one per layer
    and one more, a layer one per surviving node and one for the copy of a
    duplicated ["Shape"]. *)
Fixpoint ids_drawn (d : data) : nat :=
  match d with
  | Folder layers =>
      S (length layers +
         (fix sum l :=
            match l with [] => 0%nat | x :: r => (ids_drawn x + sum r)%nat end) layers)
  | Layer network =>
      let nds := surviving (nodes network) in
      (length nds +
       match dup_target (nodes network) nds nds with Some _ => 1 | None => 0 end)%nat
  end.

(** The entries that a call adds to [new_nodes]: its wrapper, and for a
    layer one per id drawn. *)
Fixpoint emitted (d : data) : nat :=
  match d with
  | Folder layers =>
      S ((fix sum l :=
            match l with [] => 0%nat | x :: r => (emitted x + sum r)%nat end) layers)
  | Layer network => S (ids_drawn d)
  end.

End Flattener.

End Upgrade.

(** ** [wasm/build.py] *)
Module Build.

(** The manifest [pkg/package.json] is a JSON object: a dict with string
    keys, in insertion order. *)
Fixpoint contains (k : string) (m : list (string * json)) : bool :=
  match m with
  | [] => false
  | (k', _) :: r => if String.eqb k k' then true else contains k r
  end.

(** [m[k] = v]. *)
Fixpoint assign (k : string) (v : json) (m : list (string * json))
  : list (string * json) :=
  match m with
  | [] => [(k, v)]
  | (k', v') :: r => if String.eqb k k' then (k, v) :: r else (k', v') :: assign k v r
  end.

Definition frontend_dependency : json :=
  JDict [("graphite-frontend", JStr "file:../../frontend")].

(** [patch_json]: from the content of [pkg/package.json] before the call to
    its content after.  On the early [return] the file is not written. *)
Definition patch_json (file : list (string * json)) : list (string * json) :=
  let manifest := file in
  if contains "dependencies" manifest then file
  else assign "dependencies" frontend_dependency manifest.

(** The script: [assert os.system("wasm-pack build") == 0], then the patch. *)
Definition build (exit_status : Z) (file : list (string * json))
  : result (list (string * json)) :=
  if Z.eqb exit_status 0 then Ok (patch_json file) else Raise AssertionError.

End Build.

(** ** Sample documents *)
Module Samples.
Import Upgrade.

(** A possible iteration order of sets: first occurrences, in order. *)
Definition insertion_order (l : list Z) : list Z := remove_dups l.

Definition sample_node (nm : string) (ins : list node_input) (x y : Z)
  : document_node :=
  {| name := nm; inputs := ins; manual_composition := JNull;
     has_primary_output := false;
     implementation := unresolved "graphene_core::ops::IdNode";
     position := (x, y); skip_deduplication := true; world_state_hash := 5;
     path := JList [JInt 1] |}.

Definition declared_output (id : Z) : list node_output :=
  [ {| output_node_id := id; node_output_index := 0 |} ].

(** Another one: largest key first. *)
Definition descending_order (l : list Z) : list Z := merge_sort Z.ge (remove_dups l).

(** The ["Output"] node at X = 100, fed by a ["Shape"] at X = 50. *)
Definition shape_network : node_network :=
  {| outputs := declared_output 1;
     nodes := {[ 1 := sample_node "Output" [Node 7 0 false] 100 3;
                 7 := sample_node "Shape" [Value JNull false] 50 2 ]} |}.

(** The same with a ["Cull"] between the two. *)
Definition culled_network : node_network :=
  {| outputs := declared_output 1;
     nodes := {[ 1 := sample_node "Output" [Node 8 0 false] 100 3;
                 8 := sample_node "Cull" [Node 7 0 false] 60 2;
                 7 := sample_node "Shape" [Value JNull false] 50 2 ]} |}.

(** Two ["Shape"] nodes in a row, no ["Cull"]. *)
Definition two_shapes_network : node_network :=
  {| outputs := declared_output 1;
     nodes := {[ 1 := sample_node "Output" [Node 7 0 false] 100 3;
                 7 := sample_node "Shape" [Node 9 0 false] 50 2;
                 9 := sample_node "Shape" [Value JNull false] 30 2 ]} |}.

Definition transform_network : node_network :=
  {| outputs := declared_output 1;
     nodes := {[ 1 := sample_node "Output" [Node 7 0 false] 100 3;
                 7 := sample_node "Transform" [Value JNull false] 50 2 ]} |}.

(** The ["Output"] node at X = 0, fed by a node at X = 100. *)
Definition plain_network : node_network :=
  {| outputs := declared_output 1;
     nodes := {[ 1 := sample_node "Output" [Node 7 0 false] 0 3;
                 7 := sample_node "Image" [Value JNull false] 100 2 ]} |}.

(** A legacy node that is itself named ["Layer"]. *)
Definition layer_named_network : node_network :=
  {| outputs := declared_output 1;
     nodes := {[ 1 := sample_node "Output" [Node 7 0 false] 0 3;
                 7 := sample_node "Layer" [Value JNull false] 20 2 ]} |}.

Definition layer_named_document : data :=
  Folder [Layer layer_named_network; Layer plain_network].


Definition nested_document : data :=
  Folder [Layer shape_network; Folder [Layer transform_network]; Layer plain_network].

(** The state in which [migrate] calls [update_layer] on the root. *)
Definition start : globals := {| new_id := 43; y_position := 7; new_nodes := [] |}.

(** A state in the middle of a run: ids up to 49 drawn, one node emitted. *)
Definition midway : globals :=
  {| new_id := 50; y_position := 10;
     new_nodes := [(45, sample_node "Image" [Value JNull false] 100 7)] |}.

End Samples.

(** * Properties *)

(** ** Insertion-ordered dicts *)
Module DictFacts.

Lemma get_set_eq {V} k (v : V) d : Dict.get k (Dict.set k v d) = Some v.
Proof.
  induction d as [|[k' v'] r IH]; simpl.
  - by rewrite Z.eqb_refl.
  - destruct (Z.eqb_spec k k') as [->|Hne]; simpl.
    + by rewrite Z.eqb_refl.
    + destruct (Z.eqb_spec k k'); [done|]. exact IH.
Qed.

Lemma get_set_ne {V} k k' (v : V) d :
  k ≠ k' → Dict.get k' (Dict.set k v d) = Dict.get k' d.
Proof.
  intros Hne. induction d as [|[k0 v0] r IH]; simpl.
  - destruct (Z.eqb_spec k' k); [congruence|done].
  - destruct (Z.eqb_spec k k0) as [->|Hk]; simpl.
    + destruct (Z.eqb_spec k' k0); [congruence|done].
    + destruct (Z.eqb_spec k' k0); [done|]. exact IH.
Qed.

Lemma get_set {V} k k' (v : V) d :
  Dict.get k' (Dict.set k v d) = if decide (k = k') then Some v else Dict.get k' d.
Proof.
  case_decide as H; [subst; apply get_set_eq|by apply get_set_ne].
Qed.

Lemma get_Some_keys {V} k (d : list (Z * V)) :
  k ∈ Dict.keys d ↔ is_Some (Dict.get k d).
Proof.
  unfold Dict.keys. induction d as [|[k' v'] r IH]; simpl.
  - split; [by intros ?%elem_of_nil|by intros [? ?]].
  - rewrite elem_of_cons, IH. destruct (Z.eqb_spec k k') as [->|Hne].
    + split; eauto.
    + split; [by intros [?|?]|by right].
Qed.

Lemma mem_keys {V} k (d : list (Z * V)) : Dict.mem k d = true ↔ k ∈ Dict.keys d.
Proof.
  rewrite get_Some_keys. unfold Dict.mem.
  destruct (Dict.get k d); [split; eauto|split; [done|by intros [? ?]]].
Qed.

Lemma keys_set {V} k k' (v : V) d :
  k' ∈ Dict.keys (Dict.set k v d) ↔ k' = k ∨ k' ∈ Dict.keys d.
Proof.
  rewrite !get_Some_keys, get_set. case_decide; subst.
  - split; eauto.
  - split; [by right|]. by intros [?|?].
Qed.

End DictFacts.

(** ** Fallible loops *)
Module ResultFacts.

Lemma bind_Ok {A B} (m : result A) (f : A → result B) b :
  m ≫= f = Ok b ↔ ∃ a, m = Ok a ∧ f a = Ok b.
Proof.
  destruct m as [a|e]; simpl; split.
  - eauto.
  - by intros (? & [= <-] & ?).
  - done.
  - by intros (? & ? & ?).
Qed.

Lemma bind_Raise {A B} (m : result A) (f : A → result B) e :
  m ≫= f = Raise e ↔ m = Raise e ∨ ∃ a, m = Ok a ∧ f a = Raise e.
Proof.
  destruct m as [a|e']; simpl; split.
  - intros H. right. eauto.
  - by intros [?|(? & [= <-] & ?)].
  - intros [= ->]. by left.
  - intros [H|(a & H & _)]; [by injection H as ->|discriminate H].
Qed.

Lemma list_index_Ok {A} (l : list A) i x : list_index l i = Ok x ↔ l !! i = Some x.
Proof. unfold list_index. destruct (l !! i); split; congruence. Qed.

Lemma map_index_Ok {A} (m : gmap Z A) k x : map_index m k = Ok x ↔ m !! k = Some x.
Proof. unfold map_index. destruct (m !! k); split; congruence. Qed.

Lemma map_index_lookup {A} (m : gmap Z A) k x : m !! k = Some x → map_index m k = Ok x.
Proof. apply map_index_Ok. Qed.

Lemma for_each_app {A St} (body : A → St → result St) l1 l2 s :
  for_each body (l1 ++ l2)%list s = for_each body l1 s ≫= for_each body l2.
Proof.
  revert s. induction l1 as [|x r IH]; intros s; simpl; [done|].
  destruct (body x s); simpl; [apply IH|done].
Qed.

(** The visits of [for_enumerate_reversed] are those of a plain loop over
    the reversed list paired with its indices [0, 1, ...]. *)
Lemma for_enumerate_reversed_spec {A St} (body : nat → A → St → result St) l s :
  for_enumerate_reversed body l s
  = for_each (λ ix, body ix.1 ix.2) (zip (seq 0 (length l)) (reverse l)) s.
Proof.
  revert s. induction l as [|x r IH]; intros s; [done|].
  change (for_enumerate_reversed body (x :: r) s)
    with (for_enumerate_reversed body r s ≫= body (length r) x).
  rewrite reverse_cons. simpl length.
  replace (seq 0 (S (length r))) with (seq 0 (length r) ++ [length r])%list
    by (by rewrite <- seq_S).
  rewrite zip_with_app by (by rewrite length_seq, length_reverse).
  rewrite for_each_app, <- IH. simpl.
  destruct (for_enumerate_reversed body r s); simpl; [|done].
  by destruct (body (length r) x a).
Qed.

(** An invariant indexed by the number of elements visited so far. *)
Lemma for_enumerate_reversed_inv {A St} (body : nat → A → St → result St)
    (I : nat → St → Prop) l s s' :
  I 0%nat s →
  (∀ x (r : list A) t t', x ∈ l → (length r < length l)%nat →
     I (length r) t → body (length r) x t = Ok t' → I (S (length r)) t') →
  for_enumerate_reversed body l s = Ok s' →
  I (length l) s'.
Proof.
  intros H0. revert s'. induction l as [|x r IH]; intros s' Hstep Hrun.
  - by injection Hrun as <-.
  - change (for_enumerate_reversed body (x :: r) s)
      with (for_enumerate_reversed body r s ≫= body (length r) x) in Hrun.
    apply bind_Ok in Hrun as (t & Hr & Hx).
    apply (Hstep x r t s'); [apply elem_of_cons; by left|simpl; lia| |done].
    apply IH; [|done].
    intros y r' u u' Hy Hlen. apply Hstep; [apply elem_of_cons; by right|simpl; lia].
Qed.

Lemma for_enumerate_reversed_ext {A St} (f h : nat → A → St → result St) l s :
  (∀ i x t, f i x t = h i x t) →
  for_enumerate_reversed f l s = for_enumerate_reversed h l s.
Proof.
  intros Hfh. induction l as [|x r IH]; [done|].
  cbn [for_enumerate_reversed]. rewrite IH.
  destruct (for_enumerate_reversed h r s); simpl; [apply Hfh|done].
Qed.

(** A loop raises only what one of its turns raises. *)
Lemma for_each_Raise {A St} (body : A → St → result St) (P : error → Prop) l s e :
  (∀ x t e', x ∈ l → body x t = Raise e' → P e') →
  for_each body l s = Raise e → P e.
Proof.
  revert s. induction l as [|x r IH]; intros s Hbody Hrun; [done|].
  simpl in Hrun. apply bind_Raise in Hrun as [Hx|(t & _ & Hr)].
  - eapply Hbody; [apply elem_of_cons; by left|done].
  - apply (IH t); [|done]. intros y u e' Hy. apply Hbody, elem_of_cons. by right.
Qed.

Lemma for_enumerate_reversed_Raise {A St} (body : nat → A → St → result St)
    (P : error → Prop) l s e :
  (∀ i x t e', x ∈ l → body i x t = Raise e' → P e') →
  for_enumerate_reversed body l s = Raise e → P e.
Proof.
  induction l as [|x r IH]; intros Hbody Hrun; [done|].
  cbn [for_enumerate_reversed] in Hrun.
  apply bind_Raise in Hrun as [Hr|(t & _ & Hx)].
  - apply IH; [|done]. intros i y u e' Hy. apply Hbody, elem_of_cons. by right.
  - eapply Hbody; [apply elem_of_cons; by left|done].
Qed.

Lemma for_each_inv {A St} (body : A → St → result St) (I : St → Prop) l s s' :
  I s →
  (∀ x t t', x ∈ l → I t → body x t = Ok t' → I t') →
  for_each body l s = Ok s' →
  I s'.
Proof.
  revert s. induction l as [|x r IH]; intros s H0 Hstep Hrun; simpl in Hrun.
  - by injection Hrun as <-.
  - apply bind_Ok in Hrun as (t & Hx & Hr).
    apply (IH t); [|intros y u u' Hy; apply Hstep; apply elem_of_cons; by right|done].
    apply (Hstep x s t); [apply elem_of_cons; by left|done|done].
Qed.

End ResultFacts.

(** ** The generators and the id tables *)
Module GeneratorFacts.
Import Upgrade ResultFacts.

Lemma reserve_layer_ids_spec {A} (layers : list A) g :
  reserve_layer_ids layers g
  = (seqZ (new_id g) (Z.of_nat (length layers)),
     {| new_id := new_id g + Z.of_nat (length layers) + 1;
        y_position := y_position g; new_nodes := new_nodes g |}).
Proof.
  revert g. induction layers as [|x r IH]; intros g.
  - simpl. do 2 f_equal. lia.
  - cbn [reserve_layer_ids next_new_id]. rewrite IH. simpl.
    rewrite (seqZ_cons (new_id g)) by lia.
    replace (Z.pred (Z.of_nat (S (length r)))) with (Z.of_nat (length r)) by lia.
    replace (Z.succ (new_id g)) with (new_id g + 1) by lia.
    by replace (new_id g + Z.of_nat (S (length r)) + 1)
      with (new_id g + 1 + Z.of_nat (length r) + 1) by lia.
Qed.

Lemma zip_new_id_spec (keys : list Z) g :
  zip_new_id keys g
  = (zip keys (seqZ (new_id g) (Z.of_nat (length keys))),
     {| new_id := new_id g + Z.of_nat (length keys);
        y_position := y_position g; new_nodes := new_nodes g |}).
Proof.
  revert g. induction keys as [|x r IH]; intros g.
  - simpl. destruct g; simpl. do 2 f_equal. lia.
  - cbn [zip_new_id next_new_id]. rewrite IH. simpl.
    rewrite (seqZ_cons (new_id g)) by lia. simpl.
    replace (Z.pred (Z.of_nat (S (length r)))) with (Z.of_nat (length r)) by lia.
    replace (Z.succ (new_id g)) with (new_id g + 1) by lia.
    by replace (new_id g + Z.of_nat (S (length r)))
      with (new_id g + 1 + Z.of_nat (length r)) by lia.
Qed.

Lemma dict_of_pairs_to_map ps : dict_of_pairs ps = list_to_map (reverse ps).
Proof.
  unfold dict_of_pairs.
  enough (∀ m : gmap Z Z,
    fold_left (λ m kv, <[kv.1:=kv.2]> m) ps m = list_to_map (reverse ps) ∪ m) as H.
  { rewrite H. by rewrite (right_id_L ∅ (∪)). }
  induction ps as [|[k v] r IH]; intros m; simpl.
  - by rewrite (left_id_L ∅ (∪)).
  - rewrite IH, reverse_cons, list_to_map_app. simpl.
    rewrite <- (assoc_L (∪)). f_equal.
    by rewrite insert_empty, <- insert_union_singleton_l.
Qed.

Lemma dict_of_pairs_elem_of ps k v : dict_of_pairs ps !! k = Some v → (k, v) ∈ ps.
Proof.
  rewrite dict_of_pairs_to_map. intros H%elem_of_list_to_map_2.
  by rewrite elem_of_reverse in H.
Qed.

Lemma dict_of_pairs_lookup ps k v :
  NoDup ps.*1 → (k, v) ∈ ps → dict_of_pairs ps !! k = Some v.
Proof.
  intros Hnd Hin. rewrite dict_of_pairs_to_map.
  apply elem_of_list_to_map_1.
  - by rewrite fmap_reverse, reverse_Permutation.
  - by rewrite elem_of_reverse.
Qed.

End GeneratorFacts.

(** ** One turn of the loop over the nodes of a network *)
Module NodeFacts.
Import Upgrade DictFacts ResultFacts GeneratorFacts.

(** Two nodes with the same members are equal. *)
Lemma node_ext (n m : document_node) :
  name n = name m → inputs n = inputs m →
  manual_composition n = manual_composition m →
  has_primary_output n = has_primary_output m →
  implementation n = implementation m → position n = position m →
  skip_deduplication n = skip_deduplication m →
  world_state_hash n = world_state_hash m → path n = path m →
  n = m.
Proof. destruct n, m; simpl; intros; by subst. Qed.

(** Member by member, so that no chain of setters is ever unfolded whole. *)
Ltac node_fields := apply node_ext; cbn.

Lemma name_fix_transform n : name (fix_transform n) = name n.
Proof. unfold fix_transform. by destruct (String.eqb (name n) "Transform"). Qed.

Lemma name_renumbered ins n : name (renumbered ins n) = name n.
Proof. unfold renumbered. by rewrite name_fix_transform. Qed.

Lemma name_place indent y sl n : name (place indent y sl n) = name n.
Proof. done. Qed.

Lemma name_cull_node indent y sl shape n : name (cull_node indent y sl shape n) = "Cull".
Proof. done. Qed.

Lemma pos_cull_node indent y sl shape n :
  position (cull_node indent y sl shape n) = (pos_x n - (sl + indent), y).
Proof. unfold cull_node, pos_x. cbn. f_equal. lia. Qed.

Lemma pos_x_place indent y sl n : pos_x (place indent y sl n) = pos_x n - (sl + indent).
Proof. done. Qed.
Lemma pos_y_place indent y sl n : pos_y (place indent y sl n) = y.
Proof. done. Qed.
Lemma pos_x_shape_copy indent y sl n :
  pos_x (shape_copy indent y sl n) = pos_x n - (sl + 8 + indent).
Proof. done. Qed.
Lemma pos_y_shape_copy indent y sl n : pos_y (shape_copy indent y sl n) = y.
Proof. done. Qed.
Lemma pos_x_cull_node indent y sl shape n :
  pos_x (cull_node indent y sl shape n) = pos_x n - (sl + indent).
Proof. unfold pos_x. by rewrite pos_cull_node. Qed.
Lemma pos_y_cull_node indent y sl shape n : pos_y (cull_node indent y sl shape n) = y.
Proof. unfold pos_y. by rewrite pos_cull_node. Qed.

Lemma pos_x_renumbered ins n : pos_x (renumbered ins n) = pos_x n.
Proof.
  unfold renumbered, fix_transform.
  by destruct (String.eqb (name (set_inputs ins n)) "Transform").
Qed.

Lemma name_at_insert nw x n' z :
  name_at (<[x:=n']> nw) z = if decide (x = z) then name n' else name_at nw z.
Proof. unfold name_at. rewrite lookup_insert. by case_decide. Qed.

Lemma has_cull_true nw nds :
  has_cull nw nds = true ↔ ∃ x, x ∈ nds ∧ name_at nw x = "Cull".
Proof.
  unfold has_cull. rewrite existsb_exists. split.
  - intros (x & Hin & Heq). exists x. split; [by apply list_elem_of_In|].
    by apply String.eqb_eq.
  - intros (x & Hin & Heq). exists x. split; [by apply list_elem_of_In|].
    by apply String.eqb_eq.
Qed.

(** Renaming nothing keeps the answer of the ["Cull"] test. *)
Lemma has_cull_insert_same nw nds x n n' :
  nw !! x = Some n → name n' = name n →
  has_cull (<[x:=n']> nw) nds = has_cull nw nds.
Proof.
  intros Hx Hname. unfold has_cull.
  induction nds as [|z r IH]; [done|]. simpl. rewrite IH. f_equal.
  rewrite name_at_insert. case_decide; [subst|done].
  unfold name_at. by rewrite Hx, Hname.
Qed.

Lemma has_cull_insert_cull nw nds x n' :
  x ∈ nds → name n' = "Cull" → has_cull (<[x:=n']> nw) nds = true.
Proof.
  intros Hin Hname. apply has_cull_true. exists x. split; [done|].
  rewrite name_at_insert. by rewrite decide_True.
Qed.

Lemma find_is_shape_insert nw x n' (l : list Z) :
  x ∉ l → List.find (is_shape (<[x:=n']> nw)) l = List.find (is_shape nw) l.
Proof.
  induction l as [|z r IH]; [done|].
  intros [Hne Hr]%not_elem_of_cons. simpl. unfold is_shape at 1 3.
  rewrite name_at_insert, decide_False by done. by rewrite IH.
Qed.

Lemma dup_target_Some nw nds l x :
  dup_target nw nds l = Some x →
  has_cull nw nds = false ∧ x ∈ l ∧ name_at nw x = "Shape".
Proof.
  unfold dup_target. destruct (has_cull nw nds); [done|].
  intros [Hin Hs]%find_some. split; [done|]. split; [by apply list_elem_of_In|].
  by apply String.eqb_eq.
Qed.

(** With no ["Cull"] around, the only ["Shape"] of a pass is its target. *)
Lemma dup_target_unique nw nds l x :
  has_cull nw nds = false → x ∈ l → name_at nw x = "Shape" →
  (∀ z, z ∈ l → name_at nw z = "Shape" → z = x) →
  dup_target nw nds l = Some x.
Proof.
  intros Hc Hin Hs Huniq. unfold dup_target. rewrite Hc.
  destruct (List.find (is_shape nw) l) as [z|] eqn:Hf.
  - apply find_some in Hf as [Hz Hzs]. f_equal. apply Huniq.
    + by apply list_elem_of_In.
    + by apply String.eqb_eq.
  - exfalso. apply list_elem_of_In in Hin.
    pose proof (find_none _ _ Hf x Hin) as Hn. unfold is_shape in Hn.
    rewrite Hs in Hn. done.
Qed.

(** What one turn does, read off a successful run of it. *)
Lemma update_node_Ok indent y sl new_ids nds old nw g nw' g' :
  update_node indent y sl new_ids nds old (nw, g) = Ok (nw', g') →
  ∃ n ins new,
    nw !! old = Some n ∧
    map_result (rewrite_input new_ids) (inputs n) = Ok ins ∧
    new_ids !! old = Some new ∧
    ((name n = "Shape" ∧ has_cull nw nds = false ∧
      nw' = <[old := cull_node indent y sl (new_id g) (renumbered ins n)]> nw ∧
      g' = emit new (cull_node indent y sl (new_id g) (renumbered ins n))
             (emit (new_id g) (shape_copy indent y sl (renumbered ins n))
                (next_new_id g).2))
     ∨ ((name n ≠ "Shape" ∨ has_cull nw nds = true) ∧
        nw' = <[old := place indent y sl (renumbered ins n)]> nw ∧
        g' = emit new (place indent y sl (renumbered ins n)) g)).
Proof.
  unfold update_node. intros H.
  apply bind_Ok in H as (n & Hn%map_index_Ok & H).
  apply bind_Ok in H as (ins & Hins & H).
  exists n, ins. fold (renumbered ins n) in H.
  destruct (String.eqb_spec (name (renumbered ins n)) "Shape") as [Hs|Hs];
    rewrite name_renumbered in Hs.
  - destruct (has_cull nw nds) eqn:Hc; cbn [negb] in H.
    + apply bind_Ok in H as (new & Hnew%map_index_Ok & [= <- <-]).
      exists new. repeat split; [done..|]. right. repeat split; auto.
    + cbn [next_new_id] in H.
      apply bind_Ok in H as (new & Hnew%map_index_Ok & [= <- <-]).
      exists new. repeat split; [done..|]. left. repeat split; auto.
  - apply bind_Ok in H as (new & Hnew%map_index_Ok & [= <- <-]).
    exists new. repeat split; [done..|]. right. repeat split; auto.
Qed.

End NodeFacts.

(** ** The loop over the nodes of a network *)
Module LoopFacts.
Import Upgrade DictFacts ResultFacts GeneratorFacts NodeFacts.

Section Loop.
Variables (indent y sl : Z) (new_ids : gmap Z Z) (nds : list Z).

(** Distinct nodes of the network get distinct new ids. *)
Hypothesis new_ids_inj : ∀ x x' v,
  x ∈ nds → x' ∈ nds → new_ids !! x = Some v → new_ids !! x' = Some v → x = x'.

Lemma dup_target_cons_shape nw x r :
  has_cull nw nds = false → name_at nw x = "Shape" →
  dup_target nw nds (x :: r) = Some x.
Proof.
  intros Hc Hs. unfold dup_target. rewrite Hc. simpl. unfold is_shape.
  by rewrite Hs.
Qed.

Lemma dup_target_cons_plain nw x n n' r :
  nw !! x = Some n → name n' = name n → x ∉ r →
  name n ≠ "Shape" ∨ has_cull nw nds = true →
  dup_target (<[x:=n']> nw) nds r = dup_target nw nds (x :: r).
Proof.
  intros Hx Hname Hr Hcase. unfold dup_target.
  rewrite (has_cull_insert_same nw nds x n n') by done.
  destruct (has_cull nw nds); [done|].
  rewrite find_is_shape_insert by done. simpl. unfold is_shape at 2.
  unfold name_at. rewrite Hx.
  destruct Hcase as [Hs|?]; [|done].
  by destruct (String.eqb_spec (name n) "Shape").
Qed.

(** The whole pass, from the state it starts in. *)
Lemma loop_spec l : ∀ nw g nw' g',
  NoDup l → (∀ x, x ∈ l → x ∈ nds) →
  (∀ x v, x ∈ nds → new_ids !! x = Some v → v < new_id g) →
  for_each (update_node indent y sl new_ids nds) l (nw, g) = Ok (nw', g') →
  new_id g' = new_id g + match dup_target nw nds l with Some _ => 1 | None => 0 end ∧
  y_position g' = y_position g ∧
  (∀ x, x ∈ l → ∃ n ins new,
     nw !! x = Some n ∧
     map_result (rewrite_input new_ids) (inputs n) = Ok ins ∧
     new_ids !! x = Some new ∧
     if decide (dup_target nw nds l = Some x) then
       Dict.get new (new_nodes g')
         = Some (cull_node indent y sl (new_id g) (renumbered ins n)) ∧
       Dict.get (new_id g) (new_nodes g')
         = Some (shape_copy indent y sl (renumbered ins n))
     else
       Dict.get new (new_nodes g') = Some (place indent y sl (renumbered ins n))) ∧
  (∀ k, (∀ x, x ∈ l → new_ids !! x ≠ Some k) →
     dup_target nw nds l = None ∨ k ≠ new_id g →
     Dict.get k (new_nodes g') = Dict.get k (new_nodes g)).
Proof.
  induction l as [|x r IH]; intros nw g nw' g' Hnd Hsub Hlt Hrun.
  { injection Hrun as <- <-. unfold dup_target.
    destruct (has_cull nw nds); simpl; (split; [lia|]); (split; [done|]);
      (split; [by intros ? ?%elem_of_nil|done]). }
  apply NoDup_cons in Hnd as [Hxr Hnd].
  simpl in Hrun. apply bind_Ok in Hrun as ([nw1 g1] & Hturn & Hrest).
  assert (Hxin : x ∈ nds) by (apply Hsub, elem_of_cons; by left).
  assert (Hsub' : ∀ z, z ∈ r → z ∈ nds) by (intros z ?; apply Hsub, elem_of_cons; by right).
  apply update_node_Ok in Hturn
    as (n & ins & new & Hn & Hins & Hnew & [(Hs & Hc & -> & ->)|(Hcase & -> & ->)]).
  - (* the turn that duplicates *)
    set (c := cull_node indent y sl (new_id g) (renumbered ins n)) in *.
    set (s := shape_copy indent y sl (renumbered ins n)) in *.
    assert (Htgt : dup_target nw nds (x :: r) = Some x).
    { apply dup_target_cons_shape; [done|]. unfold name_at. by rewrite Hn. }
    assert (Htgt1 : dup_target (<[x:=c]> nw) nds r = None).
    { unfold dup_target. by rewrite (has_cull_insert_cull nw nds x c). }
    assert (Hlt1 : ∀ z v, z ∈ nds → new_ids !! z = Some v →
              v < new_id (emit new c (emit (new_id g) s (next_new_id g).2))).
    { intros z v Hz Hv. cbn. specialize (Hlt z v Hz Hv). lia. }
    destruct (IH _ _ _ _ Hnd Hsub' Hlt1 Hrest) as (Hid & Hy & Hem & Hfr).
    rewrite Htgt1 in Hid, Hem, Hfr. rewrite Htgt. cbn in Hid, Hy.
    assert (Hnew_lt : new < new_id g) by eauto.
    split; [lia|]. split; [done|]. split.
    + intros z [->|Hz]%elem_of_cons.
      * exists n, ins, new. rewrite decide_True by done. repeat split; [done..| |].
        -- rewrite Hfr; [|intros z Hz Hz'|by left].
           ++ cbn. by rewrite get_set_eq.
           ++ assert (z = x) by eauto. by subst.
        -- rewrite Hfr; [|intros z Hz Hz'|by left].
           ++ cbn. rewrite get_set_ne by lia. by rewrite get_set_eq.
           ++ specialize (Hlt z (new_id g) (Hsub' z Hz) Hz'). lia.
      * destruct (Hem z Hz) as (n' & ins' & new' & Hn' & Hins' & Hnew' & Hget).
        assert (z ≠ x) by (by intros ->).
        rewrite lookup_insert_ne in Hn' by done.
        exists n', ins', new'. repeat split; [done..|].
        rewrite decide_False by congruence.
        by rewrite decide_False in Hget by done.
    + intros k Hk [?|Hkne]; [done|].
      rewrite Hfr; [|intros z Hz; apply Hk, elem_of_cons; by right|by left].
      cbn. rewrite !get_set_ne; [done|lia|].
      intros ->. eapply Hk; [apply elem_of_cons; by left|done].
  - (* a plain turn *)
    set (p := place indent y sl (renumbered ins n)) in *.
    assert (Htgt : dup_target (<[x:=p]> nw) nds r = dup_target nw nds (x :: r)).
    { apply (dup_target_cons_plain nw x n); [done| |done..].
      unfold p. by rewrite name_place, name_renumbered. }
    assert (Hlt1 : ∀ z v, z ∈ nds → new_ids !! z = Some v →
              v < new_id (emit new p g)).
    { intros z v Hz Hv. cbn. eauto. }
    destruct (IH _ _ _ _ Hnd Hsub' Hlt1 Hrest) as (Hid & Hy & Hem & Hfr).
    rewrite Htgt in Hid, Hem, Hfr. cbn in Hid, Hy.
    assert (Hnew_lt : new < new_id g) by eauto.
    assert (Hnotx : dup_target nw nds (x :: r) ≠ Some x).
    { unfold dup_target. destruct (has_cull nw nds) eqn:Hc; [done|].
      destruct Hcase as [Hs|?]; [|done]. simpl. unfold is_shape at 1.
      unfold name_at. rewrite Hn.
      destruct (String.eqb_spec (name n) "Shape"); [done|].
      intros Hf%find_some. destruct Hf as [Hf _].
      by apply list_elem_of_In in Hf. }
    split; [done|]. split; [done|]. split.
    + intros z [->|Hz]%elem_of_cons.
      * exists n, ins, new. rewrite decide_False by done. repeat split; [done..|].
        rewrite Hfr.
        -- cbn. by rewrite get_set_eq.
        -- intros z Hz Hz'. assert (z = x) by eauto. by subst.
        -- right. cbn. lia.
      * destruct (Hem z Hz) as (n' & ins' & new' & Hn' & Hins' & Hnew' & Hget).
        assert (z ≠ x) by (by intros ->).
        rewrite lookup_insert_ne in Hn' by done.
        exists n', ins', new'. repeat split; [done..|]. exact Hget.
    + intros k Hk Hkne.
      rewrite Hfr; [|intros z Hz; apply Hk, elem_of_cons; by right|exact Hkne].
      cbn. rewrite get_set_ne; [done|].
      intros ->. eapply Hk; [apply elem_of_cons; by left|done].
Qed.

End Loop.
End LoopFacts.

(** ** The ["Layer"] branch *)
Module LayerFacts.
Import Upgrade DictFacts ResultFacts GeneratorFacts NodeFacts LoopFacts.

Section Layer.
Variable set_order : list Z → list Z.

(** A [set] holds each of its elements once. *)
Hypothesis set_order_spec : ∀ l, NoDup (set_order l) ∧ ∀ x, x ∈ set_order l ↔ x ∈ l.

Lemma NoDup_surviving nw : NoDup (surviving set_order nw).
Proof. unfold surviving. apply set_order_spec. Qed.

Lemma elem_of_surviving nw x :
  x ∈ surviving set_order nw ↔ ∃ n, nw !! x = Some n ∧ name n ≠ "Output".
Proof.
  unfold surviving.
  rewrite (proj2 (set_order_spec _)), list_elem_of_In, filter_In, <- list_elem_of_In.
  rewrite (proj2 (set_order_spec _)), list_elem_of_fmap. split.
  - intros [([k n] & -> & Hkn%elem_of_map_to_list) Hname]. simpl in *.
    exists n. split; [done|]. unfold name_at in Hname. rewrite Hkn in Hname.
    by destruct (String.eqb_spec (name n) "Output").
  - intros (n & Hn & Hname). split.
    + exists (x, n). split; [done|]. by apply elem_of_map_to_list.
    + unfold name_at. rewrite Hn.
      by destruct (String.eqb_spec (name n) "Output").
Qed.

(** The table gives the [i]-th surviving node the [i]-th id drawn. *)
Lemma layer_new_ids_lookup nw g x v :
  layer_new_ids set_order nw g !! x = Some v ↔
  ∃ i, surviving set_order (nodes nw) !! i = Some x ∧ v = new_id g + Z.of_nat i.
Proof.
  unfold layer_new_ids. rewrite zip_new_id_spec. cbn [fst].
  set (nds := surviving set_order (nodes nw)).
  assert (Hfst : (zip nds (seqZ (new_id g) (Z.of_nat (length nds)))).*1 = nds).
  { apply fst_zip. rewrite length_seqZ. lia. }
  split.
  - intros H%dict_of_pairs_elem_of.
    apply elem_of_lookup_zip_with in H as (i & a & b & [= <- <-] & Ha & Hb).
    apply lookup_seqZ in Hb as [-> _]. eauto.
  - intros (i & Hi & ->). apply dict_of_pairs_lookup.
    + rewrite Hfst. apply NoDup_surviving.
    + apply elem_of_lookup_zip_with. exists i, x, (new_id g + Z.of_nat i).
      split; [done|]. split; [done|]. apply lookup_seqZ. split; [done|].
      apply lookup_lt_Some in Hi. fold nds in Hi. lia.
Qed.

Lemma layer_new_ids_range nw g x v :
  layer_new_ids set_order nw g !! x = Some v →
  x ∈ surviving set_order (nodes nw) ∧
  new_id g ≤ v < new_id g + Z.of_nat (length (surviving set_order (nodes nw))).
Proof.
  intros (i & Hi & ->)%layer_new_ids_lookup. split.
  - apply list_elem_of_lookup. eauto.
  - apply lookup_lt_Some in Hi. lia.
Qed.

Lemma layer_new_ids_inj nw g x x' v :
  layer_new_ids set_order nw g !! x = Some v →
  layer_new_ids set_order nw g !! x' = Some v → x = x'.
Proof.
  intros (i & Hi & ->)%layer_new_ids_lookup (j & Hj & Heq)%layer_new_ids_lookup.
  assert (i = j) as -> by lia. congruence.
Qed.

(** Every id drawn for the table is the new id of some node. *)
Lemma layer_new_ids_onto nw g v :
  new_id g ≤ v < new_id g + Z.of_nat (length (surviving set_order (nodes nw))) →
  ∃ x, x ∈ surviving set_order (nodes nw) ∧ layer_new_ids set_order nw g !! x = Some v.
Proof.
  intros Hv.
  destruct (lookup_lt_is_Some_2 (surviving set_order (nodes nw)) (Z.to_nat (v - new_id g)))
    as [x Hx]; [lia|].
  exists x. split; [apply list_elem_of_lookup; eauto|].
  apply layer_new_ids_lookup. exists (Z.to_nat (v - new_id g)). split; [done|lia].
Qed.

Lemma layer_new_ids_ext nw g1 g :
  new_id g1 = new_id g → layer_new_ids set_order nw g1 = layer_new_ids set_order nw g.
Proof. intros H. unfold layer_new_ids. by rewrite !zip_new_id_spec, H. Qed.

(** A successful run of the branch, taken apart. *)
Lemma update_network_Ok nw indent y g output g' :
  update_network set_order nw indent y g = Ok (output, g') →
  ∃ o on fid foi flam out nw',
    outputs nw !! 0%nat = Some o ∧
    nodes nw !! output_node_id o = Some on ∧
    inputs on !! 0%nat = Some (Node fid foi flam) ∧
    layer_new_ids set_order nw g !! fid = Some out ∧
    output = Some out ∧
    for_each
      (update_node indent y (pos_x on) (layer_new_ids set_order nw g)
         (surviving set_order (nodes nw)))
      (surviving set_order (nodes nw))
      (nodes nw, (zip_new_id (surviving set_order (nodes nw)) g).2)
    = Ok (nw', g').
Proof.
  unfold update_network, layer_new_ids.
  destruct (zip_new_id (surviving set_order (nodes nw)) g) as [pairs g1] eqn:Hzip.
  cbn [fst snd]. intros H.
  apply bind_Ok in H as (o & Ho%list_index_Ok & H).
  apply bind_Ok in H as (on & Hon%map_index_Ok & H).
  apply bind_Ok in H as (feeding & Hf%list_index_Ok & H).
  apply bind_Ok in H as (out & Hout & H).
  apply bind_Ok in H as ([nw' g2] & Hloop & [= <- <-]).
  destruct feeding as [fid foi flam| |]; [|done..].
  apply map_index_Ok in Hout.
  exists o, on, fid, foi, flam, out, nw'. repeat split; done.
Qed.

(** The branch, from the state it is entered in: what it emits and what it
    leaves alone. *)
Lemma update_network_spec nw indent y g output g2 :
  update_network set_order nw indent y g = Ok (output, g2) →
  let nds := surviving set_order (nodes nw) in
  let new_ids := layer_new_ids set_order nw g in
  let c := new_id g + Z.of_nat (length nds) in
  let tgt := dup_target (nodes nw) nds nds in
  ∃ o on fid foi flam out,
    outputs nw !! 0%nat = Some o ∧
    nodes nw !! output_node_id o = Some on ∧
    inputs on !! 0%nat = Some (Node fid foi flam) ∧
    new_ids !! fid = Some out ∧
    output = Some out ∧
    new_id g2 = c + match tgt with Some _ => 1 | None => 0 end ∧
    y_position g2 = y_position g ∧
    (∀ x, x ∈ nds → ∃ n ins new,
       nodes nw !! x = Some n ∧
       map_result (rewrite_input new_ids) (inputs n) = Ok ins ∧
       new_ids !! x = Some new ∧
       if decide (tgt = Some x) then
         Dict.get new (new_nodes g2)
           = Some (cull_node indent y (pos_x on) c (renumbered ins n)) ∧
         Dict.get c (new_nodes g2)
           = Some (shape_copy indent y (pos_x on) (renumbered ins n))
       else
         Dict.get new (new_nodes g2)
           = Some (place indent y (pos_x on) (renumbered ins n))) ∧
    (∀ k, ¬ (new_id g ≤ k < new_id g2) →
       Dict.get k (new_nodes g2) = Dict.get k (new_nodes g)).
Proof.
  intros Hnet nds new_ids c tgt.
  apply update_network_Ok in Hnet
    as (o & on & fid & foi & flam & out & nw' & Ho & Hon & Hf & Hout & -> & Hloop).
  fold nds new_ids in Hout, Hloop.
  rewrite zip_new_id_spec in Hloop. cbn [snd] in Hloop.
  apply loop_spec in Hloop as (Hid & Hy & Hem & Hfr).
  - cbn in Hid, Hy. fold nds tgt c in Hid. fold c tgt in Hem. fold tgt in Hfr.
    exists o, on, fid, foi, flam, out.
    do 5 (split; [done|]). split; [exact Hid|]. split; [exact Hy|].
    split; [exact Hem|].
    intros k Hrange.
    assert (c ≤ new_id g2) by (destruct tgt; lia).
    rewrite Hfr; [done| |].
    + intros x Hx Hnew. apply layer_new_ids_range in Hnew as [_ Hnew].
      fold nds c in Hnew. lia.
    + cbn. destruct tgt; [right|by left]. fold c. lia.
  - intros x x' v _ _. apply layer_new_ids_inj.
  - apply NoDup_surviving.
  - done.
  - intros x v _ Hv%layer_new_ids_range. cbn. fold nds in Hv. lia.
Qed.

(** The keys of the mapping after the branch: those it had, one per
    surviving node, and the key of the copy when a ["Shape"] was duplicated. *)
Lemma network_keys nw indent y g output g2 :
  update_network set_order nw indent y g = Ok (output, g2) →
  let nds := surviving set_order (nodes nw) in
  let new_ids := layer_new_ids set_order nw g in
  ∀ k, k ∈ Dict.keys (new_nodes g2) ↔
       k ∈ Dict.keys (new_nodes g) ∨
       (∃ x, x ∈ nds ∧ new_ids !! x = Some k) ∨
       (is_Some (dup_target (nodes nw) nds nds) ∧ k = new_id g + Z.of_nat (length nds)).
Proof.
  intros Hnet nds new_ids k.
  apply update_network_spec in Hnet
    as (o & on & fid & foi & flam & out & _ & _ & _ & _ & _ & Hid & Hy & Hem & Hfr).
  fold nds new_ids in Hid, Hem.
  set (c := new_id g + Z.of_nat (length nds)) in *.
  assert (Hpresent : ∀ x, x ∈ nds →
            ∃ v, new_ids !! x = Some v ∧ is_Some (Dict.get v (new_nodes g2))).
  { intros x Hx. destruct (Hem x Hx) as (n & ins & new & _ & _ & Hnew & Hget).
    exists new. split; [done|]. case_decide; [destruct Hget|]; eauto. }
  assert (Hcopy : is_Some (dup_target (nodes nw) nds nds) →
            is_Some (Dict.get c (new_nodes g2))).
  { intros [x Ht]. pose proof Ht as (_ & Hx & _)%dup_target_Some.
    destruct (Hem x Hx) as (n & ins & new & _ & _ & _ & Hget).
    rewrite decide_True in Hget by done. destruct Hget; eauto. }
  rewrite !get_Some_keys. split.
  - intros Hk.
    destruct (decide (new_id g ≤ k < new_id g2)) as [Hin|Hout'].
    + destruct (decide (k < c)) as [Hlt|Hge].
      * right; left. apply layer_new_ids_onto. fold nds c. lia.
      * right; right.
        destruct (dup_target (nodes nw) nds nds); [split; [eauto|lia]|lia].
    + left. by rewrite <- (Hfr k Hout').
  - intros [Hk|[(x & Hx & Hv)|[Ht ->]]].
    + destruct (decide (new_id g ≤ k < new_id g2)) as [Hin|Hout'];
        [|by rewrite (Hfr k Hout')].
      destruct (decide (k < c)) as [Hlt|Hge].
      * destruct (layer_new_ids_onto nw g k) as (x & Hx & Hv); [fold nds c; lia|].
        destruct (Hpresent x Hx) as (v & Hv' & Hsome).
        fold new_ids in Hv. by assert (v = k) as -> by congruence.
      * assert (k = c) as ->
          by (destruct (dup_target (nodes nw) nds nds); lia).
        apply Hcopy. destruct (dup_target (nodes nw) nds nds); [eauto|lia].
    + destruct (Hpresent x Hx) as (v & Hv' & Hsome).
      by assert (v = k) as -> by congruence.
    + by apply Hcopy.
Qed.

(** A call on a ["Layer"]: the branch, the assertion, the wrapper. *)
Lemma update_layer_Layer_Ok nw indent lid nxt g g' :
  update_layer set_order (Layer nw) indent lid nxt g = Ok g' →
  ∃ output g2,
    update_network set_order nw indent (y_position g) (next_y_position g).2
      = Ok (output, g2) ∧
    assert_output output g2 = Ok () ∧
    g' = emit lid (layer_node indent (y_position g) output nxt) g2.
Proof.
  cbn [update_layer]. unfold next_y_position at 1. intros Hrun.
  apply bind_Ok in Hrun as ([output g2] & Hnet & Hrun).
  apply bind_Ok in Hrun as ([] & Hassert & [= <-]).
  by exists output, g2.
Qed.

(** The whole call on a ["Layer"], from the state it is entered in. *)
Lemma update_layer_Layer nw indent lid nxt g g' :
  lid < new_id g →
  update_layer set_order (Layer nw) indent lid nxt g = Ok g' →
  let nds := surviving set_order (nodes nw) in
  let new_ids := layer_new_ids set_order nw g in
  let y := y_position g in
  let c := new_id g + Z.of_nat (length nds) in
  let tgt := dup_target (nodes nw) nds nds in
  ∃ o on fid foi flam out,
    outputs nw !! 0%nat = Some o ∧
    nodes nw !! output_node_id o = Some on ∧
    inputs on !! 0%nat = Some (Node fid foi flam) ∧
    new_ids !! fid = Some out ∧
    new_id g' = c + match tgt with Some _ => 1 | None => 0 end ∧
    y_position g' = y + 3 ∧
    (∀ x, x ∈ nds → ∃ n ins new,
       nodes nw !! x = Some n ∧
       map_result (rewrite_input new_ids) (inputs n) = Ok ins ∧
       new_ids !! x = Some new ∧
       if decide (tgt = Some x) then
         Dict.get new (new_nodes g')
           = Some (cull_node indent y (pos_x on) c (renumbered ins n)) ∧
         Dict.get c (new_nodes g')
           = Some (shape_copy indent y (pos_x on) (renumbered ins n))
       else
         Dict.get new (new_nodes g')
           = Some (place indent y (pos_x on) (renumbered ins n))) ∧
    Dict.get lid (new_nodes g') = Some (layer_node indent y (Some out) nxt) ∧
    (∀ k, k ≠ lid → ¬ (new_id g ≤ k < new_id g') →
       Dict.get k (new_nodes g') = Dict.get k (new_nodes g)).
Proof.
  intros Hlid Hrun nds new_ids y c tgt.
  apply update_layer_Layer_Ok in Hrun as (output & g2 & Hnet & _ & ->).
  apply update_network_spec in Hnet
    as (o & on & fid & foi & flam & out & Ho & Hon & Hf & Hout & -> & Hid & Hy & Hem & Hfr).
  rewrite (layer_new_ids_ext nw _ g) in Hout, Hem by done.
  cbn [next_y_position snd new_id y_position] in Hid, Hy, Hfr, Hem.
  fold nds new_ids y c tgt in Hout, Hem, Hid, Hy.
  exists o, on, fid, foi, flam, out.
  do 4 (split; [done|]). split; [exact Hid|]. split; [exact Hy|].
  split; [|split].
  - intros x Hx. destruct (Hem x Hx) as (n & ins & new & Hn & Hins & Hnew & Hget).
    exists n, ins, new. do 3 (split; [done|]).
    apply layer_new_ids_range in Hnew as [_ Hr]. fold nds c in Hr.
    case_decide as Ht.
    + destruct Hget as [Hget1 Hget2]. cbn. rewrite !get_set_ne by lia. done.
    + cbn. rewrite get_set_ne by lia. done.
  - cbn. apply get_set_eq.
  - intros k Hk Hrange. cbn in Hrange |- *. rewrite get_set_ne by done.
    by apply Hfr.
Qed.

End Layer.
End LayerFacts.

(** * The properties of the specification: the ["Layer"] branch *)
Module LayerSpec.
Import Upgrade DictFacts ResultFacts GeneratorFacts NodeFacts LoopFacts LayerFacts.

Section Spec.
Variable set_order : list Z → list Z.
Hypothesis set_order_spec : ∀ l, NoDup (set_order l) ∧ ∀ x, x ∈ set_order l ↔ x ∈ l.

Lemma renumbered_not_transform ins n :
  name n ≠ "Transform" → renumbered ins n = set_inputs ins n.
Proof.
  intros H. unfold renumbered, fix_transform. simpl.
  by destruct (String.eqb_spec (name n) "Transform").
Qed.




(** C3, amended: the horizontal shift of a ["Layer"] network is the X
    position of the node that the network's declared output names (the
    ["Output"] node itself), not of the node feeding it.  Every node emitted
    under a renumbered id ends at its original X minus that shift minus the
    indent, so at original X minus 100 when that node sits at X = 100 and the
    indent is 0; the copy of a duplicated ["Shape"] ends 8 further left. *)
Theorem layer_shift_is_output_node_x nw indent lid nxt g g' :
  lid < new_id g →
  update_layer set_order (Layer nw) indent lid nxt g = Ok g' →
  let nds := surviving set_order (nodes nw) in
  let new_ids := layer_new_ids set_order nw g in
  ∃ o on,
    outputs nw !! 0%nat = Some o ∧ nodes nw !! output_node_id o = Some on ∧
    ∀ x n, nodes nw !! x = Some n → name n ≠ "Output" →
      ∃ new e,
        new_ids !! x = Some new ∧
        Dict.get new (new_nodes g') = Some e ∧
        pos_x e = pos_x n - (pos_x on + indent) ∧
        pos_y e = y_position g ∧
        (pos_x on = 100 → indent = 0 → pos_x e = pos_x n - 100) ∧
        (dup_target (nodes nw) nds nds = Some x →
           ∃ d, Dict.get (new_id g + Z.of_nat (length nds)) (new_nodes g') = Some d ∧
                name d = "Shape" ∧
                pos_x d = pos_x n - (pos_x on + 8 + indent) ∧
                pos_y d = y_position g).
Proof.
  intros Hlid Hrun nds new_ids.
  destruct (update_layer_Layer set_order set_order_spec _ _ _ _ _ _ Hlid Hrun)
    as (o & on & fid & foi & flam & out & Ho & Hon & Hf & Hout & Hid & Hy & Hem & Hw & Hfr).
  exists o, on. do 2 (split; [done|]). intros x n Hn Hname.
  assert (Hx : x ∈ nds) by (apply elem_of_surviving; eauto).
  destruct (Hem x Hx) as (n' & ins & new & Hn' & Hins & Hnew & Hget).
  assert (n' = n) as -> by congruence.
  pose proof (pos_x_renumbered ins n) as Hpx.
  case_decide as Ht.
  - destruct Hget as [Hc Hd].
    eexists new, _. do 2 (split; [done|]).
    rewrite !pos_x_cull_node, pos_y_cull_node, Hpx.
    do 2 (split; [done|]). split; [intros -> ->; lia|].
    intros _. eexists. split; [exact Hd|].
    rewrite pos_x_shape_copy, pos_y_shape_copy, Hpx.
    split; [|done].
    apply dup_target_Some in Ht as (_ & _ & Hs).
    unfold name_at in Hs. rewrite Hn in Hs.
    change (name (renumbered ins n) = "Shape"). by rewrite name_renumbered.
  - eexists new, _. do 2 (split; [done|]).
    rewrite !pos_x_place, pos_y_place, Hpx.
    do 2 (split; [done|]). split; [intros -> ->; lia|done].
Qed.

Lemma no_cull_has_cull (nw : gmap Z document_node) nds :
  (∀ x m, nw !! x = Some m → name m ≠ "Cull") → has_cull nw nds = false.
Proof.
  intros Hno. destruct (has_cull nw nds) eqn:Hc; [|done].
  apply has_cull_true in Hc as (x & _ & Hx). unfold name_at in Hx.
  destruct (nw !! x) as [m|] eqn:Hm; [|done]. by destruct (Hno x m Hm).
Qed.

(** C7: in a ["Layer"] network with no node named ["Cull"], one pass
    duplicates at most one ["Shape"] node, whatever their number: the one met
    first is emitted as ["Cull"], and every other one finds the renamed node
    in the network and is emitted as a ["Shape"], so that at most one id is
    drawn beyond those of the table. *)
Theorem at_most_one_cull_insertion nw indent lid nxt g g' :
  lid < new_id g →
  (∀ x m, nodes nw !! x = Some m → name m ≠ "Cull") →
  update_layer set_order (Layer nw) indent lid nxt g = Ok g' →
  let nds := surviving set_order (nodes nw) in
  let new_ids := layer_new_ids set_order nw g in
  new_id g' ≤ new_id g + Z.of_nat (length nds) + 1 ∧
  (∀ s n, nodes nw !! s = Some n → name n = "Shape" →
     ∃ new e,
       new_ids !! s = Some new ∧ Dict.get new (new_nodes g') = Some e ∧
       (List.find (is_shape (nodes nw)) nds = Some s → name e = "Cull") ∧
       (List.find (is_shape (nodes nw)) nds ≠ Some s →
          name e = "Shape" ∧ implementation e = implementation n ∧
          manual_composition e = manual_composition n)) ∧
  (∀ s1 s2 n1 n2 new1 new2 e1 e2,
     nodes nw !! s1 = Some n1 → name n1 = "Shape" →
     nodes nw !! s2 = Some n2 → name n2 = "Shape" →
     new_ids !! s1 = Some new1 → new_ids !! s2 = Some new2 →
     Dict.get new1 (new_nodes g') = Some e1 → name e1 = "Cull" →
     Dict.get new2 (new_nodes g') = Some e2 → name e2 = "Cull" →
     s1 = s2).
Proof.
  intros Hlid Hno Hrun nds new_ids.
  destruct (update_layer_Layer set_order set_order_spec _ _ _ _ _ _ Hlid Hrun)
    as (o & on & fid & foi & flam & out & Ho & Hon & Hf & Hout & Hid & Hy & Hem & Hw & Hfr).
  fold nds new_ids in Hid, Hem.
  assert (Htgt : dup_target (nodes nw) nds nds = List.find (is_shape (nodes nw)) nds).
  { unfold dup_target. by rewrite no_cull_has_cull. }
  rewrite Htgt in Hid, Hem.
  assert (Hshape : ∀ s n, nodes nw !! s = Some n → name n = "Shape" →
     ∃ new e,
       new_ids !! s = Some new ∧ Dict.get new (new_nodes g') = Some e ∧
       (List.find (is_shape (nodes nw)) nds = Some s → name e = "Cull") ∧
       (List.find (is_shape (nodes nw)) nds ≠ Some s →
          name e = "Shape" ∧ implementation e = implementation n ∧
          manual_composition e = manual_composition n)).
  { intros s n Hn Hs.
    assert (Hx : s ∈ nds) by (apply elem_of_surviving; [done|]; exists n; by rewrite Hs).
    destruct (Hem s Hx) as (n' & ins & new & Hn' & Hins & Hnew & Hget).
    assert (n' = n) as -> by congruence.
    case_decide as Ht.
    - destruct Hget as [Hc Hd]. eexists new, _. do 2 (split; [done|]). split; done.
    - eexists new, _. do 2 (split; [done|]). split; [done|]. intros _.
      rewrite renumbered_not_transform by (by rewrite Hs). done. }
  split; [destruct (List.find (is_shape (nodes nw)) nds); lia|].
  split; [exact Hshape|].
  intros s1 s2 n1 n2 new1 new2 e1 e2 Hn1 Hs1 Hn2 Hs2 Hnew1 Hnew2 Hg1 Hc1 Hg2 Hc2.
  destruct (Hshape s1 n1 Hn1 Hs1) as (new1' & e1' & Hnew1' & Hg1' & _ & Hk1).
  destruct (Hshape s2 n2 Hn2 Hs2) as (new2' & e2' & Hnew2' & Hg2' & _ & Hk2).
  assert (new1' = new1) as -> by congruence. assert (e1' = e1) as -> by congruence.
  assert (new2' = new2) as -> by congruence. assert (e2' = e2) as -> by congruence.
  destruct (decide (List.find (is_shape (nodes nw)) nds = Some s1)) as [H1|H1];
    [|destruct (Hk1 H1) as [Hk _]; congruence].
  destruct (decide (List.find (is_shape (nodes nw)) nds = Some s2)) as [H2|H2];
    [|destruct (Hk2 H2) as [Hk _]; congruence].
  congruence.
Qed.

(** The keys of the mapping after a call on a ["Layer"]: those it had, the
    key of the wrapper, one per surviving node, and the key of the copy when a
    ["Shape"] was duplicated. *)
Lemma layer_keys nw indent lid nxt g g' :
  lid < new_id g →
  update_layer set_order (Layer nw) indent lid nxt g = Ok g' →
  let nds := surviving set_order (nodes nw) in
  let new_ids := layer_new_ids set_order nw g in
  ∀ k, k ∈ Dict.keys (new_nodes g') ↔
       k ∈ Dict.keys (new_nodes g) ∨ k = lid ∨
       (∃ x, x ∈ nds ∧ new_ids !! x = Some k) ∨
       (is_Some (dup_target (nodes nw) nds nds) ∧ k = new_id g + Z.of_nat (length nds)).
Proof.
  intros _ Hrun nds new_ids k.
  apply (update_layer_Layer_Ok set_order) in Hrun as (output & g2 & Hnet & _ & ->).
  pose proof (network_keys set_order set_order_spec _ _ _ _ _ _ Hnet k) as Hk.
  rewrite (layer_new_ids_ext set_order nw _ g) in Hk by done.
  cbn [next_y_position snd new_id new_nodes] in Hk.
  cbn [emit new_nodes]. rewrite keys_set, Hk. fold nds new_ids. tauto.
Qed.

(** C1, amended: in a ["Layer"] network with one node named ["Shape"] and
    none named ["Cull"], the flattener emits two nodes for the ["Shape"]
    node ([layer_keys]: one key more than one per node and the wrapper): the
    original, under its renumbered id, renamed to ["Cull"], with the copy as
    its single input, and the copy, under a fresh id, 8 to the left of it
    (not [shift_left + 8 + indent]).  With a ["Cull"] in the network, the
    ["Shape"] node keeps its name, its implementation and its other members,
    and its inputs are renumbered as those of every node. *)
Theorem shape_cull_insertion nw indent lid nxt g g' s n :
  lid < new_id g →
  update_layer set_order (Layer nw) indent lid nxt g = Ok g' →
  nodes nw !! s = Some n → name n = "Shape" →
  let nds := surviving set_order (nodes nw) in
  let new_ids := layer_new_ids set_order nw g in
  let y := y_position g in
  let c := new_id g + Z.of_nat (length nds) in
  ∃ o on ins new,
    outputs nw !! 0%nat = Some o ∧ nodes nw !! output_node_id o = Some on ∧
    map_result (rewrite_input new_ids) (inputs n) = Ok ins ∧
    new_ids !! s = Some new ∧
    ((∀ x m, nodes nw !! x = Some m → name m ≠ "Cull") →
     (∀ x m, nodes nw !! x = Some m → name m = "Shape" → x = s) →
     ∃ cull copy,
       new ≠ c ∧
       Dict.get new (new_nodes g') = Some cull ∧
       Dict.get c (new_nodes g') = Some copy ∧
       cull = {| name := "Cull"; inputs := [Node c 0 false];
                 manual_composition := Footprint; has_primary_output := true;
                 implementation := CullNode;
                 position := (pos_x n - (pos_x on + indent), y);
                 skip_deduplication := skip_deduplication n;
                 world_state_hash := world_state_hash n; path := path n |} ∧
       copy = {| name := "Shape"; inputs := ins;
                 manual_composition := manual_composition n;
                 has_primary_output := has_primary_output n;
                 implementation := implementation n;
                 position := (pos_x n - (pos_x on + 8 + indent), y);
                 skip_deduplication := skip_deduplication n;
                 world_state_hash := world_state_hash n; path := path n |} ∧
       pos_x cull - pos_x copy = 8 ∧
       (∀ k, k ∈ Dict.keys (new_nodes g') ↔
             k ∈ Dict.keys (new_nodes g) ∨ k = lid ∨
             (∃ x, x ∈ nds ∧ new_ids !! x = Some k) ∨ k = c)) ∧
    ((∃ x m, nodes nw !! x = Some m ∧ name m = "Cull") →
     Dict.get new (new_nodes g')
       = Some {| name := "Shape"; inputs := ins;
                 manual_composition := manual_composition n;
                 has_primary_output := has_primary_output n;
                 implementation := implementation n;
                 position := (pos_x n - (pos_x on + indent), y);
                 skip_deduplication := skip_deduplication n;
                 world_state_hash := world_state_hash n; path := path n |} ∧
     (∀ k, k ∈ Dict.keys (new_nodes g') ↔
           k ∈ Dict.keys (new_nodes g) ∨ k = lid ∨
           (∃ x, x ∈ nds ∧ new_ids !! x = Some k))).
Proof.
  intros Hlid Hrun Hn Hs nds new_ids y c.
  pose proof (layer_keys _ _ _ _ _ _ Hlid Hrun) as Hkeys. fold nds new_ids c in Hkeys.
  destruct (update_layer_Layer set_order set_order_spec _ _ _ _ _ _ Hlid Hrun)
    as (o & on & fid & foi & flam & out & Ho & Hon & Hf & Hout & Hid & Hy & Hem & Hw & Hfr).
  fold nds new_ids y c in Hid, Hem.
  assert (Hx : s ∈ nds) by (apply elem_of_surviving; [done|]; exists n; by rewrite Hs).
  destruct (Hem s Hx) as (n' & ins & new & Hn' & Hins & Hnew & Hget).
  assert (n' = n) as -> by congruence.
  rewrite renumbered_not_transform in Hget by (by rewrite Hs).
  exists o, on, ins, new. do 4 (split; [done|]). split.
  - intros Hno Huniq.
    assert (Ht : dup_target (nodes nw) nds nds = Some s).
    { apply dup_target_unique; [by apply no_cull_has_cull|done| |].
      - unfold name_at. by rewrite Hn.
      - intros z _ Hz. unfold name_at in Hz.
        destruct (nodes nw !! z) as [m|] eqn:Hm; [|done]. eauto. }
    rewrite decide_True in Hget by done. destruct Hget as [Hc Hd].
    assert (Hne : new ≠ c).
    { apply layer_new_ids_range in Hnew as [_ Hr]; [|done]. unfold c, nds. lia. }
    eexists _, _. split; [exact Hne|]. split; [exact Hc|]. split; [exact Hd|].
    split; [node_fields; try done; f_equal; unfold pos_x; cbn; lia|].
    split; [node_fields; try done|].
    split; [rewrite pos_x_cull_node, pos_x_shape_copy; lia|].
    intros k. rewrite Hkeys, Ht. split.
    + intros [?|[?|[?|[_ ?]]]]; auto.
    + intros [?|[?|[?|?]]]; eauto 6.
  - intros (x & m & Hm & Hmc).
    assert (Ht : dup_target (nodes nw) nds nds = None).
    { unfold dup_target.
      replace (has_cull (nodes nw) nds) with true; [done|].
      symmetry. apply has_cull_true. exists x. split.
      - apply elem_of_surviving; [done|]. exists m. by rewrite Hmc.
      - unfold name_at. by rewrite Hm. }
    rewrite decide_False in Hget by congruence.
    split; [rewrite Hget; f_equal; node_fields; try done|].
    intros k. rewrite Hkeys, Ht. split.
    + intros [?|[?|[?|[[? ?] _]]]]; auto. done.
    + intros [?|[?|?]]; auto.
Qed.

End Spec.
End LayerSpec.

(** ** The traversal of the tree *)
Module TreeFacts.
Import Upgrade DictFacts ResultFacts GeneratorFacts NodeFacts LoopFacts LayerFacts.

(** Induction on the legacy tree, with the hypothesis on every layer of a
    folder. *)
Lemma data_tree_ind (P : data → Prop) :
  (∀ layers, Forall P layers → P (Folder layers)) →
  (∀ network, P (Layer network)) →
  ∀ d, P d.
Proof.
  intros HF HL. fix IH 1. intros [layers|network].
  - apply HF. induction layers as [|x r IHr]; constructor; [apply IH|exact IHr].
  - apply HL.
Qed.

Section Tree.
Variable set_order : list Z → list Z.
Hypothesis set_order_spec : ∀ l, NoDup (set_order l) ∧ ∀ x, x ∈ set_order l ↔ x ∈ l.

(** A call on a ["Folder"]: the reservation, the calls on the layers, the
    assertion, the wrapper. *)
Lemma update_layer_Folder_Ok layers indent lid nxt g g' :
  update_layer set_order (Folder layers) indent lid nxt g = Ok g' →
  let ids := seqZ (new_id g) (Z.of_nat (length layers)) in
  ∃ g2 out,
    for_enumerate_reversed (child_call set_order ids indent) layers
      {| new_id := new_id g + Z.of_nat (length layers) + 1;
         y_position := y_position g + 3; new_nodes := new_nodes g |} = Ok g2 ∧
    ids !! 0%nat = Some out ∧
    assert_output (Some out) g2 = Ok () ∧
    g' = emit lid (layer_node indent (y_position g) (Some out) nxt) g2.
Proof.
  intros Hrun ids. cbn [update_layer] in Hrun. unfold next_y_position at 1 in Hrun.
  rewrite reserve_layer_ids_spec in Hrun. cbn [new_id y_position new_nodes] in Hrun.
  fold ids in Hrun.
  apply bind_Ok in Hrun as ([output g2] & Hbody & Hrun).
  apply bind_Ok in Hrun as ([] & Hassert & [= <-]).
  apply bind_Ok in Hbody as (g3 & Hloop & Hbody).
  apply bind_Ok in Hbody as (out & Hout%list_index_Ok & [= <- <-]).
  exists g3, out. split; [|done].
  rewrite <- Hloop. apply for_enumerate_reversed_ext. intros i x t.
  unfold child_call. case_bool_decide as Hi; [done|].
  by rewrite (lookup_ge_None_2 ids (i + 1)) by lia.
Qed.

Lemma child_call_Ok ids indent index layer s t :
  child_call set_order ids indent index layer s = Ok t →
  ∃ id, ids !! index = Some id ∧
        update_layer set_order layer (indent + 5) id (ids !! (index + 1)%nat) s = Ok t.
Proof.
  unfold child_call. intros (id & Hid%list_index_Ok & H)%bind_Ok. eauto.
Qed.

(** The counters only grow, and a call adds no key but its own and ids
    drawn during the call. *)
Lemma update_layer_keys d : ∀ indent lid nxt g g',
  update_layer set_order d indent lid nxt g = Ok g' →
  new_id g ≤ new_id g' ∧ y_position g < y_position g' ∧
  ∀ k, k ∈ Dict.keys (new_nodes g') →
       k ∈ Dict.keys (new_nodes g) ∨ k = lid ∨ new_id g ≤ k < new_id g'.
Proof.
  induction d as [layers IH|nw] using data_tree_ind; intros indent lid nxt g g' Hrun.
  - apply update_layer_Folder_Ok in Hrun as (g2 & out & Hloop & Hout & _ & ->).
    set (N := Z.of_nat (length layers)) in *.
    cbn [emit new_id y_position new_nodes].
    apply (for_enumerate_reversed_inv _
             (λ _ s, new_id g + N + 1 ≤ new_id s ∧ y_position g + 3 ≤ y_position s ∧
                     ∀ k, k ∈ Dict.keys (new_nodes s) →
                          k ∈ Dict.keys (new_nodes g) ∨ new_id g ≤ k < new_id s))
      in Hloop.
    + destruct Hloop as (Hid & Hy & Hk). split; [lia|]. split; [lia|].
      intros k [->|Hin]%keys_set; [auto|].
      destruct (Hk k Hin); [auto|]. right; right. done.
    + cbn. split; [lia|]. split; [lia|]. auto.
    + intros x r t t' Hx Hr (Hid & Hy & Hk) (id & Hlid & Hcall)%child_call_Ok.
      rewrite Forall_forall in IH.
      destruct (IH x Hx _ _ _ _ _ Hcall) as (Hid' & Hy' & Hk').
      apply lookup_seqZ in Hlid as [-> Hlt].
      split; [lia|]. split; [lia|].
      intros k Hin. destruct (Hk' k Hin) as [Hold|[->|Hnew]].
      * destruct (Hk k Hold); [auto|]. right. lia.
      * right. lia.
      * right. lia.
  - apply update_layer_Layer_Ok in Hrun as (output & g2 & Hnet & _ & ->).
    apply (update_network_spec set_order set_order_spec) in Hnet
      as (o & on & fid & foi & flam & out & _ & _ & _ & _ & _ & Hid & Hy & _ & Hfr).
    cbn [next_y_position snd new_id y_position new_nodes emit] in *.
    assert (new_id g ≤ new_id g2).
    { destruct (dup_target _ _ _); lia. }
    split; [done|]. split; [lia|].
    intros k [->|Hin]%keys_set; [auto|].
    destruct (decide (new_id g ≤ k < new_id g2)) as [?|Hout]; [auto|].
    left. apply get_Some_keys. rewrite <- (Hfr k Hout). by apply get_Some_keys.
Qed.

(** A call keeps the keys it finds and adds its own. *)
Lemma update_layer_keys_mono d : ∀ indent lid nxt g g',
  update_layer set_order d indent lid nxt g = Ok g' →
  lid ∈ Dict.keys (new_nodes g') ∧
  ∀ k, k ∈ Dict.keys (new_nodes g) → k ∈ Dict.keys (new_nodes g').
Proof.
  induction d as [layers IH|nw] using data_tree_ind; intros indent lid nxt g g' Hrun.
  - apply update_layer_Folder_Ok in Hrun as (g2 & out & Hloop & Hout & _ & ->).
    cbn [emit new_nodes]. split; [apply keys_set; by left|].
    intros k Hk. apply keys_set. right.
    apply (for_enumerate_reversed_inv _
             (λ _ s, k ∈ Dict.keys (new_nodes s))) in Hloop; [done|done|].
    intros x r t t' Hx _ Ht (id & _ & Hcall)%child_call_Ok.
    rewrite Forall_forall in IH. by apply (IH x Hx _ _ _ _ _ Hcall).
  - apply update_layer_Layer_Ok in Hrun as (output & g2 & Hnet & _ & ->).
    cbn [emit new_nodes]. split; [apply keys_set; by left|].
    intros k Hk. apply keys_set. right.
    apply (network_keys set_order set_order_spec _ _ _ _ _ _ Hnet). by left.
Qed.

Lemma update_node_Raise indent y sl new_ids nds old st e :
  update_node indent y sl new_ids nds old st = Raise e → e = KeyError.
Proof.
  destruct st as [nw g]. unfold update_node, map_index. intros H.
  destruct (nw !! old) as [n|]; [|by injection H]. cbn in H.
  apply bind_Raise in H as [H|(ins & _ & H)].
  - clear -H. induction (inputs n) as [|i r IH] in e, H |- *; [done|].
    simpl in H. apply bind_Raise in H as [H|(i' & _ & H)].
    + destruct i as [old' oi lam| |]; [|done..]. unfold rewrite_input, map_index in H.
      destruct (new_ids !! old'); [done|]. by injection H.
    + apply bind_Raise in H as [H|(r' & _ & H)]; [eauto|done].
  - destruct (String.eqb _ "Shape"); [destruct (negb _)|];
      cbn in H; (destruct (new_ids !! old); [done|by injection H]).
Qed.

(** The assertion of a call never fails. *)
Lemma update_layer_no_assertion_error d : ∀ indent lid nxt g,
  update_layer set_order d indent lid nxt g ≠ Raise AssertionError.
Proof.
  induction d as [layers IH|nw] using data_tree_ind; intros indent lid nxt g Hrun.
  - cbn [update_layer] in Hrun. unfold next_y_position at 1 in Hrun.
    rewrite reserve_layer_ids_spec in Hrun. cbn [new_id y_position new_nodes] in Hrun.
    set (ids := seqZ (new_id g) (Z.of_nat (length layers))) in *.
    apply bind_Raise in Hrun as [Hbody|([output g2] & Hbody & Hrun)].
    + apply bind_Raise in Hbody as [Hloop|(g3 & _ & Hout)].
      * refine (for_enumerate_reversed_Raise _ (λ e, e ≠ AssertionError)
                  _ _ _ _ Hloop eq_refl).
        intros i x t e' Hx Hcall ->. rewrite Forall_forall in IH.
        apply bind_Raise in Hcall as [Hidx|(id & _ & Hcall)].
        -- unfold list_index in Hidx. by destruct (ids !! i).
        -- by apply (IH x Hx) in Hcall.
      * unfold list_index in Hout. by destruct (ids !! 0%nat).
    + apply bind_Ok in Hbody as (g3 & Hloop & Hbody).
      apply bind_Ok in Hbody as (out & Hout%list_index_Ok & [= <- <-]).
      apply bind_Raise in Hrun as [Hassert|([] & _ & ?)]; [|done].
      unfold assert_output in Hassert.
      destruct (Dict.mem out (new_nodes g3)) eqn:Hmem; [done|].
      assert (Hin : out ∈ Dict.keys (new_nodes g3)); [|by apply mem_keys in Hin; congruence].
      assert (Hlen : (0 < length layers)%nat).
      { apply lookup_lt_Some in Hout. unfold ids in Hout.
        rewrite length_seqZ in Hout. lia. }
      apply (for_enumerate_reversed_inv _
               (λ i s, (0 < i)%nat → out ∈ Dict.keys (new_nodes s))) in Hloop;
        [done|lia| |done].
      intros x r t t' Hx _ Ht Hcall _.
      assert (child_call set_order ids indent (length r) x t = Ok t') as Hcc.
      { rewrite <- Hcall. unfold child_call. case_bool_decide; [done|].
        by rewrite (lookup_ge_None_2 ids (length r + 1)) by lia. }
      apply child_call_Ok in Hcc as (id & Hid & Hcc).
      apply update_layer_keys_mono in Hcc as [Hlid Hmono].
      destruct r as [|? ?]; [|apply Hmono, Ht; simpl; lia].
      simpl in Hid. by assert (id = out) as -> by congruence.
  - cbn [update_layer] in Hrun. unfold next_y_position at 1 in Hrun.
    apply bind_Raise in Hrun as [Hnet|([output g2] & Hnet & Hrun)].
    + unfold update_network in Hnet.
      destruct (zip_new_id _ _) as [pairs g1].
      repeat match type of Hnet with
      | _ ≫= _ = Raise _ => apply bind_Raise in Hnet as [Hnet|(? & _ & Hnet)]
      end.
      * unfold list_index in Hnet. by destruct (_ !! _).
      * unfold map_index in Hnet. by destruct (_ !! _).
      * unfold list_index in Hnet. by destruct (_ !! _).
      * match type of Hnet with match ?i with _ => _ end = _ => destruct i end;
          [|done..]. unfold map_index in Hnet. by destruct (_ !! _).
      * refine (for_each_Raise _ (λ e, e ≠ AssertionError) _ _ _ _ Hnet eq_refl).
        intros y t e' _ Hturn ->. by apply update_node_Raise in Hturn.
      * by destruct x3.
    + apply bind_Raise in Hrun as [Hassert|([] & _ & ?)]; [|done].
      pose proof (network_keys set_order set_order_spec _ _ _ _ _ _ Hnet) as Hk.
      apply (update_network_spec set_order set_order_spec) in Hnet
        as (o & on & fid & foi & flam & out & _ & _ & _ & Hout & -> & _).
      unfold assert_output in Hassert.
      destruct (Dict.mem out (new_nodes g2)) eqn:Hmem; [done|].
      assert (Hin : out ∈ Dict.keys (new_nodes g2)); [|by apply mem_keys in Hin; congruence].
      apply Hk. right; left. exists fid. split; [|done].
      by apply (layer_new_ids_range set_order set_order_spec) in Hout as [? _].
Qed.

Lemma node_refs_inputs n m : inputs n = inputs m → node_refs n = node_refs m.
Proof. unfold node_refs. by intros ->. Qed.

Lemma inputs_renumbered ins n : inputs (renumbered ins n) = ins.
Proof.
  unfold renumbered, fix_transform.
  by destruct (String.eqb (name (set_inputs ins n)) "Transform").
Qed.

Lemma rewrite_input_refs new_ids l ins id :
  map_result (rewrite_input new_ids) l = Ok ins →
  id ∈ flat_map (λ i, match i with Node id _ _ => [id] | _ => [] end) ins →
  ∃ old, new_ids !! old = Some id.
Proof.
  revert ins. induction l as [|i r IH]; intros ins Hmap Hid.
  - injection Hmap as <-. by apply elem_of_nil in Hid.
  - simpl in Hmap. apply bind_Ok in Hmap as (i' & Hi & Hmap).
    apply bind_Ok in Hmap as (r' & Hr & [= <-]).
    simpl in Hid. apply elem_of_app in Hid as [Hid|Hid]; [|eauto].
    destruct i as [old oi lam| |]; simpl in Hi.
    + apply bind_Ok in Hi as (new & Hnew%map_index_Ok & [= <-]).
      apply list_elem_of_singleton in Hid as ->. eauto.
    + injection Hi as <-. by apply elem_of_nil in Hid.
    + injection Hi as <-. by apply elem_of_nil in Hid.
Qed.

Lemma node_refs_layer_node indent y output nxt id :
  id ∈ node_refs (layer_node indent y output nxt) → output = Some id ∨ nxt = Some id.
Proof.
  unfold node_refs. cbn [inputs layer_node flat_map]. unfold node_to_input.
  intros H. rewrite !elem_of_app in H.
  destruct H as [H|[H|[H|[H|[H|[H|[H|[H|H]]]]]]]]; try by apply elem_of_nil in H.
  - destruct output as [o|]; [|by apply elem_of_nil in H].
    destruct (Z.eqb o 0); [by apply elem_of_nil in H|].
    apply list_elem_of_singleton in H as ->. by left.
  - destruct nxt as [o|]; [|by apply elem_of_nil in H].
    destruct (Z.eqb o 0); [by apply elem_of_nil in H|].
    apply list_elem_of_singleton in H as ->. by right.
Qed.

(** The node found under a key that the branch wrote. *)
Lemma update_network_emitted nw indent y g output g2 k e :
  update_network set_order nw indent y g = Ok (output, g2) →
  new_id g ≤ k < new_id g2 →
  Dict.get k (new_nodes g2) = Some e →
  ∃ x n ins on,
    nodes nw !! x = Some n ∧
    map_result (rewrite_input (layer_new_ids set_order nw g)) (inputs n) = Ok ins ∧
    let c := new_id g + Z.of_nat (length (surviving set_order (nodes nw))) in
    (e = place indent y (pos_x on) (renumbered ins n) ∨
     (e = cull_node indent y (pos_x on) c (renumbered ins n) ∧
      is_Some (Dict.get c (new_nodes g2))) ∨
     e = shape_copy indent y (pos_x on) (renumbered ins n)).
Proof.
  intros Hnet Hk Hget.
  apply (update_network_spec set_order set_order_spec) in Hnet
    as (o & on & fid & foi & flam & out & _ & _ & _ & _ & _ & Hid & Hy & Hem & Hfr).
  set (nds := surviving set_order (nodes nw)) in *.
  set (c := new_id g + Z.of_nat (length nds)) in *.
  destruct (decide (k < c)) as [Hlt|Hge].
  - destruct (layer_new_ids_onto set_order set_order_spec nw g k)
      as (x & Hx & Hv); [fold nds c; lia|].
    destruct (Hem x Hx) as (n & ins & new & Hn & Hins & Hnew & Hg).
    assert (new = k) as -> by congruence.
    exists x, n, ins, on. do 2 (split; [done|]).
    case_decide.
    + destruct Hg as [Hg1 Hg2]. right; left. split; [congruence|eauto].
    + left. congruence.
  - destruct (dup_target (nodes nw) nds nds) as [x|] eqn:Ht; [|lia].
    assert (k = c) as -> by lia.
    pose proof Ht as (_ & Hx & _)%dup_target_Some.
    destruct (Hem x Hx) as (n & ins & new & Hn & Hins & Hnew & Hg).
    rewrite decide_True in Hg by done. destruct Hg as [Hg1 Hg2].
    exists x, n, ins, on. do 2 (split; [done|]). right; right. congruence.
Qed.

Lemma update_network_closed nw indent y g output g2 P :
  update_network set_order nw indent y g = Ok (output, g2) →
  closed_modulo P (new_nodes g) → closed_modulo P (new_nodes g2).
Proof.
  intros Hnet Hclosed k e id Hget Hid.
  pose proof (network_keys set_order set_order_spec _ _ _ _ _ _ Hnet) as Hkeys.
  destruct (decide (new_id g ≤ k < new_id g2)) as [Hin|Hout].
  - destruct (update_network_emitted _ _ _ _ _ _ _ _ Hnet Hin Hget)
      as (x & n & ins & on & Hn & Hins & [->|[[-> Hc]| ->]]).
    + left. rewrite (node_refs_inputs _ (renumbered ins n)) in Hid by done.
      unfold node_refs in Hid. rewrite inputs_renumbered in Hid.
      destruct (rewrite_input_refs _ _ _ _ Hins Hid) as (old & Hold).
      apply Hkeys. right; left. exists old. split; [|done].
      by apply (layer_new_ids_range set_order set_order_spec) in Hold as [? _].
    + left. apply list_elem_of_singleton in Hid as ->. by apply get_Some_keys.
    + left. rewrite (node_refs_inputs _ (renumbered ins n)) in Hid by done.
      unfold node_refs in Hid. rewrite inputs_renumbered in Hid.
      destruct (rewrite_input_refs _ _ _ _ Hins Hid) as (old & Hold).
      apply Hkeys. right; left. exists old. split; [|done].
      by apply (layer_new_ids_range set_order set_order_spec) in Hold as [? _].
  - apply (update_network_spec set_order set_order_spec) in Hnet
      as (_ & _ & _ & _ & _ & _ & _ & _ & _ & _ & _ & _ & _ & _ & Hfr).
    rewrite (Hfr k Hout) in Hget.
    destruct (Hclosed k e id Hget Hid) as [?|?]; [left|by right].
    apply Hkeys. by left.
Qed.

(** A call leaves no reference dangling but the one to the layer below. *)
Lemma update_layer_closed d : ∀ indent lid nxt g g' (P : Z → Prop),
  update_layer set_order d indent lid nxt g = Ok g' →
  closed_modulo P (new_nodes g) →
  closed_modulo (λ k, P k ∨ nxt = Some k) (new_nodes g').
Proof.
  induction d as [layers IH|nw] using data_tree_ind;
    intros indent lid nxt g g' P Hrun Hclosed.
  - apply update_layer_Folder_Ok in Hrun as (g2 & out & Hloop & Hout & Hassert & ->).
    set (ids := seqZ (new_id g) (Z.of_nat (length layers))) in *.
    assert (Hg2 : closed_modulo P (new_nodes g2)).
    { apply (for_enumerate_reversed_inv _
               (λ i s, closed_modulo (λ k, P k ∨ ids !! i = Some k) (new_nodes s)))
        in Hloop.
      - intros k n id Hget Hid. destruct (Hloop k n id Hget Hid) as [?|[?|Hn]]; auto.
        rewrite lookup_ge_None_2 in Hn; [done|].
        unfold ids. rewrite length_seqZ. lia.
      - intros k n id Hget Hid. destruct (Hclosed k n id Hget Hid); auto.
      - intros x r t t' Hx _ Ht (id & Hlid & Hcall)%child_call_Ok.
        rewrite Forall_forall in IH.
        pose proof (IH x Hx _ _ _ _ _ _ Hcall Ht) as Ht'.
        apply update_layer_keys_mono in Hcall as [Hin _].
        intros k n rid Hget Hrid.
        destruct (Ht' k n rid Hget Hrid) as [?|[[?|Hi]|Hi]]; auto.
        + left. by assert (rid = id) as -> by congruence.
        + right; right. by replace (S (length r)) with (length r + 1)%nat by lia. }
    cbn [emit new_nodes]. intros k n id Hget Hid.
    rewrite keys_set. rewrite get_set in Hget. case_decide as Hk.
    + injection Hget as <-. apply node_refs_layer_node in Hid as [[= <-]|Hn]; [|auto].
      left; right. unfold assert_output in Hassert.
      destruct (Dict.mem out (new_nodes g2)) eqn:Hmem; [|done].
      by apply mem_keys.
    + destruct (Hg2 k n id Hget Hid); auto.
  - apply update_layer_Layer_Ok in Hrun as (output & g2 & Hnet & Hassert & ->).
    pose proof (update_network_closed _ _ _ _ _ _ P Hnet Hclosed) as Hg2.
    cbn [emit new_nodes]. intros k n id Hget Hid.
    rewrite keys_set. rewrite get_set in Hget. case_decide as Hk.
    + injection Hget as <-. apply node_refs_layer_node in Hid as [->|Hn]; [|auto].
      left; right. unfold assert_output in Hassert.
      destruct (Dict.mem id (new_nodes g2)) eqn:Hmem; [|done].
      by apply mem_keys.
    + destruct (Hg2 k n id Hget Hid); auto.
Qed.

Lemma no_node_named_Folder nm layers :
  no_node_named nm (Folder layers) ↔ Forall (no_node_named nm) layers.
Proof.
  cbn [no_node_named]. induction layers as [|x r IH].
  - split; [constructor|done].
  - rewrite Forall_cons, <- IH. done.
Qed.

(** The nodes named ["Layer"] that a call adds are its wrappers: each gets
    a vertical position of its own, drawn during the call. *)
Lemma update_layer_layer_ys d : ∀ indent lid nxt g g',
  no_node_named "Layer" d →
  update_layer set_order d indent lid nxt g = Ok g' →
  layer_ys_below g → layer_ys_distinct (new_nodes g) →
  layer_ys_below g' ∧ layer_ys_distinct (new_nodes g') ∧
  ∀ k n, Dict.get k (new_nodes g') = Some n → name n = "Layer" →
         Dict.get k (new_nodes g) = Some n ∨ y_position g ≤ pos_y n.
Proof.
  induction d as [layers IH|nw] using data_tree_ind;
    intros indent lid nxt g g' Hnames Hrun Hbelow Hdistinct.
  - apply update_layer_Folder_Ok in Hrun as (g2 & out & Hloop & Hout & _ & ->).
    set (ids := seqZ (new_id g) (Z.of_nat (length layers))) in *.
    apply no_node_named_Folder in Hnames.
    apply (for_enumerate_reversed_inv _
             (λ _ s, layer_ys_below s ∧ layer_ys_distinct (new_nodes s) ∧
                     y_position g + 3 ≤ y_position s ∧
                     ∀ k n, Dict.get k (new_nodes s) = Some n → name n = "Layer" →
                            Dict.get k (new_nodes g) = Some n ∨
                            y_position g + 3 ≤ pos_y n))
      in Hloop.
    + destruct Hloop as (Hb2 & Hd2 & Hy2 & Hc2).
      assert (Hother : ∀ k n, Dict.get k (new_nodes g2) = Some n → name n = "Layer" →
                pos_y n ≠ y_position g).
      { intros k n Hget Hn. destruct (Hc2 k n Hget Hn) as [Hold|?]; [|lia].
        specialize (Hbelow k n Hold Hn). lia. }
      unfold layer_ys_below, layer_ys_distinct.
      cbn [emit new_nodes y_position]. split; [|split].
      * intros k n. rewrite get_set. case_decide.
        -- intros [= <-] _. cbn. lia.
        -- apply Hb2.
      * intros k1 k2 n1 n2 Hne. rewrite !get_set.
        repeat case_decide; subst; try done.
        -- intros [= <-] Hg2 _ Hn2. cbn. intros Heq. by apply (Hother k2 n2).
        -- intros Hg1 [= <-] Hn1 _. cbn. by apply (Hother k1 n1).
        -- by apply Hd2.
      * intros k n. rewrite get_set. case_decide.
        -- intros [= <-] _. right. cbn. lia.
        -- intros Hget Hn. destruct (Hc2 k n Hget Hn); [auto|right; lia].
    + cbn. split; [|split; [done|split; [lia|auto]]].
      intros k n Hget Hn. cbn. specialize (Hbelow k n Hget Hn). lia.
    + intros x r t t' Hx _ (Hbt & Hdt & Hyt & Hct) (id & Hlid & Hcall)%child_call_Ok.
      rewrite Forall_forall in IH, Hnames.
      destruct (IH x Hx _ _ _ _ _ (Hnames x Hx) Hcall Hbt Hdt) as (Hb' & Hd' & Hc').
      apply update_layer_keys in Hcall as (_ & Hy' & _).
      split; [done|]. split; [done|]. split; [lia|].
      intros k n Hget Hn. destruct (Hc' k n Hget Hn) as [Hold|?]; [auto|right; lia].
  - apply update_layer_Layer_Ok in Hrun as (output & g2 & Hnet & _ & ->).
    assert (Hold : ∀ k n, Dict.get k (new_nodes g2) = Some n → name n = "Layer" →
              Dict.get k (new_nodes g) = Some n).
    { intros k n Hget Hn.
      destruct (decide (new_id g ≤ k < new_id g2)) as [Hin|Hout].
      - exfalso.
        destruct (update_network_emitted _ _ _ _ _ _ _ _ Hnet Hin Hget)
          as (x & n0 & ins & on & Hn0 & _ & [->|[[-> _]| ->]]).
        + apply (Hnames x n0 Hn0). by rewrite <- Hn, name_place, name_renumbered.
        + done.
        + apply (Hnames x n0 Hn0). rewrite <- Hn.
          change (name (shape_copy indent (y_position g) (pos_x on) (renumbered ins n0)))
            with (name (renumbered ins n0)).
          by rewrite name_renumbered.
      - apply (update_network_spec set_order set_order_spec) in Hnet
          as (_ & _ & _ & _ & _ & _ & _ & _ & _ & _ & _ & _ & _ & _ & Hfr).
        rewrite (Hfr k Hout) in Hget. exact Hget. }
    apply (update_network_spec set_order set_order_spec) in Hnet
      as (_ & _ & _ & _ & _ & out & _ & _ & _ & _ & -> & _ & Hy & _).
    cbn [next_y_position snd y_position] in Hy.
    unfold layer_ys_below, layer_ys_distinct.
    cbn [emit new_nodes y_position]. rewrite Hy. split; [|split].
    + intros k n. rewrite get_set. case_decide.
      * intros [= <-] _. cbn. lia.
      * intros Hget Hn. specialize (Hbelow k n (Hold k n Hget Hn) Hn). lia.
    + intros k1 k2 n1 n2 Hne. rewrite !get_set.
      repeat case_decide; subst; try done.
      * intros [= <-] Hg2 _ Hn2. cbn.
        specialize (Hbelow k2 n2 (Hold k2 n2 Hg2 Hn2) Hn2). lia.
      * intros Hg1 [= <-] Hn1 _. cbn.
        specialize (Hbelow k1 n1 (Hold k1 n1 Hg1 Hn1) Hn1). lia.
      * intros Hg1 Hg2 Hn1 Hn2.
        by apply (Hdistinct k1 k2 n1 n2 Hne (Hold _ _ Hg1 Hn1) (Hold _ _ Hg2 Hn2)).
    + intros k n. rewrite get_set. case_decide.
      * intros [= <-] _. right. cbn. lia.
      * intros Hget Hn. left. by apply Hold.
Qed.

End Tree.
End TreeFacts.

(** * The properties of the specification: the traversal and the document *)
Module TreeSpec.
Import Upgrade DictFacts ResultFacts GeneratorFacts NodeFacts LoopFacts LayerFacts.
Import TreeFacts.

Section Spec.
Variable set_order : list Z → list Z.

Lemma migrate_Ok root_data g0 doc g' :
  migrate set_order root_data g0 = Ok (doc, g') →
  ∃ g2,
    update_layer set_order root_data 0 42 None
      {| new_id := 43; y_position := 7; new_nodes := [] |} = Ok g2 ∧
    g' = emit 0 root_output_node g2 ∧
    doc = assemble (new_nodes g').
Proof.
  unfold migrate. cbn [next_new_id new_id y_position new_nodes gen_id gen_y].
  intros (g2 & Hrun & [= <- <-])%bind_Ok. by exists g2.
Qed.

(** C2: the reservation of a ["Folder"] with [N] layers keeps [N] ids, the
    next [N] values of the generator in order, all distinct, and leaves the
    generator [N + 1] values further, not [N]: the id that [map] draws when it
    finds the layers exhausted is lost ([zip_new_id_spec] is the sibling that
    draws one id per key).  The call then visits the layers in reverse
    declared order, the [k]-th visit with the [k]-th reserved id as
    [layer_node_id] and the [k + 1]-th as [next_id], which is [None] at the
    last visit, and the output of the folder is the first reserved id; on a
    folder without layers that lookup raises. *)
Theorem folder_reservation_draws_one_more (layers : list data) (indent lid : Z)
    (nxt : option Z) (g : globals) :
  let N := length layers in
  let ids := seqZ (new_id g) (Z.of_nat N) in
  let reserved :=
    {| new_id := new_id g + Z.of_nat N + 1;
       y_position := y_position g + 3; new_nodes := new_nodes g |} in
  (reserve_layer_ids layers g).1 = ids ∧
  new_id (reserve_layer_ids layers g).2 = new_id g + Z.of_nat N + 1 ∧
  length ids = N ∧ NoDup ids ∧
  (∀ k, (k < N)%nat → ids !! k = Some (new_id g + Z.of_nat k)) ∧
  ids !! N = None ∧
  update_layer set_order (Folder layers) indent lid nxt g
  = (g2 ← for_each (λ ix, child_call set_order ids indent ix.1 ix.2)
             (zip (seq 0 N) (reverse layers)) reserved;
     out ← list_index ids 0;
     _ ← assert_output (Some out) g2;
     Ok (emit lid (layer_node indent (y_position g) (Some out) nxt) g2)).
Proof.
  intros N ids reserved. rewrite reserve_layer_ids_spec. cbn [fst snd new_id].
  split; [done|]. split; [done|].
  split; [unfold ids; rewrite length_seqZ; lia|].
  split; [apply NoDup_seqZ|].
  split; [intros k Hk; apply lookup_seqZ; lia|].
  split; [apply lookup_seqZ_ge; lia|].
  cbn [update_layer]. unfold next_y_position at 1.
  rewrite reserve_layer_ids_spec. cbn [new_id y_position new_nodes].
  fold N ids reserved.
  rewrite (for_enumerate_reversed_ext _ (child_call set_order ids indent)).
  - rewrite for_enumerate_reversed_spec. fold N.
    destruct (for_each _ _ reserved) as [g2|e]; [|done]. cbn [mbind result_bind].
    by destruct (list_index ids 0).
  - intros i x t. unfold child_call. case_bool_decide as Hi; [done|].
    by rewrite (lookup_ge_None_2 ids (i + 1)) by lia.
Qed.

(** C6: a run reads nothing of the state that an earlier run left: the
    document it writes is the same from every state, and the two runs of one
    process on the same input write the same document. *)
Theorem migrate_is_independent_of_earlier_runs (root_data : data) (g0 g1 : globals) :
  migrate set_order root_data g0 = migrate set_order root_data g1 ∧
  main set_order root_data root_data g0
  = match migrate set_order root_data g0 with
    | Ok (doc, g) => Ok (doc, doc, g)
    | Raise e => Raise e
    end.
Proof.
  split; [done|]. unfold main.
  destruct (migrate set_order root_data g0) as [[doc g]|e] eqn:Hrun; [|done].
  cbn [mbind result_bind].
  change (migrate set_order root_data g) with (migrate set_order root_data g0).
  by rewrite Hrun.
Qed.

Hypothesis set_order_spec : ∀ l, NoDup (set_order l) ∧ ∀ x, x ∈ set_order l ↔ x ∈ l.

Lemma elem_of_node_refs n id oi lam : Node id oi lam ∈ inputs n → id ∈ node_refs n.
Proof.
  intros H. unfold node_refs. apply list_elem_of_In, in_flat_map.
  exists (Node id oi lam). split; [by apply list_elem_of_In|]. by left.
Qed.

(** C4: when the migration completes, every id that an input of an emitted
    node refers to is a key of the emitted mapping; and no call of the
    traversal fails its assertion: the output it computed is [None] or a key
    of the mapping by then. *)
Theorem no_dangling_references root_data g0 doc g' :
  migrate set_order root_data g0 = Ok (doc, g') →
  (∀ k n id oi lam,
     Dict.get k (network_nodes (network_of doc)) = Some n →
     Node id oi lam ∈ inputs n →
     id ∈ Dict.keys (network_nodes (network_of doc))) ∧
  (∀ d indent lid nxt g,
     update_layer set_order d indent lid nxt g ≠ Raise AssertionError).
Proof.
  intros (g2 & Hrun & -> & ->)%migrate_Ok.
  split; [|intros d; by apply update_layer_no_assertion_error].
  cbn [assemble network_of network_nodes emit new_nodes].
  assert (Hclosed : closed_modulo (λ k, False ∨ None = Some k) (new_nodes g2)).
  { apply (update_layer_closed set_order set_order_spec _ _ _ _ _ _ _ Hrun).
    intros k n id Hget. done. }
  apply (update_layer_keys_mono set_order set_order_spec) in Hrun as [H42 _].
  intros k n id oi lam Hget Hin. apply keys_set.
  rewrite get_set in Hget. case_decide.
  - injection Hget as <-. right.
    cbn in Hin. apply elem_of_cons in Hin as [[= -> _ _]|Hin]; [done|].
    apply elem_of_cons in Hin as [?|Hin]; [done|]. by apply elem_of_nil in Hin.
  - apply elem_of_node_refs in Hin.
    destruct (Hclosed k n id Hget Hin) as [?|[[]|?]]; [by right|done].
Qed.

Lemma nth_new_id n g :
  (next_new_id (Nat.iter n (λ s, (next_new_id s).2) g)).1 = new_id g + Z.of_nat n.
Proof.
  cbn [next_new_id fst snd]. induction n as [|n IH]; [simpl; lia|].
  rewrite Nat.iter_succ. cbn [new_id]. rewrite IH. lia.
Qed.

Lemma nth_y_position n g :
  (next_y_position (Nat.iter n (λ s, (next_y_position s).2) g)).1
  = y_position g + 3 * Z.of_nat n.
Proof.
  cbn [next_y_position fst snd]. induction n as [|n IH]; [simpl; lia|].
  rewrite Nat.iter_succ. cbn [y_position]. rewrite IH. lia.
Qed.



End Spec.
End TreeSpec.

(** * The properties of the specification: the build patcher *)
Module BuildSpec.
Import Build.




End BuildSpec.

(** * The properties on the sample documents *)
Module SampleFacts.
Import Upgrade Samples.

Lemma insertion_order_spec :
  ∀ l, NoDup (insertion_order l) ∧ ∀ x, x ∈ insertion_order l ↔ x ∈ l.
Proof.
  intros l. split; [apply NoDup_remove_dups|intros x; apply elem_of_remove_dups].
Qed.

(** A property of every node of a network, decided by evaluation. *)
Lemma all_nodes (P : Z → document_node → Prop) `{Hdec : !∀ k n, Decision (P k n)}
    (nw : gmap Z document_node) :
  bool_decide (map_Forall P nw) = true → ∀ k n, nw !! k = Some n → P k n.
Proof. intros Hall%bool_decide_eq_true k n Hk. by apply (Hall k n). Qed.

(** C1, as stated, fails: the ["Output"] node at X = 100 and an indent of 5
    give [shift_left + 8 + indent = 113], and the two nodes emitted for the
    ["Shape"] node end at X = -55 and X = -63, 8 apart. *)
Lemma shape_cull_offset_counterexample :
  ∃ g' cull copy,
    update_layer insertion_order (Layer shape_network) 5 42 None start = Ok g' ∧
    Dict.get 43 (new_nodes g') = Some cull ∧ name cull = "Cull" ∧
    inputs cull = [Node 44 0 false] ∧
    Dict.get 44 (new_nodes g') = Some copy ∧ name copy = "Shape" ∧
    pos_x cull = -55 ∧ pos_x copy = -63 ∧
    pos_x cull - pos_x copy ≠ 100 + 8 + 5 ∧
    pos_x copy - pos_x cull ≠ 100 + 8 + 5.
Proof.
  eexists _, _, _. split; [vm_compute; reflexivity|].
  split; [vm_compute; reflexivity|]. do 3 (split; [reflexivity|]).
  do 3 (split; [reflexivity|]). split; intros Hcontra; vm_compute in Hcontra; discriminate Hcontra.
Qed.

(** C3, as stated, fails: with the node feeding the ["Output"] node at
    X = 100, the ["Output"] node at X = 0 and an indent of 0, the emitted
    node stays at X = 100. *)
Lemma shift_is_not_feeding_node_x_counterexample :
  ∃ g' feeding e,
    update_layer insertion_order (Layer plain_network) 0 42 None start = Ok g' ∧
    nodes plain_network !! 7 = Some feeding ∧ pos_x feeding = 100 ∧
    Dict.get 43 (new_nodes g') = Some e ∧ name e = "Image" ∧
    pos_x e = 100 ∧ pos_x e ≠ pos_x feeding - 100.
Proof.
  eexists _, _, _. split; [vm_compute; reflexivity|].
  split; [vm_compute; reflexivity|]. split; [reflexivity|].
  split; [vm_compute; reflexivity|]. do 2 (split; [reflexivity|]).
  intros Hcontra; vm_compute in Hcontra; discriminate Hcontra.
Qed.


(** The code at the failing input of C2: one layer, two ids drawn. *)
Example reservation_of_one_layer :
  reserve_layer_ids [Layer plain_network] start
  = ([43], {| new_id := 45; y_position := 7; new_nodes := [] |}).
Proof. reflexivity. Qed.

(** With a ["Cull"] in the network nothing is duplicated: one node per
    surviving node and the wrapper, the ["Shape"] node under its own name. *)
Example shape_beside_cull_is_kept :
  (g' ← update_layer insertion_order (Layer culled_network) 5 42 None start;
   Ok (map (λ kn, (kn.1, name kn.2)) (new_nodes g'), new_id g'))
  = Ok ([(43, "Shape"); (44, "Cull"); (42, "Layer")], 45).
Proof. vm_compute. reflexivity. Qed.

(** A folder without layers fails on [new_layer_ids[0]]. *)
Example empty_folder_raises :
  update_layer insertion_order (Folder []) 0 42 None start = Raise IndexError.
Proof. reflexivity. Qed.


Lemma layer_shift_is_output_node_x_witness :
  ∃ g' e,
    42 < new_id start ∧
    update_layer insertion_order (Layer plain_network) 0 42 None start = Ok g' ∧
    Dict.get 43 (new_nodes g') = Some e ∧ pos_x e = 100 - (0 + 0) ∧ pos_y e = 7.
Proof.
  eexists _, _. split; [reflexivity|]. split; [vm_compute; reflexivity|].
  destruct (LayerSpec.layer_shift_is_output_node_x insertion_order insertion_order_spec
              plain_network 0 42 None start _ eq_refl eq_refl)
    as (o & on & Ho & Hon & H).
  destruct (H 7 (sample_node "Image" [Value JNull false] 100 2) eq_refl)
    as (new & e & Hnew & Hget & Hx & Hy & _); [discriminate|].
  vm_compute in Hnew. injection Hnew as <-.
  split; [vm_compute; reflexivity|]. split; reflexivity.
Defined.

Lemma at_most_one_cull_insertion_witness :
  ∃ g',
    42 < new_id start ∧
    (∀ x m, nodes two_shapes_network !! x = Some m → name m ≠ "Cull") ∧
    update_layer insertion_order (Layer two_shapes_network) 0 42 None start = Ok g' ∧
    new_id g' ≤ new_id start + 2 + 1.
Proof.
  assert (Hno : ∀ x m, nodes two_shapes_network !! x = Some m → name m ≠ "Cull").
  { apply (all_nodes (λ _ m, name m ≠ "Cull")). vm_compute. reflexivity. }
  destruct (update_layer insertion_order (Layer two_shapes_network) 0 42 None start)
    as [g'|e] eqn:Hrun; [|vm_compute in Hrun; discriminate Hrun].
  exists g'. split; [reflexivity|]. split; [exact Hno|]. split; [reflexivity|].
  destruct (LayerSpec.at_most_one_cull_insertion insertion_order insertion_order_spec
              two_shapes_network 0 42 None start g' eq_refl Hno Hrun)
    as (Hid & _).
  exact Hid.
Defined.

Lemma shape_cull_insertion_witness :
  ∃ g' cull copy,
    42 < new_id start ∧
    update_layer insertion_order (Layer shape_network) 5 42 None start = Ok g' ∧
    nodes shape_network !! 7 = Some (sample_node "Shape" [Value JNull false] 50 2) ∧
    Dict.get 43 (new_nodes g') = Some cull ∧ name cull = "Cull" ∧
    Dict.get 44 (new_nodes g') = Some copy ∧ name copy = "Shape" ∧
    pos_x cull - pos_x copy = 8.
Proof.
  destruct (update_layer insertion_order (Layer shape_network) 5 42 None start)
    as [g'|e] eqn:Hrun; [|vm_compute in Hrun; discriminate Hrun].
  destruct (LayerSpec.shape_cull_insertion insertion_order insertion_order_spec
              shape_network 5 42 None start g' 7
              (sample_node "Shape" [Value JNull false] 50 2)
              eq_refl Hrun eq_refl eq_refl)
    as (o & on & ins & new & Ho & Hon & Hins & Hnew & Hone & _).
  destruct Hone as (cull & copy & _ & Hc & Hd & Hce & Hde & Hoff & _).
  { apply (all_nodes (λ _ m, name m ≠ "Cull")). vm_compute. reflexivity. }
  { apply (all_nodes (λ x m, name m = "Shape" → x = 7)). vm_compute. reflexivity. }
  vm_compute in Hnew. injection Hnew as <-.
  exists g', cull, copy. split; [reflexivity|]. split; [reflexivity|].
  split; [reflexivity|]. split; [exact Hc|]. split; [by rewrite Hce|].
  split; [exact Hd|]. split; [by rewrite Hde|]. exact Hoff.
Defined.

Lemma no_dangling_references_witness :
  ∃ doc g',
    migrate insertion_order nested_document start = Ok (doc, g') ∧
    ∀ k n id oi lam,
      Dict.get k (network_nodes (network_of doc)) = Some n →
      Node id oi lam ∈ inputs n →
      id ∈ Dict.keys (network_nodes (network_of doc)).
Proof.
  destruct (migrate insertion_order nested_document start)
    as [[doc g']|e] eqn:Hrun; [|vm_compute in Hrun; discriminate Hrun].
  exists doc, g'. split; [reflexivity|].
  exact (proj1 (TreeSpec.no_dangling_references insertion_order insertion_order_spec
                  nested_document start doc g' Hrun)).
Defined.


End SampleFacts.

(** * Further properties of the flattener *)
Module CoverageFacts.
Import Upgrade DictFacts ResultFacts GeneratorFacts NodeFacts LoopFacts LayerFacts.
Import TreeFacts.

Lemma well_formed_Folder layers :
  well_formed (Folder layers) ↔ layers ≠ [] ∧ Forall well_formed layers.
Proof.
  cbn [well_formed]. apply and_iff_compat_l. induction layers as [|x r IH].
  - split; [constructor|done].
  - rewrite Forall_cons, <- IH. done.
Qed.

(** The inputs are renumbered when, and only when, every ["Node"] input has
    an entry in the table. *)
Lemma map_result_rewrite_Ok new_ids l :
  (∃ ins, map_result (rewrite_input new_ids) l = Ok ins) ↔
  ∀ id oi lam, Node id oi lam ∈ l → is_Some (new_ids !! id).
Proof.
  induction l as [|i r IH].
  - split; [by intros _ ? ? ? ?%elem_of_nil|]. intros _. by exists [].
  - split.
    + intros (ins & Hmap) id oi lam Hin. simpl in Hmap.
      apply bind_Ok in Hmap as (i' & Hi & Hmap).
      apply bind_Ok in Hmap as (r' & Hr & _).
      apply elem_of_cons in Hin as [<-|Hin].
      * simpl in Hi. apply bind_Ok in Hi as (new & Hnew%map_index_Ok & _). eauto.
      * apply (proj1 IH (ex_intro _ r' Hr) id oi lam Hin).
    + intros Hall.
      destruct (proj2 IH) as (r' & Hr).
      { intros id oi lam Hin. apply (Hall id oi lam), elem_of_cons. by right. }
      simpl. rewrite Hr.
      destruct i as [id oi lam| |]; simpl; [|eauto..].
      destruct (Hall id oi lam) as (new & Hnew); [apply elem_of_cons; by left|].
      rewrite (map_index_lookup _ _ _ Hnew). simpl. eauto.
Qed.

Lemma update_node_succeeds indent y sl new_ids nds old nw g n :
  nw !! old = Some n →
  (∃ ins, map_result (rewrite_input new_ids) (inputs n) = Ok ins) →
  is_Some (new_ids !! old) →
  ∃ node g', update_node indent y sl new_ids nds old (nw, g) = Ok (<[old:=node]> nw, g').
Proof.
  intros Hn (ins & Hins) (new & Hnew). unfold update_node.
  rewrite (map_index_lookup _ _ _ Hn). cbn [mbind result_bind].
  rewrite Hins. cbn [mbind result_bind].
  rewrite (map_index_lookup _ _ _ Hnew).
  destruct (String.eqb _ "Shape"); [destruct (negb _)|]; cbn; eauto.
Qed.

Lemma loop_succeeds indent y sl new_ids nds l : ∀ nw g,
  NoDup l →
  (∀ x, x ∈ l → ∃ n, nw !! x = Some n ∧
     (∃ ins, map_result (rewrite_input new_ids) (inputs n) = Ok ins) ∧
     is_Some (new_ids !! x)) →
  ∃ st, for_each (update_node indent y sl new_ids nds) l (nw, g) = Ok st.
Proof.
  induction l as [|x r IH]; intros nw g Hnd Hall; [by eexists|].
  apply NoDup_cons in Hnd as [Hx Hnd].
  destruct (Hall x) as (n & Hn & Hins & Hnew); [apply elem_of_cons; by left|].
  destruct (update_node_succeeds indent y sl new_ids nds x nw g n Hn Hins Hnew)
    as (node & g' & Hturn).
  cbn [for_each]. rewrite Hturn. cbn [mbind result_bind].
  apply IH; [done|]. intros z Hz.
  destruct (Hall z) as (m & Hm & Hrest); [apply elem_of_cons; by right|].
  exists m. split; [|done]. rewrite lookup_insert_ne; [done|]. by intros ->.
Qed.

Lemma for_enumerate_reversed_succeeds {A St} (body : nat → A → St → result St) l s :
  (∀ i x t, x ∈ l → (i < length l)%nat → ∃ t', body i x t = Ok t') →
  ∃ s', for_enumerate_reversed body l s = Ok s'.
Proof.
  induction l as [|x r IH]; intros Hbody; [by eexists|].
  destruct IH as (t & Hr).
  { intros i y u Hy Hi. apply Hbody; [apply elem_of_cons; by right|simpl; lia]. }
  cbn [for_enumerate_reversed]. rewrite Hr. cbn [mbind result_bind].
  apply Hbody; [apply elem_of_cons; by left|simpl; lia].
Qed.

Lemma for_enumerate_reversed_Ok_each {A St} (body : nat → A → St → result St) l s s' :
  for_enumerate_reversed body l s = Ok s' →
  ∀ x, x ∈ l → ∃ i t t', body i x t = Ok t'.
Proof.
  revert s'. induction l as [|x r IH]; intros s' Hrun y Hy.
  - by apply elem_of_nil in Hy.
  - cbn [for_enumerate_reversed] in Hrun.
    apply bind_Ok in Hrun as (t & Hr & Hx).
    apply elem_of_cons in Hy as [->|Hy]; [eauto|]. by apply (IH t).
Qed.

(** An invariant indexed by the layers visited so far: a suffix of the
    list. *)
Lemma for_enumerate_reversed_suffix_inv {A St} (body : nat → A → St → result St)
    (I : list A → St → Prop) l s s' :
  I [] s →
  (∀ x r t t', x :: r `suffix_of` l →
     I r t → body (length r) x t = Ok t' → I (x :: r) t') →
  for_enumerate_reversed body l s = Ok s' →
  I l s'.
Proof.
  intros H0. revert s'. induction l as [|x r IH]; intros s' Hstep Hrun.
  - by injection Hrun as <-.
  - cbn [for_enumerate_reversed] in Hrun. apply bind_Ok in Hrun as (t & Hr & Hx).
    apply (Hstep x r t s'); [done| |done].
    apply IH; [|done]. intros y r' u u' Hsuf. apply Hstep. by apply suffix_cons_r.
Qed.

(** Assigning to a key that is absent appends the entry. *)
Lemma set_fresh {V} k (v : V) (d : list (Z * V)) :
  k ∉ Dict.keys d → Dict.set k v d = (d ++ [(k, v)])%list.
Proof.
  unfold Dict.keys. induction d as [|[k' v'] r IH]; simpl; [done|].
  intros [Hne Hr]%not_elem_of_cons. destruct (Z.eqb_spec k k'); [done|].
  by rewrite IH.
Qed.

Lemma migrate_unfold set_order root_data g0 :
  migrate set_order root_data g0
  = (g ← update_layer set_order root_data 0 42 None
           {| new_id := 43; y_position := 7; new_nodes := [] |};
     Ok (assemble (new_nodes (emit 0 root_output_node g)), emit 0 root_output_node g)).
Proof. reflexivity. Qed.

Lemma suffix_cons_elem_of {A} (x : A) r l : x :: r `suffix_of` l → x ∈ l.
Proof. intros [k ->]. apply elem_of_app. right. apply elem_of_cons. by left. Qed.

Lemma calls_Folder_cons x r : calls (Folder (x :: r)) = (calls x + calls (Folder r))%nat.
Proof. cbn [calls]. lia. Qed.

Section Coverage.
Variable set_order : list Z → list Z.
Hypothesis set_order_spec : ∀ l, NoDup (set_order l) ∧ ∀ x, x ∈ set_order l ↔ x ∈ l.

Lemma ids_drawn_Folder_cons x r :
  ids_drawn set_order (Folder (x :: r))
  = (1 + ids_drawn set_order x + ids_drawn set_order (Folder r))%nat.
Proof. cbn [ids_drawn length]. lia. Qed.

Lemma emitted_Folder_cons x r :
  emitted set_order (Folder (x :: r))
  = (emitted set_order x + emitted set_order (Folder r))%nat.
Proof. cbn [emitted]. lia. Qed.

Lemma ids_drawn_Folder_length layers :
  (length layers < ids_drawn set_order (Folder layers))%nat.
Proof. cbn [ids_drawn]. lia. Qed.

(** What a call draws from the two generators. *)
Lemma update_layer_counters d : ∀ indent lid nxt g g',
  update_layer set_order d indent lid nxt g = Ok g' →
  y_position g' = y_position g + 3 * Z.of_nat (calls d) ∧
  new_id g' = new_id g + Z.of_nat (ids_drawn set_order d).
Proof.
  induction d as [layers IH|nw] using data_tree_ind; intros indent lid nxt g g' Hrun.
  - apply update_layer_Folder_Ok in Hrun as (g2 & out & Hloop & _ & _ & ->).
    cbn [emit new_id y_position].
    apply (for_enumerate_reversed_suffix_inv _
             (λ r s, y_position s = y_position g + 3 * Z.of_nat (calls (Folder r)) ∧
                     new_id s = new_id g + Z.of_nat (length layers)
                                + Z.of_nat (ids_drawn set_order (Folder r))
                                - Z.of_nat (length r))) in Hloop; [|by cbn; lia|].
    + destruct Hloop as [Hy Hid]. split; [done|lia].
    + intros x r t t' Hx%suffix_cons_elem_of [Hy Hid] (id & _ & Hcall)%child_call_Ok.
      rewrite Forall_forall in IH.
      destruct (IH x Hx _ _ _ _ _ Hcall) as [Hy' Hid'].
      rewrite calls_Folder_cons, ids_drawn_Folder_cons. simpl length. lia.
  - apply update_layer_Layer_Ok in Hrun as (output & g2 & Hnet & _ & ->).
    apply (update_network_spec set_order set_order_spec) in Hnet
      as (o & on & fid & foi & flam & out & _ & _ & _ & _ & _ & Hid & Hy & _).
    cbn [next_y_position snd new_id y_position emit calls ids_drawn] in *.
    split; [lia|]. rewrite Hid. destruct (dup_target _ _ _); lia.
Qed.

(** A call writes under its own key and under ids drawn during the call,
    nowhere else. *)
Lemma update_layer_frame d : ∀ indent lid nxt g g',
  update_layer set_order d indent lid nxt g = Ok g' →
  ∀ k, k ≠ lid → ¬ (new_id g ≤ k < new_id g') →
       Dict.get k (new_nodes g') = Dict.get k (new_nodes g).
Proof.
  induction d as [layers IH|nw] using data_tree_ind;
    intros indent lid nxt g g' Hrun k Hk Hrange.
  - apply update_layer_Folder_Ok in Hrun as (g2 & out & Hloop & _ & _ & ->).
    cbn [emit new_id new_nodes] in *. rewrite get_set_ne by done.
    apply (for_enumerate_reversed_inv _
             (λ _ s, new_id g + Z.of_nat (length layers) + 1 ≤ new_id s ∧
                     (¬ (new_id g ≤ k < new_id s) →
                      Dict.get k (new_nodes s) = Dict.get k (new_nodes g))))
      in Hloop.
    + by apply Hloop.
    + cbn. split; [lia|done].
    + intros x r t t' Hx Hr [Hid Hfr] (id & Hlid & Hcall)%child_call_Ok.
      rewrite Forall_forall in IH.
      pose proof (update_layer_keys set_order set_order_spec _ _ _ _ _ _ Hcall)
        as (Hmono & _).
      apply lookup_seqZ in Hlid as [-> Hlt].
      split; [lia|]. intros Hout.
      rewrite (IH x Hx _ _ _ _ _ Hcall k) by lia. apply Hfr. lia.
  - apply update_layer_Layer_Ok in Hrun as (output & g2 & Hnet & _ & ->).
    apply (update_network_spec set_order set_order_spec) in Hnet
      as (o & on & fid & foi & flam & out & _ & _ & _ & _ & _ & _ & _ & _ & Hfr).
    cbn [emit new_id new_nodes next_y_position snd] in *.
    rewrite get_set_ne by done. by apply Hfr.
Qed.

(** The wrapper of a call: where it is, whom it refers to. *)
Lemma update_layer_wrapper d indent lid nxt g g' :
  update_layer set_order d indent lid nxt g = Ok g' →
  ∃ out,
    Dict.get lid (new_nodes g')
    = Some (layer_node indent (y_position g) (Some out) nxt) ∧
    new_id g ≤ out < new_id g' ∧ out ∈ Dict.keys (new_nodes g').
Proof.
  intros Hrun.
  pose proof (update_layer_counters _ _ _ _ _ _ Hrun) as [_ Hid].
  destruct d as [layers|nw].
  - pose proof (ids_drawn_Folder_length layers) as Hlen.
    apply update_layer_Folder_Ok in Hrun as (g2 & out & Hloop & Hout & Hassert & ->).
    exists out. cbn [emit new_id new_nodes] in *.
    split; [apply get_set_eq|].
    apply lookup_seqZ in Hout as [-> Hlt]. split; [lia|].
    apply keys_set. right. apply mem_keys. unfold assert_output in Hassert.
    by destruct (Dict.mem _ _).
  - apply update_layer_Layer_Ok in Hrun as (output & g2 & Hnet & Hassert & ->).
    apply (update_network_spec set_order set_order_spec) in Hnet
      as (o & on & fid & foi & flam & out & _ & _ & _ & Hout & -> & Hid2 & _).
    exists out. cbn [emit new_id new_nodes next_y_position snd] in *.
    split; [apply get_set_eq|].
    apply (layer_new_ids_range set_order set_order_spec) in Hout as [_ Hout].
    cbn [new_id] in Hout.
    split; [destruct (dup_target _ _ _); lia|].
    apply keys_set. right. apply mem_keys. unfold assert_output in Hassert.
    by destruct (Dict.mem _ _).
Qed.

Lemma layer_new_ids_is_Some nw g x :
  is_Some (layer_new_ids set_order nw g !! x) ↔ survives (nodes nw) x.
Proof.
  unfold survives. rewrite <- (elem_of_surviving set_order set_order_spec). split.
  - intros (v & Hv). by apply (layer_new_ids_range set_order set_order_spec) in Hv as [? _].
  - intros (i & Hi)%list_elem_of_lookup. exists (new_id g + Z.of_nat i).
    apply (layer_new_ids_lookup set_order set_order_spec). eauto.
Qed.

Lemma update_network_succeeds network indent y g :
  well_formed_network network →
  ∃ out g2, update_network set_order network indent y g = Ok (out, g2).
Proof.
  intros [(o & on & fid & foi & flam & Ho & Hon & Hf & Hfid) Hrefs].
  unfold update_network.
  pose proof (eq_refl : layer_new_ids set_order network g = _) as Hids.
  unfold layer_new_ids at 2 in Hids.
  destruct (zip_new_id (surviving set_order (nodes network)) g) as [pairs g1].
  cbn [fst] in Hids. rewrite <- Hids.
  rewrite (proj2 (list_index_Ok _ _ _) Ho). cbn [mbind result_bind].
  rewrite (map_index_lookup _ _ _ Hon). cbn [mbind result_bind].
  rewrite (proj2 (list_index_Ok _ _ _) Hf). cbn [mbind result_bind].
  apply (layer_new_ids_is_Some network g) in Hfid as (out & Hout).
  rewrite (map_index_lookup _ _ _ Hout). cbn [mbind result_bind].
  destruct (loop_succeeds indent y (pos_x on) (layer_new_ids set_order network g)
              (surviving set_order (nodes network))
              (surviving set_order (nodes network)) (nodes network) g1) as ([nw' g2] & Hloop).
  - apply (NoDup_surviving set_order set_order_spec).
  - intros x (n & Hn & Hname)%(elem_of_surviving set_order set_order_spec).
    exists n. split; [done|]. split.
    + apply map_result_rewrite_Ok. intros id oi lam Hin.
      apply layer_new_ids_is_Some. by apply (Hrefs x n id oi lam).
    + apply layer_new_ids_is_Some. by exists n.
  - rewrite Hloop. cbn [mbind result_bind]. eauto.
Qed.

Lemma update_network_well_formed network indent y g out g2 :
  update_network set_order network indent y g = Ok (out, g2) →
  well_formed_network network.
Proof.
  intros Hnet.
  apply (update_network_spec set_order set_order_spec) in Hnet
    as (o & on & fid & foi & flam & out' & Ho & Hon & Hf & Hout & _ & _ & _ & Hem & _).
  split.
  - exists o, on, fid, foi, flam. do 3 (split; [done|]).
    apply (layer_new_ids_is_Some network g). eauto.
  - intros x n id oi lam Hn Hname Hin.
    destruct (Hem x) as (n' & ins & new & Hn' & Hins & _).
    { apply (elem_of_surviving set_order set_order_spec). eauto. }
    assert (n' = n) as -> by congruence.
    apply (layer_new_ids_is_Some network g).
    by apply (proj1 (map_result_rewrite_Ok _ _) (ex_intro _ ins Hins) id oi lam).
Qed.

(** A call returns on the well-formed trees, and on no other. *)
Lemma update_layer_succeeds_iff d : ∀ indent lid nxt g,
  (∃ g', update_layer set_order d indent lid nxt g = Ok g') ↔ well_formed d.
Proof.
  induction d as [layers IH|nw] using data_tree_ind; intros indent lid nxt g.
  - rewrite well_formed_Folder. rewrite Forall_forall in IH. split.
    + intros (g' & Hrun).
      apply update_layer_Folder_Ok in Hrun as (g2 & out & Hloop & Hout & _ & _).
      split.
      * intros ->. by apply lookup_seqZ in Hout as [_ ?].
      * apply Forall_forall. intros x Hx.
        destruct (for_enumerate_reversed_Ok_each _ _ _ _ Hloop x Hx)
          as (i & t & t' & (id & _ & Hcall)%child_call_Ok).
        apply (IH x Hx (indent + 5) id (seqZ (new_id g) (Z.of_nat (length layers))
                                          !! (i + 1)%nat) t). eauto.
    + intros [Hne Hall]. rewrite Forall_forall in Hall.
      pose proof (update_layer_no_assertion_error set_order set_order_spec
                    (Folder layers) indent lid nxt g) as Hna.
      cbn [update_layer] in Hna |- *. unfold next_y_position at 1 in Hna. unfold next_y_position at 1.
      rewrite reserve_layer_ids_spec in Hna |- *.
      cbn [new_id y_position new_nodes] in Hna |- *.
      set (ids := seqZ (new_id g) (Z.of_nat (length layers))) in *.
      match goal with
      | |- context [for_enumerate_reversed ?body layers ?s] =>
          destruct (for_enumerate_reversed_succeeds body layers s) as (g2 & Hloop)
      end.
      { intros i x t Hx Hi. cbn beta.
        rewrite (proj2 (list_index_Ok ids i (new_id g + Z.of_nat i)))
          by (apply lookup_seqZ; lia).
        cbn [mbind result_bind]. apply (IH x Hx). by apply Hall. }
      rewrite Hloop in Hna |- *. cbn [mbind result_bind] in Hna |- *.
      rewrite (proj2 (list_index_Ok ids 0 (new_id g + Z.of_nat 0))) in Hna |- *
        by (apply lookup_seqZ; destruct layers; [done|simpl; lia]).
      cbn [mbind result_bind assert_output] in Hna |- *.
      destruct (Dict.mem _ (new_nodes g2)); [cbn; eauto|done].
  - cbn [well_formed]. split.
    + intros (g' & Hrun).
      apply update_layer_Layer_Ok in Hrun as (output & g2 & Hnet & _).
      by apply update_network_well_formed in Hnet.
    + intros Hwf.
      pose proof (update_layer_no_assertion_error set_order set_order_spec
                    (Layer nw) indent lid nxt g) as Hna.
      cbn [update_layer] in Hna |- *. unfold next_y_position at 1 in Hna. unfold next_y_position at 1.
      destruct (update_network_succeeds nw indent (y_position g)
                  {| new_id := new_id g; y_position := y_position g + 3;
                     new_nodes := new_nodes g |} Hwf) as (out & g2 & Hnet).
      rewrite Hnet in Hna |- *. cbn [mbind result_bind] in Hna |- *.
      unfold assert_output in Hna |- *. destruct out as [o|]; [|cbn; eauto].
      destruct (Dict.mem o (new_nodes g2)); [cbn; eauto|done].
Qed.

(** The number of surviving nodes does not depend on the order of sets. *)
Lemma length_surviving nw :
  length (surviving set_order nw)
  = size (filter (λ kn : Z * document_node, name kn.2 ≠ "Output") nw).
Proof.
  rewrite <- length_map_to_list, <- (length_fmap fst).
  apply Permutation_length, NoDup_Permutation.
  - apply (NoDup_surviving set_order set_order_spec).
  - apply NoDup_fst_map_to_list.
  - intros x. rewrite (elem_of_surviving set_order set_order_spec), list_elem_of_fmap.
    split.
    + intros (n & Hn & Hname). exists (x, n). split; [done|].
      by apply elem_of_map_to_list, map_lookup_filter_Some.
    + intros ([k n] & -> & H%elem_of_map_to_list%map_lookup_filter_Some).
      destruct H. eauto.
Qed.

(** The name of a node that the branch wrote. *)
Lemma update_network_emitted_name nw indent y g output g2 k e :
  update_network set_order nw indent y g = Ok (output, g2) →
  new_id g ≤ k < new_id g2 →
  Dict.get k (new_nodes g2) = Some e →
  name e = "Cull" ∨
  ∃ x n, nodes nw !! x = Some n ∧ name n ≠ "Output" ∧ name e = name n.
Proof.
  intros Hnet Hk Hget.
  apply (update_network_spec set_order set_order_spec) in Hnet
    as (o & on & fid & foi & flam & out & _ & _ & _ & _ & _ & Hid & Hy & Hem & Hfr).
  set (nds := surviving set_order (nodes nw)) in *.
  set (c := new_id g + Z.of_nat (length nds)) in *.
  assert (Hname : ∀ x n, x ∈ nds → nodes nw !! x = Some n → name n ≠ "Output").
  { intros x n (n' & Hn' & Hne)%(elem_of_surviving set_order set_order_spec) Hn.
    congruence. }
  destruct (decide (k < c)) as [Hlt|Hge].
  - destruct (layer_new_ids_onto set_order set_order_spec nw g k)
      as (x & Hx & Hv); [fold nds c; lia|].
    destruct (Hem x Hx) as (n & ins & new & Hn & Hins & Hnew & Hg).
    assert (new = k) as -> by congruence.
    case_decide.
    + destruct Hg as [Hg1 Hg2]. left. by assert (e = cull_node indent y (pos_x on) c
                                                  (renumbered ins n)) as -> by congruence.
    + right. exists x, n. split; [done|]. split; [eauto|].
      assert (e = place indent y (pos_x on) (renumbered ins n)) as -> by congruence.
      by rewrite name_place, name_renumbered.
  - destruct (dup_target (nodes nw) nds nds) as [x|] eqn:Ht; [|lia].
    assert (k = c) as -> by lia.
    pose proof Ht as (_ & Hx & _)%dup_target_Some.
    destruct (Hem x Hx) as (n & ins & new & Hn & Hins & Hnew & Hg).
    rewrite decide_True in Hg by done. destruct Hg as [Hg1 Hg2].
    right. exists x, n. split; [done|]. split; [eauto|].
    assert (e = shape_copy indent y (pos_x on) (renumbered ins n)) as -> by congruence.
    change (name (shape_copy indent y (pos_x on) (renumbered ins n)))
      with (name (renumbered ins n)).
    by rewrite name_renumbered.
Qed.

(** A call adds no node named ["Output"]. *)
Lemma update_layer_outputs d : ∀ indent lid nxt g g' k n,
  update_layer set_order d indent lid nxt g = Ok g' →
  Dict.get k (new_nodes g') = Some n → name n = "Output" →
  Dict.get k (new_nodes g) = Some n.
Proof.
  induction d as [layers IH|nw] using data_tree_ind;
    intros indent lid nxt g g' k n Hrun Hget Hname.
  - apply update_layer_Folder_Ok in Hrun as (g2 & out & Hloop & _ & _ & ->).
    cbn [emit new_nodes] in Hget. rewrite get_set in Hget.
    case_decide; [injection Hget as <-; done|].
    apply (for_enumerate_reversed_inv _
             (λ _ s, Dict.get k (new_nodes s) = Some n →
                     Dict.get k (new_nodes g) = Some n)) in Hloop;
      [exact Hloop|done| |exact Hget].
    intros x r t t' Hx _ Ht (id & _ & Hcall)%child_call_Ok Hget'.
    rewrite Forall_forall in IH. apply Ht. by apply (IH x Hx _ _ _ _ _ _ _ Hcall).
  - apply update_layer_Layer_Ok in Hrun as (output & g2 & Hnet & _ & ->).
    cbn [emit new_nodes] in Hget. rewrite get_set in Hget.
    case_decide; [injection Hget as <-; done|].
    destruct (decide (new_id g ≤ k < new_id g2)) as [Hin|Hout].
    + exfalso.
      destruct (update_network_emitted_name _ _ _ _ _ _ _ _ Hnet Hin Hget)
        as [Hc|(x & n0 & _ & Hne & Heq)]; congruence.
    + apply (update_network_spec set_order set_order_spec) in Hnet
        as (_ & _ & _ & _ & _ & _ & _ & _ & _ & _ & _ & _ & _ & _ & Hfr).
      by rewrite (Hfr k Hout) in Hget.
Qed.

(** The keys of the mapping stay below the generator. *)
Lemma update_layer_keys_below d indent lid nxt g g' :
  update_layer set_order d indent lid nxt g = Ok g' →
  lid < new_id g → keys_below g → keys_below g'.
Proof.
  intros Hrun Hlid Hbelow k Hk.
  destruct (update_layer_keys set_order set_order_spec _ _ _ _ _ _ Hrun)
    as (Hmono & _ & Hkeys).
  destruct (Hkeys k Hk) as [Hold|[->|?]]; [|lia..].
  specialize (Hbelow k Hold). lia.
Qed.

(** The wrappers of the layers of a folder, after the loop over them: the
    layer at position [p] of the list is visited at index [length r - 1 - p]. *)
Lemma folder_loop_wrappers layers indent g g2 :
  let N := length layers in
  let ids := seqZ (new_id g) (Z.of_nat N) in
  for_enumerate_reversed (child_call set_order ids indent) layers
    {| new_id := new_id g + Z.of_nat N + 1;
       y_position := y_position g + 3; new_nodes := new_nodes g |} = Ok g2 →
  ∀ p child, layers !! p = Some child →
    ∃ out,
      Dict.get (new_id g + Z.of_nat (N - 1 - p)) (new_nodes g2)
      = Some (layer_node (indent + 5)
                (y_position g + 3 * Z.of_nat (calls (Folder (drop (S p) layers))))
                (Some out) (ids !! (N - p)%nat)) ∧
      new_id g + Z.of_nat N < out ∧ out ∈ Dict.keys (new_nodes g2).
Proof.
  intros N ids Hloop.
  apply (for_enumerate_reversed_suffix_inv _
           (λ r s, new_id g + Z.of_nat N + 1 ≤ new_id s ∧
                   y_position s = y_position g + 3 * Z.of_nat (calls (Folder r)) ∧
                   ∀ p child, r !! p = Some child →
                     ∃ out,
                       Dict.get (new_id g + Z.of_nat (length r - 1 - p)) (new_nodes s)
                       = Some (layer_node (indent + 5)
                                 (y_position g
                                  + 3 * Z.of_nat (calls (Folder (drop (S p) r))))
                                 (Some out) (ids !! (length r - p)%nat)) ∧
                       new_id g + Z.of_nat N < out ∧ out ∈ Dict.keys (new_nodes s)))
    in Hloop.
  - by destruct Hloop as (_ & _ & H).
  - cbn. split; [lia|]. split; [lia|]. intros p child Hp. done.
  - intros x r t t' Hsuf (Hid & Hy & Hw) (id & Hlid & Hcall)%child_call_Ok.
    assert (Hlen : (length r < N)%nat).
    { destruct Hsuf as [k ->]. unfold N. rewrite length_app. simpl. lia. }
    apply lookup_seqZ in Hlid as [-> _].
    destruct (update_layer_counters _ _ _ _ _ _ Hcall) as [Hy' _].
    pose proof (update_layer_keys set_order set_order_spec _ _ _ _ _ _ Hcall)
      as (Hmono & _ & _).
    pose proof (update_layer_keys_mono set_order set_order_spec _ _ _ _ _ _ Hcall)
      as (_ & Hkeep).
    split; [lia|]. split; [rewrite calls_Folder_cons; lia|].
    intros [|p] child Hp; simpl in Hp.
    + injection Hp as <-.
      destruct (update_layer_wrapper _ _ _ _ _ _ Hcall) as (out & Hget & Hout & Hin).
      exists out. simpl length. simpl drop.
      replace (S (length r) - 1 - 0)%nat with (length r) by lia.
      replace (S (length r) - 0)%nat with (length r + 1)%nat by lia.
      rewrite Hget, Hy. split; [done|]. split; [lia|done].
    + destruct (Hw p child Hp) as (out & Hget & Hout & Hin).
      apply lookup_lt_Some in Hp.
      exists out. simpl length. simpl drop.
      replace (S (length r) - 1 - S p)%nat with (length r - 1 - p)%nat by lia.
      replace (S (length r) - S p)%nat with (length r - p)%nat by lia.
      split; [|split; [done|by apply Hkeep]].
      rewrite <- Hget.
      apply (update_layer_frame _ _ _ _ _ _ Hcall); lia.
Qed.

(** *** The order of the entries *)

Lemma loop_appends indent y sl new_ids nds l : ∀ nw g nw' g',
  NoDup l →
  (∀ x x' v, x ∈ l → x' ∈ l →
     new_ids !! x = Some v → new_ids !! x' = Some v → x = x') →
  (∀ x v, x ∈ l → new_ids !! x = Some v →
     (v ∉ Dict.keys (new_nodes g)) ∧ v < new_id g) →
  keys_below g →
  for_each (update_node indent y sl new_ids nds) l (nw, g) = Ok (nw', g') →
  ∃ added,
    new_nodes g' = (new_nodes g ++ added)%list ∧
    Z.of_nat (length added) = Z.of_nat (length l) + (new_id g' - new_id g).
Proof.
  induction l as [|x r IH]; intros nw g nw' g' Hnd Hinj Hnew Hbelow Hrun.
  { injection Hrun as <- <-. exists []. rewrite app_nil_r. split; [done|simpl; lia]. }
  apply NoDup_cons in Hnd as [Hxr Hnd].
  simpl in Hrun. apply bind_Ok in Hrun as ([nw1 g1] & Hturn & Hrest).
  assert (Hx : x ∈ x :: r) by (apply elem_of_cons; by left).
  assert (Hinj' : ∀ z z' v, z ∈ r → z' ∈ r →
            new_ids !! z = Some v → new_ids !! z' = Some v → z = z').
  { intros z z' v Hz Hz'. apply Hinj; apply elem_of_cons; by right. }
  assert (Hfresh : new_id g ∉ Dict.keys (new_nodes g)).
  { intros Hin. specialize (Hbelow _ Hin). lia. }
  apply update_node_Ok in Hturn
    as (n & ins & new & Hn & Hins & Hnewx & [(Hs & Hc & -> & ->)|(Hcase & -> & ->)]).
  - set (c := cull_node indent y sl (new_id g) (renumbered ins n)) in *.
    set (s := shape_copy indent y sl (renumbered ins n)) in *.
    set (nw1' := <[x:=c]> nw) in *.
    set (g1' := emit new c (emit (new_id g) s (next_new_id g).2)) in *.
    destruct (Hnew x new Hx Hnewx) as [Hnk Hnlt].
    destruct (IH nw1' g1' nw' g' Hnd Hinj') as (added & Happ & Hlen);
      [| |exact Hrest|].
    + intros z v Hz Hv. unfold g1'. cbn [emit new_nodes new_id next_new_id snd].
      destruct (Hnew z v) as [Hzk Hzlt]; [apply elem_of_cons; by right|done|].
      split; [|lia]. rewrite !keys_set. intros [->|[->|?]]; [|lia|done].
      apply Hxr. assert (z = x) as ->; [|done].
      apply (Hinj z x new); [apply elem_of_cons; by right|done..].
    + intros k. unfold g1'. cbn [emit new_nodes new_id next_new_id snd]. rewrite !keys_set. intros [->|[->|Hk]]; [lia|lia|].
      specialize (Hbelow k Hk). lia.
    + unfold g1' in Happ, Hlen. cbn [emit new_nodes new_id next_new_id snd] in Happ, Hlen.
      rewrite (set_fresh (new_id g)) in Happ by done.
      rewrite set_fresh in Happ.
      * exists ((new_id g, s) :: (new, c) :: added).
        split; [by rewrite Happ, <- !app_assoc|simpl length; lia].
      * unfold Dict.keys. rewrite map_app, elem_of_app. simpl.
        intros [?|Hin]; [done|]. apply list_elem_of_singleton in Hin. lia.
  - set (pl := place indent y sl (renumbered ins n)) in *.
    set (nw1' := <[x:=pl]> nw) in *.
    set (g1' := emit new pl g) in *.
    destruct (Hnew x new Hx Hnewx) as [Hnk Hnlt].
    destruct (IH nw1' g1' nw' g' Hnd Hinj') as (added & Happ & Hlen);
      [| |exact Hrest|].
    + intros z v Hz Hv. unfold g1'. cbn [emit new_nodes new_id next_new_id snd].
      destruct (Hnew z v) as [Hzk Hzlt]; [apply elem_of_cons; by right|done|].
      split; [|lia]. rewrite keys_set. intros [->|?]; [|done].
      apply Hxr. assert (z = x) as ->; [|done].
      apply (Hinj z x new); [apply elem_of_cons; by right|done..].
    + intros k. unfold g1'. cbn [emit new_nodes new_id next_new_id snd]. rewrite keys_set. intros [->|Hk]; [lia|].
      by apply Hbelow.
    + unfold g1' in Happ, Hlen. cbn [emit new_nodes new_id next_new_id snd] in Happ, Hlen. rewrite set_fresh in Happ by done.
      exists ((new, pl) :: added).
      split; [by rewrite Happ, <- app_assoc|simpl length; lia].
Qed.

Lemma update_network_appends nw indent y g output g2 :
  update_network set_order nw indent y g = Ok (output, g2) →
  keys_below g →
  ∃ added,
    new_nodes g2 = (new_nodes g ++ added)%list ∧
    Z.of_nat (length added) = new_id g2 - new_id g.
Proof.
  intros Hnet Hbelow.
  apply (update_network_Ok set_order) in Hnet
    as (o & on & fid & foi & flam & out & nw' & _ & _ & _ & _ & _ & Hloop).
  rewrite zip_new_id_spec in Hloop. cbn [snd] in Hloop.
  apply loop_appends in Hloop as (added & Happ & Hlen).
  - exists added. cbn in Happ, Hlen. split; [done|lia].
  - apply (NoDup_surviving set_order set_order_spec).
  - intros x x' v _ _. apply (layer_new_ids_inj set_order set_order_spec).
  - intros x v _ Hv%(layer_new_ids_range set_order set_order_spec). cbn.
    destruct Hv as [_ Hv]. split; [|lia].
    intros Hin. specialize (Hbelow _ Hin). lia.
  - intros k Hk. cbn in *. specialize (Hbelow k Hk). lia.
Qed.

(** A call appends: the entries it finds keep their place, and its wrapper
    comes last. *)
Lemma update_layer_appends d : ∀ indent lid nxt g g',
  update_layer set_order d indent lid nxt g = Ok g' →
  keys_below g → lid < new_id g → lid ∉ Dict.keys (new_nodes g) →
  ∃ added out,
    new_nodes g'
    = (new_nodes g ++ added
       ++ [(lid, layer_node indent (y_position g) (Some out) nxt)])%list ∧
    S (length added) = emitted set_order d.
Proof.
  induction d as [layers IH|nw] using data_tree_ind;
    intros indent lid nxt g g' Hrun Hbelow Hlid Hnew.
  - apply update_layer_Folder_Ok in Hrun as (g2 & out & Hloop & _ & _ & ->).
    set (N := length layers) in *.
    apply (for_enumerate_reversed_suffix_inv _
             (λ r s, keys_below s ∧ new_id g + Z.of_nat N + 1 ≤ new_id s ∧
                     (∀ j, (length r ≤ j < N)%nat →
                           new_id g + Z.of_nat j ∉ Dict.keys (new_nodes s)) ∧
                     (∀ k, k ∈ Dict.keys (new_nodes s) →
                           k ∈ Dict.keys (new_nodes g) ∨ new_id g ≤ k) ∧
                     ∃ added, new_nodes s = (new_nodes g ++ added)%list ∧
                              S (length added) = emitted set_order (Folder r)))
      in Hloop.
    + destruct Hloop as (_ & _ & _ & Hk2 & added & Happ & Hlen).
      exists added, out. split; [|done]. cbn [emit new_nodes].
      rewrite set_fresh, Happ; [by rewrite <- app_assoc|].
      intros Hin. destruct (Hk2 lid Hin); [done|lia].
    + cbn. split; [intros k Hk; cbn; specialize (Hbelow k Hk); lia|].
      split; [lia|]. split; [intros j _ Hin; specialize (Hbelow _ Hin); lia|].
      split; [auto|]. exists []. by rewrite app_nil_r.
    + intros x r t t' Hsuf (Hbt & Hid & Hunused & Hk & added & Happ & Hlen)
        (id & Hidx & Hcall)%child_call_Ok.
      assert (Hr : (length r < N)%nat).
      { destruct Hsuf as [k ->]. unfold N. rewrite length_app. simpl. lia. }
      apply suffix_cons_elem_of in Hsuf. rewrite Forall_forall in IH.
      apply lookup_seqZ in Hidx as [-> _].
      pose proof (update_layer_keys set_order set_order_spec _ _ _ _ _ _ Hcall)
        as (Hmono & _ & Hkeys).
      split; [apply (update_layer_keys_below _ _ _ _ _ _ Hcall); [lia|done]|].
      split; [lia|]. split; [|split].
      * intros j Hj Hin. simpl in Hj.
        destruct (Hkeys _ Hin) as [Hold|[?|?]]; [|lia..].
        apply (Hunused j); [lia|done].
      * intros k Hin. destruct (Hkeys _ Hin) as [Hold|[->|?]]; [auto|right; lia..].
      * destruct (IH x Hsuf _ _ _ _ _ Hcall Hbt) as (added' & out' & Happ' & Hlen');
          [lia|apply Hunused; lia|].
        exists (added ++ added'
                ++ [(new_id g + Z.of_nat (length r),
                     layer_node (indent + 5) (y_position t) (Some out')
                       (seqZ (new_id g) (Z.of_nat N) !! (length r + 1)%nat))])%list.
        split; [by rewrite Happ', Happ, <- !app_assoc|].
        rewrite emitted_Folder_cons, !length_app. simpl length.
        rewrite <- Hlen, <- Hlen'. lia.
  - pose proof (update_layer_counters _ _ _ _ _ _ Hrun) as [_ Hdrawn].
    apply update_layer_Layer_Ok in Hrun as (output & g2 & Hnet & _ & ->).
    destruct (update_network_appends _ _ _ _ _ _ Hnet) as (added & Happ & Hlen).
    { intros k Hk. cbn. by apply Hbelow. }
    apply (update_network_spec set_order set_order_spec) in Hnet
      as (o & on & fid & foi & flam & out & _ & _ & _ & _ & -> & _ & _ & _ & Hfr).
    cbn [emit new_id new_nodes next_y_position snd] in *.
    exists added, out. split.
    + rewrite set_fresh, Happ; [by rewrite <- app_assoc|].
      intros Hin%get_Some_keys. rewrite Hfr in Hin by lia.
      by apply get_Some_keys in Hin.
    + cbn [emitted]. lia.
Qed.

(** A ["Shape"] is duplicated in the networks that have a ["Shape"] and no
    ["Cull"] among the surviving nodes. *)
Lemma dup_target_is_Some nw :
  is_Some (dup_target nw (surviving set_order nw) (surviving set_order nw)) ↔
  (∀ x, survives nw x → name_at nw x ≠ "Cull") ∧
  ∃ x, survives nw x ∧ name_at nw x = "Shape".
Proof.
  unfold survives. setoid_rewrite <- (elem_of_surviving set_order set_order_spec).
  set (nds := surviving set_order nw). unfold dup_target.
  destruct (has_cull nw nds) eqn:Hc.
  - split; [by intros [? ?]|]. intros [Hno _].
    apply has_cull_true in Hc as (x & Hx & Hname). by destruct (Hno x Hx).
  - assert (Hno : ∀ x, x ∈ nds → name_at nw x ≠ "Cull").
    { intros x Hx Hname.
      assert (has_cull nw nds = true) by (apply has_cull_true; eauto). congruence. }
    split.
    + intros [x Hf]. apply find_some in Hf as [Hx Hs]. split; [done|].
      exists x. split; [by apply list_elem_of_In|by apply String.eqb_eq].
    + intros [_ (x & Hx & Hs)].
      destruct (List.find (is_shape nw) nds) as [z|] eqn:Hf; [eauto|].
      apply list_elem_of_In in Hx. pose proof (find_none _ _ Hf x Hx) as Hn.
      unfold is_shape in Hn. rewrite Hs in Hn. done.
Qed.

(** The keys after the branch: those before it and every id drawn. *)
Lemma network_keys_block nw indent y g output g2 k :
  update_network set_order nw indent y g = Ok (output, g2) →
  k ∈ Dict.keys (new_nodes g2) ↔
  k ∈ Dict.keys (new_nodes g) ∨ new_id g ≤ k < new_id g2.
Proof.
  intros Hnet.
  rewrite (network_keys set_order set_order_spec _ _ _ _ _ _ Hnet k).
  apply (update_network_spec set_order set_order_spec) in Hnet
    as (o & on & fid & foi & flam & out & _ & _ & _ & _ & _ & Hid & _).
  set (nds := surviving set_order (nodes nw)) in *.
  split.
  - intros [?|[(x & Hx & Hv)|[Hdup ->]]]; [by left|right..].
    + apply (layer_new_ids_range set_order set_order_spec) in Hv as [_ Hv].
      fold nds in Hv. destruct (dup_target _ _ _); lia.
    + destruct Hdup as [z Hz]. rewrite Hz in Hid. lia.
  - intros [?|Hk]; [by left|right].
    destruct (decide (k < new_id g + Z.of_nat (length nds))) as [Hlt|Hge].
    + left. destruct (layer_new_ids_onto set_order set_order_spec nw g k)
        as (x & Hx & Hv); [fold nds; lia|eauto].
    + right. destruct (dup_target _ _ _); [split; [eauto|lia]|lia].
Qed.

End Coverage.

(** *** Two iteration orders *)

(** Two loops over the same list, turn by turn. *)
Lemma for_enumerate_reversed_rel {A S1 S2} (b1 : nat → A → S1 → result S1)
    (b2 : nat → A → S2 → result S2) (R : S1 → S2 → Prop) l s1 s2 s1' s2' :
  R s1 s2 →
  (∀ i x t1 t2 t1' t2', x ∈ l → R t1 t2 →
     b1 i x t1 = Ok t1' → b2 i x t2 = Ok t2' → R t1' t2') →
  for_enumerate_reversed b1 l s1 = Ok s1' →
  for_enumerate_reversed b2 l s2 = Ok s2' →
  R s1' s2'.
Proof.
  intros H0. revert s1' s2'. induction l as [|x r IH]; intros s1' s2' Hstep Hr1 Hr2.
  - injection Hr1 as <-. by injection Hr2 as <-.
  - cbn [for_enumerate_reversed] in Hr1, Hr2.
    apply bind_Ok in Hr1 as (t1 & Hr1 & Hx1). apply bind_Ok in Hr2 as (t2 & Hr2 & Hx2).
    apply (Hstep (length r) x t1 t2); [apply elem_of_cons; by left| |done..].
    apply IH; [|done..].
    intros i y u1 u2 u1' u2' Hy. apply Hstep, elem_of_cons. by right.
Qed.

(** *** The log of the wrappers *)

(** A loop whose state carries a ghost component. *)
Lemma for_enumerate_reversed_erase {A St L} (b : nat → A → St → result St)
    (b' : nat → A → St * L → result (St * L)) l :
  (∀ i x s log, x ∈ l → b i x s = (r ← b' i x (s, log); Ok r.1)) →
  ∀ s log, for_enumerate_reversed b l s
           = (r ← for_enumerate_reversed b' l (s, log); Ok r.1).
Proof.
  induction l as [|x r IH]; intros Hb s log; [done|].
  cbn [for_enumerate_reversed]. rewrite (IH (λ i y u lg Hy, Hb i y u lg
                                              (proj2 (elem_of_cons _ _ _) (or_intror Hy)))
                                           s log).
  destruct (for_enumerate_reversed b' r (s, log)) as [[t lg]|e];
    cbn [mbind result_bind fst]; [|done].
  apply Hb, elem_of_cons. by left.
Qed.

(** The log is a ghost: without it the call is [update_layer]. *)
Lemma update_layer_log_erase set_order d : ∀ indent lid nxt g log,
  update_layer set_order d indent lid nxt g
  = (r ← update_layer_log set_order d indent lid nxt (g, log); Ok r.1).
Proof.
  induction d as [layers IH|nw] using data_tree_ind; intros indent lid nxt g log.
  - cbn [update_layer update_layer_log]. unfold next_y_position.
    rewrite reserve_layer_ids_spec. cbn [new_id y_position new_nodes].
    set (ids := seqZ (new_id g) (Z.of_nat (length layers))).
    match goal with
    | |- context [for_enumerate_reversed ?b' layers (?s0, log)] =>
        match goal with
        | |- context [for_enumerate_reversed ?b layers s0] =>
            assert (Hb : ∀ i x s lg, x ∈ layers →
                      b i x s = (r ← b' i x (s, lg); Ok r.1));
            [|rewrite (for_enumerate_reversed_erase b b' layers Hb s0 log)]
        end
    end.
    { intros i x s lg Hx. cbn beta zeta.
      destruct (list_index ids i) as [id|e]; cbn [mbind result_bind]; [|done].
      rewrite Forall_forall in IH. apply (IH x Hx). }
    destruct (for_enumerate_reversed _ layers (_, log)) as [[g2 lg]|e];
      cbn [mbind result_bind fst]; [|done].
    destruct (list_index ids 0) as [out|e]; cbn [mbind result_bind]; [|done].
    by destruct (assert_output (Some out) g2).
  - cbn [update_layer update_layer_log]. unfold next_y_position.
    destruct (update_network _ _ _ _ _) as [[o g2]|e]; cbn [mbind result_bind]; [|done].
    by destruct (assert_output o g2).
Qed.

Section Log.
Variable set_order : list Z → list Z.
Hypothesis set_order_spec : ∀ l, NoDup (set_order l) ∧ ∀ x, x ∈ set_order l ↔ x ∈ l.

Lemma calls_Folder_pos layers : (1 ≤ calls (Folder layers))%nat.
Proof. cbn [calls]. lia. Qed.

(** What a call appends to the log: one entry per folder and layer of the
    tree, with keys and Ys of their own, each the key and the Y of a wrapper
    of the mapping that the call leaves. *)
Lemma update_layer_log_spec d : ∀ indent lid nxt g log0 g' log,
  update_layer_log set_order d indent lid nxt (g, log0) = Ok (g', log) →
  lid < new_id g →
  ∃ added,
    log = (log0 ++ added)%list ∧ length added = calls d ∧
    NoDup added.*1 ∧ NoDup added.*2 ∧
    ∀ k y, (k, y) ∈ added →
      (k = lid ∨ new_id g ≤ k < new_id g') ∧
      (∃ n, (n < calls d)%nat ∧ y = y_position g + 3 * Z.of_nat n) ∧
      ∃ w, Dict.get k (new_nodes g') = Some w ∧ name w = "Layer" ∧ pos_y w = y.
Proof.
  induction d as [layers IH|nw] using data_tree_ind;
    intros indent lid nxt g log0 g' log Hrun Hlid.
  - cbn [update_layer_log] in Hrun. unfold next_y_position in Hrun.
    rewrite reserve_layer_ids_spec in Hrun. cbn [new_id y_position new_nodes] in Hrun.
    set (N := length layers) in *. set (ids := seqZ (new_id g) (Z.of_nat N)) in *.
    apply bind_Ok in Hrun as ([[output g2] lg2] & Hbody & Hrun).
    apply bind_Ok in Hrun as ([] & _ & [= <- <-]).
    apply bind_Ok in Hbody as ([g3 lg3] & Hloop & Hbody).
    apply bind_Ok in Hbody as (out & _ & [= <- <- <-]).
    apply (for_enumerate_reversed_suffix_inv _
             (λ r s,
                new_id g + Z.of_nat N + 1 ≤ new_id s.1 ∧
                y_position s.1 = y_position g + 3 * Z.of_nat (calls (Folder r)) ∧
                ∃ added,
                  s.2 = (log0 ++ added)%list ∧ S (length added) = calls (Folder r) ∧
                  NoDup added.*1 ∧ NoDup added.*2 ∧
                  ∀ k y, (k, y) ∈ added →
                    (new_id g ≤ k < new_id g + Z.of_nat (length r) ∨
                     new_id g + Z.of_nat N + 1 ≤ k < new_id s.1) ∧
                    (∃ n, (1 ≤ n < calls (Folder r))%nat ∧
                          y = y_position g + 3 * Z.of_nat n) ∧
                    ∃ w, Dict.get k (new_nodes s.1) = Some w ∧
                         name w = "Layer" ∧ pos_y w = y)) in Hloop.
    + cbn [fst snd] in Hloop.
      destruct Hloop as (Hid & Hy & added & -> & Hlen & Hnd1 & Hnd2 & Hall).
      exists (added ++ [(lid, y_position g)])%list.
      split; [by rewrite app_assoc|].
      split; [rewrite length_app; cbn [length]; lia|].
      split; [|split].
      * rewrite fmap_app. apply NoDup_app. split; [done|]. split; [|apply NoDup_singleton].
        intros k ([k0 y0] & -> & Hky)%list_elem_of_fmap Hin.
        apply list_elem_of_singleton in Hin. simpl in Hin.
        destruct (Hall _ _ Hky) as ([?|?] & _); lia.
      * rewrite fmap_app. apply NoDup_app. split; [done|]. split; [|apply NoDup_singleton].
        intros y ([k0 y0] & -> & Hky)%list_elem_of_fmap Hin.
        apply list_elem_of_singleton in Hin. simpl in Hin.
        destruct (Hall _ _ Hky) as (_ & (n & Hn & ->) & _). lia.
      * intros k y [Hky|Hky]%elem_of_app.
        -- destruct (Hall _ _ Hky) as (Hk & (n & Hn & ->) & w & Hget & Hname & Hpos).
           cbn [emit new_id new_nodes].
           split; [right; lia|]. split; [exists n; split; [lia|done]|].
           exists w. rewrite get_set_ne by lia. done.
        -- apply list_elem_of_singleton in Hky. injection Hky as -> ->.
           split; [by left|].
           split; [exists 0%nat; split; [apply calls_Folder_pos|lia]|].
           eexists. cbn [emit new_nodes]. rewrite get_set_eq. done.
    + cbn [fst snd new_id y_position]. split; [lia|]. split; [cbn [calls]; lia|].
      exists []. rewrite app_nil_r. split; [done|]. split; [done|].
      split; [constructor|]. split; [constructor|].
      intros k y Hky. by apply elem_of_nil in Hky.
    + intros x r [t lg] [t' lg'] Hsuf
        (Hid & Hy & added & Hlg & Hlen & Hnd1 & Hnd2 & Hall) Hcall.
      cbn [fst snd] in *.
      assert (Hr : (length r < N)%nat).
      { destruct Hsuf as [pre ->]. unfold N. rewrite length_app. simpl. lia. }
      apply suffix_cons_elem_of in Hsuf. rewrite Forall_forall in IH.
      cbn zeta in Hcall.
      apply bind_Ok in Hcall as (id & Hidx%list_index_Ok & Hcall).
      apply lookup_seqZ in Hidx as [-> _].
      pose proof (update_layer_log_erase set_order x (indent + 5)
                    (new_id g + Z.of_nat (length r))
                    (if bool_decide (length r + 1 < length ids)%nat
                     then ids !! (length r + 1)%nat else None) t lg) as Hplain.
      rewrite Hcall in Hplain. cbn [mbind result_bind fst] in Hplain.
      destruct (update_layer_counters set_order set_order_spec _ _ _ _ _ _ Hplain)
        as [Hy' _].
      pose proof (update_layer_keys set_order set_order_spec _ _ _ _ _ _ Hplain)
        as (Hmono & _ & _).
      pose proof (calls_Folder_pos r) as Hpos.
      destruct (IH x Hsuf _ _ _ _ _ _ _ Hcall)
        as (added' & Hlg' & Hlen' & Hnd1' & Hnd2' & Hall'); [lia|].
      split; [lia|]. split; [rewrite calls_Folder_cons; lia|].
      exists (added ++ added')%list.
      split; [subst; by rewrite app_assoc|].
      split; [rewrite length_app, calls_Folder_cons; lia|].
      split; [|split].
      * rewrite fmap_app. apply NoDup_app. split; [done|]. split; [|done].
        intros k ([k0 y0] & -> & Hky)%list_elem_of_fmap
          ([k1 y1] & Heq & Hky')%list_elem_of_fmap.
        simpl in Heq. subst k1.
        destruct (Hall _ _ Hky) as (Hk & _). destruct (Hall' _ _ Hky') as (Hk' & _).
        simpl in *. lia.
      * rewrite fmap_app. apply NoDup_app. split; [done|]. split; [|done].
        intros y ([k0 y0] & -> & Hky)%list_elem_of_fmap
          ([k1 y1] & Heq & Hky')%list_elem_of_fmap.
        simpl in Heq. subst y1.
        destruct (Hall _ _ Hky) as (_ & (n & Hn & Hyn) & _).
        destruct (Hall' _ _ Hky') as (_ & (m & Hm & Hym) & _).
        simpl in *. lia.
      * intros k y [Hky|Hky]%elem_of_app.
        -- destruct (Hall _ _ Hky) as (Hk & (n & Hn & ->) & w & Hget & Hname & Hpy).
           simpl length.
           split; [lia|]. split; [exists n; rewrite calls_Folder_cons; split; [lia|done]|].
           exists w. split; [|done]. rewrite <- Hget.
           apply (update_layer_frame set_order set_order_spec _ _ _ _ _ _ Hplain); lia.
        -- destruct (Hall' _ _ Hky) as (Hk & (m & Hm & ->) & w & Hget & Hname & Hpy).
           simpl length. split; [lia|]. split; [|eauto].
           exists (calls (Folder r) + m)%nat. rewrite calls_Folder_cons.
           split; [lia|lia].
  - cbn [update_layer_log] in Hrun. unfold next_y_position in Hrun.
    apply bind_Ok in Hrun as ([[output g2] lg2] & Hbody & Hrun).
    apply bind_Ok in Hrun as ([] & _ & [= <- <-]).
    apply bind_Ok in Hbody as ([o g3] & Hnet & [= <- <- <-]).
    exists [(lid, y_position g)]. split; [done|]. split; [done|].
    split; [apply NoDup_singleton|]. split; [apply NoDup_singleton|].
    intros k y Hky. apply list_elem_of_singleton in Hky. injection Hky as -> ->.
    split; [by left|]. split; [exists 0%nat; split; [cbn; lia|lia]|].
    eexists. cbn [emit new_nodes]. rewrite get_set_eq. done.
Qed.

End Log.

Section Orders.
Variables so1 so2 : list Z → list Z.
Hypothesis so1_spec : ∀ l, NoDup (so1 l) ∧ ∀ x, x ∈ so1 l ↔ x ∈ l.
Hypothesis so2_spec : ∀ l, NoDup (so2 l) ∧ ∀ x, x ∈ so2 l ↔ x ∈ l.

Lemma ids_drawn_order d : ids_drawn so1 d = ids_drawn so2 d.
Proof.
  induction d as [layers IH|nw] using data_tree_ind.
  - induction IH as [|x r Hx _ IHr]; [done|].
    by rewrite !ids_drawn_Folder_cons, Hx, IHr.
  - cbn [ids_drawn].
    rewrite (length_surviving so1 so1_spec), (length_surviving so2 so2_spec).
    f_equal.
    pose proof (dup_target_is_Some so1 so1_spec (nodes nw)) as Hd1.
    pose proof (dup_target_is_Some so2 so2_spec (nodes nw)) as Hd2.
    destruct (dup_target _ (surviving so1 _) _) as [z1|],
             (dup_target _ (surviving so2 _) _) as [z2|]; [done| | |done].
    + assert (is_Some (@None Z)) as [? ?]; [|done]. apply Hd2, Hd1. eauto.
    + assert (is_Some (@None Z)) as [? ?]; [|done]. apply Hd1, Hd2. eauto.
Qed.

Lemma emitted_order d : emitted so1 d = emitted so2 d.
Proof.
  induction d as [layers IH|nw] using data_tree_ind.
  - induction IH as [|x r Hx _ IHr]; [done|].
    by rewrite !emitted_Folder_cons, Hx, IHr.
  - cbn [emitted]. by rewrite ids_drawn_order.
Qed.

(** From states with the same keys and the same next id, the two calls end
    in states with the same keys. *)
Lemma update_layer_keys_order d : ∀ indent lid nxt t1 t2 t1' t2',
  update_layer so1 d indent lid nxt t1 = Ok t1' →
  update_layer so2 d indent lid nxt t2 = Ok t2' →
  new_id t1 = new_id t2 →
  (∀ k, k ∈ Dict.keys (new_nodes t1) ↔ k ∈ Dict.keys (new_nodes t2)) →
  ∀ k, k ∈ Dict.keys (new_nodes t1') ↔ k ∈ Dict.keys (new_nodes t2').
Proof.
  induction d as [layers IH|nw] using data_tree_ind;
    intros indent lid nxt t1 t2 t1' t2' Hrun1 Hrun2 Hid Hkeys k.
  - apply update_layer_Folder_Ok in Hrun1 as (u1 & out1 & Hloop1 & _ & _ & ->).
    apply update_layer_Folder_Ok in Hrun2 as (u2 & out2 & Hloop2 & _ & _ & ->).
    cbn [emit new_nodes]. rewrite !keys_set.
    rewrite <- Hid in Hloop2.
    assert (Hrel : new_id u1 = new_id u2 ∧
                   ∀ k, k ∈ Dict.keys (new_nodes u1) ↔ k ∈ Dict.keys (new_nodes u2)).
    { refine (for_enumerate_reversed_rel _ _
                (λ v1 v2, new_id v1 = new_id v2 ∧
                          ∀ k, k ∈ Dict.keys (new_nodes v1)
                               ↔ k ∈ Dict.keys (new_nodes v2))
                _ _ _ _ _ _ _ Hloop1 Hloop2).
      - cbn. split; [done|exact Hkeys].
      - intros i x v1 v2 v1' v2' Hx [Hv Hvk] (id1 & Hid1 & Hc1)%child_call_Ok
          (id2 & Hid2 & Hc2)%child_call_Ok.
        assert (id2 = id1) as -> by congruence.
        rewrite Forall_forall in IH. split.
        + destruct (update_layer_counters so1 so1_spec _ _ _ _ _ _ Hc1) as [_ ->].
          destruct (update_layer_counters so2 so2_spec _ _ _ _ _ _ Hc2) as [_ ->].
          by rewrite ids_drawn_order, Hv.
        + by apply (IH x Hx _ _ _ _ _ _ _ Hc1 Hc2). }
    destruct Hrel as [_ Hk]. by rewrite Hk.
  - destruct (update_layer_counters so1 so1_spec _ _ _ _ _ _ Hrun1) as [_ Hn1].
    destruct (update_layer_counters so2 so2_spec _ _ _ _ _ _ Hrun2) as [_ Hn2].
    apply update_layer_Layer_Ok in Hrun1 as (o1 & u1 & Hnet1 & _ & ->).
    apply update_layer_Layer_Ok in Hrun2 as (o2 & u2 & Hnet2 & _ & ->).
    cbn [emit new_nodes new_id] in *. rewrite !keys_set.
    rewrite (network_keys_block so1 so1_spec _ _ _ _ _ _ k Hnet1).
    rewrite (network_keys_block so2 so2_spec _ _ _ _ _ _ k Hnet2).
    cbn [next_y_position snd new_id new_nodes].
    rewrite Hn1, Hn2, ids_drawn_order, Hkeys, Hid. done.
Qed.

End Orders.
End CoverageFacts.

(** * The properties of the specification: the two generators *)
Module GeneratorSpec.
Import Upgrade DictFacts ResultFacts GeneratorFacts NodeFacts LoopFacts LayerFacts.
Import TreeFacts TreeSpec CoverageFacts Samples.

Section Spec.
Variable set_order : list Z → list Z.
Hypothesis set_order_spec : ∀ l, NoDup (set_order l) ∧ ∀ x, x ∈ set_order l ↔ x ∈ l.

(** C8: from the state that [migrate] starts in, the [n]-th id drawn is
    [42 + n] and the [n]-th vertical position is [7 + 3 n]; an id drawn is not
    yet a key of the mapping, all of whose keys are below the generator, and
    the traversal keeps it so; every call stores under its [layer_node_id] a
    node named ["Layer"] at [(-indent, y)], [y] being the value that the
    generator held when the call was entered, and leaves the generator beyond
    it.  The wrappers of a run are the entries of the log of
    [update_layer_log], which is [update_layer] but for the log: there is one
    per folder and layer of the tree, no two have the same key, no two have
    the same Y, and each is, in the mapping that the run leaves, a node named
    ["Layer"] at the Y logged, which is [3 n] above the Y of the root for some
    [n] below the number of calls.  So it is in every migrated document,
    whatever the names of the legacy nodes: its keys are 0 and ids drawn, and
    its wrappers have Ys of the form [7 + 3 n], each its own. *)
Theorem generators_are_fresh_and_distinct :
  let start := {| new_id := gen_id; y_position := gen_y; new_nodes := [] |} in
  (∀ n, (next_new_id (Nat.iter n (λ s, (next_new_id s).2) start)).1
        = 42 + Z.of_nat n) ∧
  (∀ n, (next_y_position (Nat.iter n (λ s, (next_y_position s).2) start)).1
        = 7 + 3 * Z.of_nat n) ∧
  (∀ g, keys_below g →
        ((next_new_id g).1 ∉ Dict.keys (new_nodes g)) ∧ keys_below (next_new_id g).2) ∧
  (∀ d indent lid nxt g g',
     update_layer set_order d indent lid nxt g = Ok g' →
     lid < new_id g → keys_below g → keys_below g') ∧
  (∀ d indent lid nxt g g',
     update_layer set_order d indent lid nxt g = Ok g' →
     y_position g < y_position g' ∧
     ∃ w, Dict.get lid (new_nodes g') = Some w ∧
          name w = "Layer" ∧ position w = (- indent, y_position g)) ∧
  (∀ d indent lid nxt g log0,
     update_layer set_order d indent lid nxt g
     = (r ← update_layer_log set_order d indent lid nxt (g, log0); Ok r.1)) ∧
  (∀ d indent lid nxt g g' log,
     update_layer_log set_order d indent lid nxt (g, []) = Ok (g', log) →
     lid < new_id g →
     length log = calls d ∧ NoDup log.*1 ∧ NoDup log.*2 ∧
     ∀ k y, (k, y) ∈ log →
       (∃ n, (n < calls d)%nat ∧ y = y_position g + 3 * Z.of_nat n) ∧
       ∃ w, Dict.get k (new_nodes g') = Some w ∧ name w = "Layer" ∧ pos_y w = y) ∧
  (∀ root_data g0 doc g',
     migrate set_order root_data g0 = Ok (doc, g') →
     (∀ k, k ∈ Dict.keys (network_nodes (network_of doc)) →
           k = 0 ∨ 42 ≤ k < new_id g') ∧
     ∃ g2 log,
       update_layer_log set_order root_data 0 42 None ((next_new_id start).2, [])
       = Ok (g2, log) ∧
       network_nodes (network_of doc) = Dict.set 0 root_output_node (new_nodes g2) ∧
       length log = calls root_data ∧
       (∀ k y, (k, y) ∈ log →
          (∃ n, (n < calls root_data)%nat ∧ y = 7 + 3 * Z.of_nat n) ∧
          ∃ w, Dict.get k (network_nodes (network_of doc)) = Some w ∧
               name w = "Layer" ∧ pos_y w = y) ∧
       (∀ i j k1 y1 k2 y2, i ≠ j →
          log !! i = Some (k1, y1) → log !! j = Some (k2, y2) →
          k1 ≠ k2 ∧ y1 ≠ y2)).
Proof.
  intros start. split; [intros n; by rewrite nth_new_id|].
  split; [intros n; by rewrite nth_y_position|].
  split; [|split; [|split; [|split; [|split]]]].
  - intros g Hg. split.
    + intros Hin%Hg. cbn in Hin. lia.
    + intros k Hin%Hg. cbn. lia.
  - intros d indent lid nxt g g' Hrun Hlid Hg k Hin.
    apply (update_layer_keys set_order set_order_spec) in Hrun as (Hid & _ & Hk).
    destruct (Hk k Hin) as [Hold%Hg|[->|?]]; lia.
  - intros d indent lid nxt g g' Hrun. split.
    + by apply (update_layer_keys set_order set_order_spec) in Hrun as (_ & ? & _).
    + destruct (update_layer_wrapper set_order set_order_spec _ _ _ _ _ _ Hrun)
        as (out & Hget & _).
      eexists. split; [exact Hget|]. done.
  - intros d indent lid nxt g log0. apply update_layer_log_erase.
  - intros d indent lid nxt g g' log Hrun Hlid.
    destruct (update_layer_log_spec set_order set_order_spec _ _ _ _ _ _ _ _ Hrun Hlid)
      as (added & -> & Hlen & Hnd1 & Hnd2 & Hall).
    rewrite app_nil_l. do 3 (split; [done|]).
    intros k y Hky. by destruct (Hall k y Hky) as (_ & Hy & Hw).
  - intros root_data g0 doc g'. rewrite migrate_unfold.
    intros (g2 & Hrun & [= <- <-])%bind_Ok.
    cbn [assemble network_of network_nodes emit new_nodes new_id]. split.
    + intros k [->|Hin]%keys_set; [by left|]. right.
      apply (update_layer_keys set_order set_order_spec) in Hrun as (Hid & _ & Hk).
      cbn in Hid, Hk. destruct (Hk k Hin) as [Hnil|[->|?]]; [|lia..].
      by apply elem_of_nil in Hnil.
    + pose proof (update_layer_log_erase set_order root_data 0 42 None
                    {| new_id := 43; y_position := 7; new_nodes := [] |} []) as Herase.
      rewrite Hrun in Herase.
      destruct (update_layer_log set_order root_data 0 42 None
                  ({| new_id := 43; y_position := 7; new_nodes := [] |}, []))
        as [[g3 log]|e] eqn:Hlog; [|done].
      cbn [mbind result_bind fst] in Herase. injection Herase as ->.
      destruct (update_layer_log_spec set_order set_order_spec _ _ _ _ _ _ _ _ Hlog)
        as (added & -> & Hlen & Hnd1 & Hnd2 & Hall); [done|].
      rewrite app_nil_l in *. cbn [new_id y_position] in Hall.
      exists g3, added. split; [exact Hlog|]. split; [done|]. split; [done|]. split.
      * intros k y Hky.
        destruct (Hall k y Hky) as (Hk & Hy & w & Hget & Hname & Hpy).
        split; [done|]. exists w. rewrite get_set_ne by lia. done.
      * intros i j k1 y1 k2 y2 Hne H1 H2. split; intros ->; apply Hne.
        -- apply (NoDup_lookup _ i j k2 Hnd1); rewrite list_lookup_fmap.
           ++ by rewrite H1.
           ++ by rewrite H2.
        -- apply (NoDup_lookup _ i j y2 Hnd2); rewrite list_lookup_fmap.
           ++ by rewrite H1.
           ++ by rewrite H2.
Qed.

End Spec.

(** The wrappers of a document one of whose legacy nodes is itself named
    ["Layer"]: that node shares the Y of the wrapper of its layer, and the
    three wrappers have the Ys 10, 13 and 7. *)
Lemma generators_are_fresh_and_distinct_witness :
  ∃ doc g' g2 legacy wrapper,
    migrate insertion_order layer_named_document start = Ok (doc, g') ∧
    update_layer_log insertion_order layer_named_document 0 42 None
      ({| new_id := 43; y_position := 7; new_nodes := [] |}, [])
    = Ok (g2, [(43, 10); (44, 13); (42, 7)]) ∧
    Dict.get 47 (network_nodes (network_of doc)) = Some legacy ∧
    Dict.get 44 (network_nodes (network_of doc)) = Some wrapper ∧
    name legacy = "Layer" ∧ name wrapper = "Layer" ∧
    pos_y legacy = 13 ∧ pos_y wrapper = 13 ∧
    ∀ i j k1 y1 k2 y2, i ≠ j →
      [(43, 10); (44, 13); (42, 7)] !! i = Some (k1, y1) →
      [(43, 10); (44, 13); (42, 7)] !! j = Some (k2, y2) →
      k1 ≠ k2 ∧ y1 ≠ y2.
Proof.
  destruct (migrate insertion_order layer_named_document start)
    as [[doc g']|e] eqn:Hrun; [|vm_compute in Hrun; discriminate Hrun].
  destruct (generators_are_fresh_and_distinct insertion_order
              SampleFacts.insertion_order_spec) as (_ & _ & _ & _ & _ & _ & _ & Hdoc).
  destruct (Hdoc layer_named_document start doc g' Hrun)
    as (_ & g2 & log & Hlog & _ & _ & _ & Hdistinct).
  assert (Hlog' : update_layer_log insertion_order layer_named_document 0 42 None
                    ({| new_id := 43; y_position := 7; new_nodes := [] |}, [])
                  = Ok (g2, log)) by exact Hlog.
  assert (Heq : log = [(43, 10); (44, 13); (42, 7)]).
  { clear -Hlog'. vm_compute in Hlog'. by injection Hlog' as _ <-. }
  subst log.
  vm_compute in Hrun. injection Hrun as <- <-.
  eexists _, _, g2, _, _. split; [reflexivity|]. split; [exact Hlog'|].
  split; [vm_compute; reflexivity|]. split; [vm_compute; reflexivity|].
  do 4 (split; [reflexivity|]). exact Hdistinct.
Defined.

End GeneratorSpec.

(** * Further properties: failure, framing and the shape of the result *)
Module Coverage.
Import Upgrade DictFacts ResultFacts GeneratorFacts NodeFacts LoopFacts LayerFacts.
Import TreeFacts CoverageFacts Samples.

(** X8.  The renumbering of the inputs of a node keeps their number, their
    order and every input that is no ["Node"] reference; of a reference it
    changes the [node_id] alone, to the entry of the table.  It raises
    [KeyError], and nothing else, exactly when some reference is to an id
    that the table does not hold. *)
Theorem renumbering_changes_only_node_ids (new_ids : gmap Z Z) (l : list node_input) :
  (∀ ins, map_result (rewrite_input new_ids) l = Ok ins →
     length ins = length l ∧
     ∀ i a, l !! i = Some a →
       match a with
       | Node id oi lam =>
           ∃ new, new_ids !! id = Some new ∧ ins !! i = Some (Node new oi lam)
       | _ => ins !! i = Some a
       end) ∧
  (∀ e, map_result (rewrite_input new_ids) l = Raise e →
     e = KeyError ∧ ∃ id oi lam, Node id oi lam ∈ l ∧ new_ids !! id = None) ∧
  ((∃ ins, map_result (rewrite_input new_ids) l = Ok ins) ↔
   ∀ id oi lam, Node id oi lam ∈ l → is_Some (new_ids !! id)).
Proof.
  split; [|split; [|apply map_result_rewrite_Ok]].
  - induction l as [|a r IH]; intros ins Hmap.
    + injection Hmap as <-. split; [done|]. intros i a Hi. done.
    + simpl in Hmap. apply bind_Ok in Hmap as (a' & Ha & Hmap).
      apply bind_Ok in Hmap as (r' & Hr & [= <-]).
      destruct (IH r' Hr) as [Hlen Hat]. split; [simpl; by rewrite Hlen|].
      intros [|i] b Hb; simpl in Hb.
      * injection Hb as <-. destruct a as [id oi lam| |]; simpl in Ha.
        -- apply bind_Ok in Ha as (new & Hnew%map_index_Ok & [= <-]). eauto.
        -- by injection Ha as <-.
        -- by injection Ha as <-.
      * by apply Hat.
  - induction l as [|a r IH]; intros e Hmap; [done|].
    simpl in Hmap. apply bind_Raise in Hmap as [Ha|(a' & Ha & Hmap)].
    + destruct a as [id oi lam| |]; [|done..]. simpl in Ha. unfold map_index in Ha.
      destruct (new_ids !! id) eqn:Hid; [done|]. injection Ha as <-.
      split; [done|]. exists id, oi, lam. split; [apply elem_of_cons; by left|done].
    + apply bind_Raise in Hmap as [Hr|(r' & _ & ?)]; [|done].
      destruct (IH e Hr) as (-> & id & oi & lam & Hin & Hid).
      split; [done|]. exists id, oi, lam. split; [apply elem_of_cons; by right|done].
Qed.

Section Properties.
Variable set_order : list Z → list Z.
Hypothesis set_order_spec : ∀ l, NoDup (set_order l) ∧ ∀ x, x ∈ set_order l ↔ x ∈ l.

(** X1.  A call of [update_layer], and so a run of [migrate], returns
    exactly on the well-formed trees: every folder has a layer, the declared
    output of every network names a node whose first input refers to a node
    not named ["Output"], and so does every reference held by a node not named
    ["Output"].  On every other tree it raises. *)
Theorem update_layer_returns_iff_well_formed d indent lid nxt g g0 :
  ((∃ g', update_layer set_order d indent lid nxt g = Ok g') ↔ well_formed d) ∧
  ((∃ doc g', migrate set_order d g0 = Ok (doc, g')) ↔ well_formed d).
Proof.
  split; [by apply update_layer_succeeds_iff|].
  rewrite <- (update_layer_succeeds_iff set_order set_order_spec d 0 42 None
                {| new_id := 43; y_position := 7; new_nodes := [] |}).
  rewrite migrate_unfold. split.
  - intros (doc & g' & (g2 & Hrun & _)%bind_Ok). eauto.
  - intros (g2 & ->). cbn [mbind result_bind]. eauto.
Qed.

(** X2.  A call writes under its own key and under ids that it draws, and
    nowhere else: every other entry of [new_nodes] is after the call what it
    was before.  When all keys came out of the generator, every entry present
    before the call, but the one under the key of the call, is kept. *)
Theorem update_layer_leaves_other_entries d indent lid nxt g g' :
  update_layer set_order d indent lid nxt g = Ok g' →
  (∀ k, k ≠ lid → ¬ (new_id g ≤ k < new_id g') →
        Dict.get k (new_nodes g') = Dict.get k (new_nodes g)) ∧
  (keys_below g →
   ∀ k n, k ≠ lid → Dict.get k (new_nodes g) = Some n →
          Dict.get k (new_nodes g') = Some n).
Proof.
  intros Hrun.
  pose proof (update_layer_frame set_order set_order_spec _ _ _ _ _ _ Hrun) as Hfr.
  split; [exact Hfr|]. intros Hbelow k n Hk Hget.
  rewrite Hfr; [done|done|].
  assert (k < new_id g); [|lia]. apply Hbelow, get_Some_keys. eauto.
Qed.

(** X4.  What a call draws from the two generators: one vertical position
    per folder and layer of the tree, three apart, and one id per layer of a
    folder and one more, per surviving node of a network, and per duplicated
    ["Shape"].  A run of [migrate] ends with the generators at these counts
    from 7 and from 43. *)
Theorem generators_advance_by_the_tree d indent lid nxt g g' :
  update_layer set_order d indent lid nxt g = Ok g' →
  y_position g' = y_position g + 3 * Z.of_nat (calls d) ∧
  new_id g' = new_id g + Z.of_nat (ids_drawn set_order d) ∧
  ∀ g0 doc g1, migrate set_order d g0 = Ok (doc, g1) →
    y_position g1 = 7 + 3 * Z.of_nat (calls d) ∧
    new_id g1 = 43 + Z.of_nat (ids_drawn set_order d).
Proof.
  intros Hrun.
  destruct (update_layer_counters set_order set_order_spec _ _ _ _ _ _ Hrun) as [Hy Hid].
  split; [done|]. split; [done|].
  intros g0 doc g1 Hm. rewrite migrate_unfold in Hm.
  apply bind_Ok in Hm as (g2 & Hroot & [= _ <-]).
  by destruct (update_layer_counters set_order set_order_spec _ _ _ _ _ _ Hroot).
Qed.

(** X6.  The root of a migrated document: key 0, the declared output of
    the document, holds the ["Output"] node; its first input refers to 42,
    the key of the wrapper of the root of the legacy tree, which sits at
    indent 0 and Y 7, has no layer below, and refers to a node of the
    document. *)
Theorem migrated_root_nodes root_data g0 doc g' :
  migrate set_order root_data g0 = Ok (doc, g') →
  ∃ out,
    Dict.get 0 (network_nodes (network_of doc)) = Some root_output_node ∧
    inputs root_output_node !! 0%nat = Some (Node 42 0 false) ∧
    Dict.get 42 (network_nodes (network_of doc))
    = Some (layer_node 0 7 (Some out) None) ∧
    inputs (layer_node 0 7 (Some out) None) !! 0%nat = Some (Node out 0 false) ∧
    43 ≤ out ∧ out ∈ Dict.keys (network_nodes (network_of doc)) ∧
    network_outputs (network_of doc)
    = [ {| output_node_id := 0; node_output_index := 0 |} ].
Proof.
  rewrite migrate_unfold. intros (g2 & Hrun & [= <- <-])%bind_Ok.
  destruct (update_layer_wrapper set_order set_order_spec _ _ _ _ _ _ Hrun)
    as (out & Hget & Hout & Hin).
  cbn [new_id y_position new_nodes] in Hget, Hout.
  exists out. cbn [assemble network_of network_nodes network_outputs emit new_nodes].
  split; [apply get_set_eq|]. split; [done|].
  split; [by rewrite get_set_ne|].
  split.
  { cbn [layer_node inputs node_to_input]. destruct (Z.eqb_spec out 0); [lia|done]. }
  split; [lia|]. split; [apply keys_set; by right|done].
Qed.

(** X7.  The only node of a migrated document that is named ["Output"] is
    the root under key 0: the ["Output"] nodes of the legacy networks are
    dropped. *)
Theorem migrated_document_has_one_output root_data g0 doc g' k n :
  migrate set_order root_data g0 = Ok (doc, g') →
  Dict.get k (network_nodes (network_of doc)) = Some n →
  name n = "Output" →
  k = 0 ∧ n = root_output_node.
Proof.
  rewrite migrate_unfold. intros (g2 & Hrun & [= <- <-])%bind_Ok.
  cbn [assemble network_of network_nodes emit new_nodes].
  rewrite get_set. case_decide as Hk; [by intros [= <-]|].
  intros Hget Hname.
  by pose proof (update_layer_outputs set_order set_order_spec _ _ _ _ _ _ _ _
                   Hrun Hget Hname).
Qed.

(** X9.  The table [new_ids] of a layer numbers the nodes not named
    ["Output"]: it is defined on them alone, one to one, and onto the block of
    ids drawn for it, whose length is the number of these nodes.  Which node
    gets which id depends on the order of the set; the block does not. *)
Theorem new_ids_number_the_survivors nw g :
  let new_ids := layer_new_ids set_order nw g in
  let N := Z.of_nat (size (filter (λ kn : Z * document_node, name kn.2 ≠ "Output")
                             (nodes nw))) in
  (∀ x, is_Some (new_ids !! x) ↔ survives (nodes nw) x) ∧
  (∀ x v, new_ids !! x = Some v → new_id g ≤ v < new_id g + N) ∧
  (∀ v, new_id g ≤ v < new_id g + N → ∃ x, new_ids !! x = Some v) ∧
  (∀ x x' v, new_ids !! x = Some v → new_ids !! x' = Some v → x = x') ∧
  new_id (zip_new_id (surviving set_order (nodes nw)) g).2 = new_id g + N.
Proof.
  intros new_ids N. unfold N. rewrite <- (length_surviving set_order set_order_spec).
  split; [intros x; by apply layer_new_ids_is_Some|].
  split; [intros x v Hv;
          by apply (layer_new_ids_range set_order set_order_spec) in Hv as [_ ?]|].
  split.
  { intros v Hv.
    destruct (layer_new_ids_onto set_order set_order_spec nw g v Hv) as (x & _ & Hx).
    eauto. }
  split; [intros x x' v; by apply (layer_new_ids_inj set_order set_order_spec)|].
  by rewrite zip_new_id_spec.
Qed.

(** X3.  The wrappers of the layers of a folder form a stack.  The folder
    refers to the first id it reserved, which is the key of the wrapper of the
    LAST layer of the list; the wrapper of the layer at position [p] sits
    under the id reserved at index [N - 1 - p], one indentation step of 5
    further in, and refers to the wrapper of the layer before it in the list;
    the wrapper of the first layer has no layer below.  Its Y is the value of
    the generator once the folder and the layers after it in the list have
    drawn theirs. *)
Theorem folder_layers_form_a_stack layers indent lid nxt g g' :
  lid < new_id g →
  update_layer set_order (Folder layers) indent lid nxt g = Ok g' →
  let N := length layers in
  Dict.get lid (new_nodes g')
  = Some (layer_node indent (y_position g) (Some (new_id g)) nxt) ∧
  ∀ p child, layers !! p = Some child →
    ∃ out,
      Dict.get (new_id g + Z.of_nat (N - 1 - p)) (new_nodes g')
      = Some (layer_node (indent + 5)
                (y_position g + 3 * Z.of_nat (calls (Folder (drop (S p) layers))))
                (Some out)
                (if decide (p = 0%nat) then None
                 else Some (new_id g + Z.of_nat (N - p)))) ∧
      new_id g + Z.of_nat N < out ∧ out ∈ Dict.keys (new_nodes g').
Proof.
  intros Hlid Hrun N.
  apply update_layer_Folder_Ok in Hrun as (g2 & out & Hloop & Hout & _ & ->).
  apply lookup_seqZ in Hout as [-> _]. cbn [emit new_nodes].
  replace (new_id g + Z.of_nat 0) with (new_id g) by lia.
  split; [apply get_set_eq|].
  intros p child Hp.
  destruct (folder_loop_wrappers set_order set_order_spec _ _ _ _ Hloop p child Hp)
    as (o & Hget & Ho & Hin).
  apply lookup_lt_Some in Hp. fold N in Hp, Hget, Ho.
  exists o. rewrite get_set_ne by lia. rewrite Hget.
  split; [|split; [done|apply keys_set; by right]].
  do 2 f_equal. case_decide as Hp0.
  - subst p. apply lookup_seqZ_ge. lia.
  - apply lookup_seqZ_lt. lia.
Qed.

(** X10.  A call only appends to [new_nodes]: when the keys present came
    out of the generator and the key of the call is not among them, the
    entries present keep their place and value, the entries of the call follow
    them, and the wrapper of the call comes last; the call adds one entry per
    folder and layer of the tree, per surviving node, and per duplicated
    ["Shape"].  A migrated document so ends with the wrapper of the root under
    42 and the ["Output"] node under 0. *)
Theorem update_layer_only_appends d indent lid nxt g g' :
  keys_below g → lid < new_id g → lid ∉ Dict.keys (new_nodes g) →
  update_layer set_order d indent lid nxt g = Ok g' →
  (∃ added out,
     new_nodes g'
     = (new_nodes g ++ added
        ++ [(lid, layer_node indent (y_position g) (Some out) nxt)])%list ∧
     S (length added) = emitted set_order d) ∧
  ∀ g0 doc g1, migrate set_order d g0 = Ok (doc, g1) →
    ∃ added out,
      network_nodes (network_of doc)
      = (added ++ [(42, layer_node 0 7 (Some out) None); (0, root_output_node)])%list ∧
      length (network_nodes (network_of doc)) = S (emitted set_order d).
Proof.
  intros Hbelow Hlid Hnew Hrun.
  split; [by apply (update_layer_appends set_order set_order_spec)|].
  intros g0 doc g1. rewrite migrate_unfold.
  intros (g2 & Hroot & [= <- <-])%bind_Ok.
  pose proof (update_layer_keys set_order set_order_spec _ _ _ _ _ _ Hroot)
    as (_ & _ & Hkeys).
  apply (update_layer_appends set_order set_order_spec) in Hroot
    as (added & out & Happ & Hlen).
  - cbn [new_id y_position new_nodes] in Happ, Hkeys.
    cbn [assemble network_of network_nodes emit new_nodes].
    rewrite set_fresh.
    + rewrite Happ. exists added, out. rewrite app_nil_l, <- app_assoc.
      split; [done|]. rewrite !length_app. simpl length. lia.
    + intros H0.
      destruct (Hkeys 0 H0) as [H|[H|H]]; [by apply elem_of_nil in H|done|lia].
  - intros k Hk. by apply elem_of_nil in Hk.
  - done.
  - intros Hk. by apply elem_of_nil in Hk.
Qed.

(** X5.  A folder leaves a hole in the ids: the id that its reservation
    draws after the ids of its layers is below the generator after the call
    and is the key of no node. *)
Theorem folder_leaves_an_unused_id layers indent lid nxt g g' :
  keys_below g → lid < new_id g →
  update_layer set_order (Folder layers) indent lid nxt g = Ok g' →
  let dropped := new_id g + Z.of_nat (length layers) in
  dropped < new_id g' ∧ dropped ∉ Dict.keys (new_nodes g').
Proof.
  intros Hbelow Hlid Hrun dropped.
  apply update_layer_Folder_Ok in Hrun as (g2 & out & Hloop & _ & _ & ->).
  cbn [emit new_id new_nodes].
  apply (for_enumerate_reversed_inv _
           (λ _ s, dropped < new_id s ∧ dropped ∉ Dict.keys (new_nodes s))) in Hloop.
  - destruct Hloop as [Hlt Hnot]. split; [done|].
    rewrite keys_set. intros [?|?]; [unfold dropped in *; lia|done].
  - cbn. split; [unfold dropped; lia|].
    intros Hin. specialize (Hbelow _ Hin). unfold dropped in Hbelow. lia.
  - intros x r t t' Hx Hr [Hlt Hnot] (id & Hid & Hcall)%child_call_Ok.
    destruct (update_layer_keys set_order set_order_spec _ _ _ _ _ _ Hcall)
      as (Hmono & _ & Hkeys).
    apply lookup_seqZ in Hid as [-> Hi].
    split; [lia|]. intros Hin.
    destruct (Hkeys _ Hin) as [?|[?|?]]; [done|unfold dropped in *; lia|lia].
Qed.

(** X12.  References never leave a layer: every node that a call on a
    ["Layer"] emits under an id it drew refers only to ids drawn by the same
    call, and each of them is the key of an emitted node. *)
Theorem layer_references_stay_in_the_layer nw indent lid nxt g g' k e id :
  keys_below g → lid < new_id g →
  update_layer set_order (Layer nw) indent lid nxt g = Ok g' →
  new_id g ≤ k < new_id g' →
  Dict.get k (new_nodes g') = Some e →
  id ∈ node_refs e →
  new_id g ≤ id < new_id g' ∧ id ∈ Dict.keys (new_nodes g').
Proof.
  intros Hbelow Hlid Hrun Hk Hget Hid.
  apply update_layer_Layer_Ok in Hrun as (output & g2 & Hnet & _ & ->).
  cbn [emit new_id new_nodes] in *. rewrite get_set_ne in Hget by lia.
  pose proof (network_keys_block set_order set_order_spec _ _ _ _ _ _ id Hnet) as Hkeys.
  cbn [next_y_position snd new_id new_nodes] in Hkeys.
  enough (new_id g ≤ id < new_id g2) as Hin.
  { split; [done|]. apply keys_set. right. apply Hkeys. by right. }
  assert (Hblock : ∀ old, layer_new_ids set_order nw (next_y_position g).2 !! old
                          = Some id → new_id g ≤ id < new_id g2).
  { intros old Hold.
    apply (layer_new_ids_range set_order set_order_spec) in Hold as [_ Hold].
    apply (update_network_spec set_order set_order_spec) in Hnet
      as (_ & _ & _ & _ & _ & _ & _ & _ & _ & _ & _ & Hnew & _).
    cbn [next_y_position snd new_id] in Hold, Hnew.
    destruct (dup_target _ _ _); lia. }
  destruct (update_network_emitted set_order set_order_spec _ _ _ _ _ _ _ _
              Hnet Hk Hget) as (x & n & ins & on & Hn & Hins & [->|[[-> Hc]| ->]]).
  - rewrite (node_refs_inputs _ (renumbered ins n)) in Hid by done.
    unfold node_refs in Hid. rewrite inputs_renumbered in Hid.
    destruct (rewrite_input_refs _ _ _ _ Hins Hid) as (old & Hold). eauto.
  - apply list_elem_of_singleton in Hid as ->.
    apply get_Some_keys, (network_keys_block set_order set_order_spec _ _ _ _ _ _ _ Hnet)
      in Hc.
    cbn [next_y_position snd new_id new_nodes] in Hc.
    destruct Hc as [Hold|?]; [|done]. specialize (Hbelow _ Hold). lia.
  - rewrite (node_refs_inputs _ (renumbered ins n)) in Hid by done.
    unfold node_refs in Hid. rewrite inputs_renumbered in Hid.
    destruct (rewrite_input_refs _ _ _ _ Hins Hid) as (old & Hold). eauto.
Qed.

End Properties.

(** X11.  What does not depend on the order in which Python iterates the
    set of node keys: under any two orders, a call returns under the one iff
    it returns under the other, and then leaves the generators at the same
    values and [new_nodes] with the same keys; two migrated documents of the
    same tree have the same keys and the same number of nodes.  (Which node
    of a network gets which of these keys does depend on the order.) *)
Theorem keys_do_not_depend_on_set_order (so1 so2 : list Z → list Z)
    (so1_spec : ∀ l, NoDup (so1 l) ∧ ∀ x, x ∈ so1 l ↔ x ∈ l)
    (so2_spec : ∀ l, NoDup (so2 l) ∧ ∀ x, x ∈ so2 l ↔ x ∈ l)
    (d : data) (indent lid : Z) (nxt : option Z) (g : globals) :
  ((∃ g1, update_layer so1 d indent lid nxt g = Ok g1) ↔
   (∃ g2, update_layer so2 d indent lid nxt g = Ok g2)) ∧
  (∀ g1 g2,
     update_layer so1 d indent lid nxt g = Ok g1 →
     update_layer so2 d indent lid nxt g = Ok g2 →
     new_id g1 = new_id g2 ∧ y_position g1 = y_position g2 ∧
     ∀ k, k ∈ Dict.keys (new_nodes g1) ↔ k ∈ Dict.keys (new_nodes g2)) ∧
  (∀ g0 doc1 g1 doc2 g2,
     migrate so1 d g0 = Ok (doc1, g1) → migrate so2 d g0 = Ok (doc2, g2) →
     (∀ k, k ∈ Dict.keys (network_nodes (network_of doc1))
           ↔ k ∈ Dict.keys (network_nodes (network_of doc2))) ∧
     length (network_nodes (network_of doc1))
     = length (network_nodes (network_of doc2))).
Proof.
  split; [|split].
  - by rewrite (update_layer_succeeds_iff so1 so1_spec),
               (update_layer_succeeds_iff so2 so2_spec).
  - intros g1 g2 Hrun1 Hrun2.
    destruct (update_layer_counters so1 so1_spec _ _ _ _ _ _ Hrun1) as [-> ->].
    destruct (update_layer_counters so2 so2_spec _ _ _ _ _ _ Hrun2) as [-> ->].
    rewrite (ids_drawn_order so1 so2 so1_spec so2_spec).
    split; [done|]. split; [done|].
    by apply (update_layer_keys_order so1 so2 so1_spec so2_spec _ _ _ _ _ _ _ _
                Hrun1 Hrun2).
  - intros g0 doc1 g1 doc2 g2. rewrite !migrate_unfold.
    intros (u1 & Hrun1 & [= <- <-])%bind_Ok (u2 & Hrun2 & [= <- <-])%bind_Ok.
    cbn [assemble network_of network_nodes emit new_nodes]. split.
    + intros k. rewrite !keys_set.
      by rewrite (update_layer_keys_order so1 so2 so1_spec so2_spec _ _ _ _ _ _ _ _
                    Hrun1 Hrun2 eq_refl (λ k, reflexivity _) k).
    + pose proof (update_layer_keys so1 so1_spec _ _ _ _ _ _ Hrun1) as (_ & _ & Hk1).
      pose proof (update_layer_keys so2 so2_spec _ _ _ _ _ _ Hrun2) as (_ & _ & Hk2).
      apply (update_layer_appends so1 so1_spec) in Hrun1
        as (a1 & o1 & Happ1 & Hlen1);
        [|by intros k ?%elem_of_nil|done|by intros ?%elem_of_nil].
      apply (update_layer_appends so2 so2_spec) in Hrun2
        as (a2 & o2 & Happ2 & Hlen2);
        [|by intros k ?%elem_of_nil|done|by intros ?%elem_of_nil].
      cbn [new_id new_nodes] in Hk1, Hk2.
      rewrite !set_fresh.
      * rewrite Happ1, Happ2, !length_app. simpl length.
        rewrite (emitted_order so1 so2 so1_spec so2_spec) in Hlen1. lia.
      * intros H0. destruct (Hk2 0 H0) as [H|[H|H]];
          [by apply elem_of_nil in H|done|lia].
      * intros H0. destruct (Hk1 0 H0) as [H|[H|H]];
          [by apply elem_of_nil in H|done|lia].
Qed.

(** *** The properties at sample documents *)

Lemma keys_below_midway : keys_below midway.
Proof. intros k Hk. apply list_elem_of_singleton in Hk. by subst. Qed.

Lemma descending_order_spec :
  ∀ l, NoDup (descending_order l) ∧ ∀ x, x ∈ descending_order l ↔ x ∈ l.
Proof.
  intros l. unfold descending_order. split.
  - rewrite merge_sort_Permutation. apply NoDup_remove_dups.
  - intros x. by rewrite merge_sort_Permutation, elem_of_remove_dups.
Qed.

Lemma layer_references_stay_in_the_layer_witness :
  ∃ g' cull,
    keys_below midway ∧ 42 < new_id midway ∧
    update_layer insertion_order (Layer shape_network) 0 42 None midway = Ok g' ∧
    new_id midway ≤ 50 < new_id g' ∧
    Dict.get 50 (new_nodes g') = Some cull ∧ 51 ∈ node_refs cull ∧
    new_id midway ≤ 51 < new_id g' ∧ 51 ∈ Dict.keys (new_nodes g').
Proof.
  destruct (update_layer insertion_order (Layer shape_network) 0 42 None midway)
    as [g'|e] eqn:Hrun; [|vm_compute in Hrun; discriminate Hrun].
  assert (Hget : ∃ cull, Dict.get 50 (new_nodes g') = Some cull ∧ 51 ∈ node_refs cull).
  { vm_compute in Hrun. injection Hrun as <-. eexists. split; [reflexivity|].
    apply elem_of_cons. by left. }
  destruct Hget as (cull & Hget & Href).
  assert (Hk : new_id midway ≤ 50 < new_id g').
  { vm_compute in Hrun. injection Hrun as <-. cbn. lia. }
  exists g', cull. split; [exact keys_below_midway|]. split; [reflexivity|].
  split; [reflexivity|]. split; [exact Hk|]. split; [exact Hget|]. split; [exact Href|].
  exact (layer_references_stay_in_the_layer insertion_order
           SampleFacts.insertion_order_spec shape_network 0 42 None midway g' 50 cull 51
           keys_below_midway eq_refl Hrun Hk Hget Href).
Defined.

Lemma keys_do_not_depend_on_set_order_witness :
  ∃ g1 g2,
    update_layer insertion_order (Layer two_shapes_network) 0 42 None start = Ok g1 ∧
    update_layer descending_order (Layer two_shapes_network) 0 42 None start = Ok g2 ∧
    new_id g1 = new_id g2 ∧
    (∀ k, k ∈ Dict.keys (new_nodes g1) ↔ k ∈ Dict.keys (new_nodes g2)) ∧
    new_nodes g1 ≠ new_nodes g2.
Proof.
  destruct (update_layer insertion_order (Layer two_shapes_network) 0 42 None start)
    as [g1|e] eqn:Hrun1; [|vm_compute in Hrun1; discriminate Hrun1].
  destruct (update_layer descending_order (Layer two_shapes_network) 0 42 None start)
    as [g2|e] eqn:Hrun2; [|vm_compute in Hrun2; discriminate Hrun2].
  destruct (keys_do_not_depend_on_set_order insertion_order descending_order
              SampleFacts.insertion_order_spec descending_order_spec
              (Layer two_shapes_network) 0 42 None start)
    as (_ & Hsame & _).
  destruct (Hsame g1 g2 Hrun1 Hrun2) as (Hid & _ & Hkeys).
  exists g1, g2. do 2 (split; [reflexivity|]). split; [exact Hid|].
  split; [exact Hkeys|].
  vm_compute in Hrun1. vm_compute in Hrun2.
  injection Hrun1 as <-. injection Hrun2 as <-.
  intros Heq. vm_compute in Heq. discriminate Heq.
Defined.


Lemma update_layer_returns_iff_well_formed_witness :
  well_formed nested_document ∧ ¬ well_formed (Folder [Layer plain_network; Folder []]).
Proof.
  split.
  - apply (proj1 (update_layer_returns_iff_well_formed insertion_order
                    SampleFacts.insertion_order_spec nested_document
                    0 42 None start start)).
    eexists. vm_compute. reflexivity.
  - intros Hwf.
    apply (proj1 (update_layer_returns_iff_well_formed insertion_order
                    SampleFacts.insertion_order_spec _ 0 42 None start start)) in Hwf
      as [g' Hrun].
    vm_compute in Hrun. discriminate Hrun.
Defined.

Lemma update_layer_leaves_other_entries_witness :
  ∃ g',
    update_layer insertion_order nested_document 0 42 None midway = Ok g' ∧
    keys_below midway ∧
    Dict.get 45 (new_nodes g') = Some (sample_node "Image" [Value JNull false] 100 7).
Proof.
  destruct (update_layer insertion_order nested_document 0 42 None midway)
    as [g'|e] eqn:Hrun; [|vm_compute in Hrun; discriminate Hrun].
  exists g'. split; [reflexivity|]. split; [exact keys_below_midway|].
  destruct (update_layer_leaves_other_entries insertion_order
              SampleFacts.insertion_order_spec nested_document 0 42 None midway g' Hrun)
    as [_ Hkeep].
  apply (Hkeep keys_below_midway); [discriminate|reflexivity].
Defined.

Lemma folder_layers_form_a_stack_witness :
  ∃ g',
    42 < new_id start ∧
    update_layer insertion_order nested_document 0 42 None start = Ok g' ∧
    Dict.get 42 (new_nodes g') = Some (layer_node 0 7 (Some 43) None) ∧
    ∃ out, Dict.get 43 (new_nodes g') = Some (layer_node 5 10 (Some out) (Some 44)).
Proof.
  destruct (update_layer insertion_order nested_document 0 42 None start)
    as [g'|e] eqn:Hrun; [|vm_compute in Hrun; discriminate Hrun].
  exists g'. split; [reflexivity|]. split; [reflexivity|].
  destruct (folder_layers_form_a_stack insertion_order SampleFacts.insertion_order_spec
              _ 0 42 None start g' eq_refl Hrun) as [Hfolder Hlayers].
  split; [exact Hfolder|].
  destruct (Hlayers 2%nat (Layer plain_network) eq_refl) as (out & Hget & _).
  exists out. exact Hget.
Defined.

Lemma generators_advance_by_the_tree_witness :
  ∃ g',
    update_layer insertion_order nested_document 0 42 None start = Ok g' ∧
    y_position g' = 7 + 3 * 5 ∧ new_id g' = 43 + 10.
Proof.
  destruct (update_layer insertion_order nested_document 0 42 None start)
    as [g'|e] eqn:Hrun; [|vm_compute in Hrun; discriminate Hrun].
  exists g'. split; [reflexivity|].
  destruct (generators_advance_by_the_tree insertion_order
              SampleFacts.insertion_order_spec _ 0 42 None start g' Hrun)
    as (Hy & Hid & _).
  split; [exact Hy|]. rewrite Hid. vm_compute. reflexivity.
Defined.

Lemma migrated_root_nodes_witness :
  ∃ doc g' out,
    migrate insertion_order nested_document start = Ok (doc, g') ∧
    Dict.get 0 (network_nodes (network_of doc)) = Some root_output_node ∧
    Dict.get 42 (network_nodes (network_of doc))
    = Some (layer_node 0 7 (Some out) None) ∧
    out ∈ Dict.keys (network_nodes (network_of doc)).
Proof.
  destruct (migrate insertion_order nested_document start)
    as [[doc g']|e] eqn:Hrun; [|vm_compute in Hrun; discriminate Hrun].
  destruct (migrated_root_nodes insertion_order SampleFacts.insertion_order_spec
              nested_document start doc g' Hrun)
    as (out & H0 & _ & H42 & _ & _ & Hin & _).
  exists doc, g', out. split; [reflexivity|]. split; [exact H0|].
  split; [exact H42|exact Hin].
Defined.

Lemma migrated_document_has_one_output_witness :
  ∃ doc g',
    migrate insertion_order nested_document start = Ok (doc, g') ∧
    Dict.get 0 (network_nodes (network_of doc)) = Some root_output_node ∧
    name root_output_node = "Output" ∧
    (0 = 0 ∧ root_output_node = root_output_node).
Proof.
  destruct (migrate insertion_order nested_document start)
    as [[doc g']|e] eqn:Hrun; [|vm_compute in Hrun; discriminate Hrun].
  assert (Hget : Dict.get 0 (network_nodes (network_of doc)) = Some root_output_node).
  { rewrite migrate_unfold in Hrun.
    apply bind_Ok in Hrun as (g2 & _ & [= <- <-]). apply get_set_eq. }
  exists doc, g'. split; [reflexivity|]. split; [exact Hget|]. split; [reflexivity|].
  exact (migrated_document_has_one_output insertion_order
           SampleFacts.insertion_order_spec nested_document start doc g' 0
           root_output_node Hrun Hget eq_refl).
Defined.

Lemma new_ids_number_the_survivors_witness :
  (∀ x, is_Some (layer_new_ids insertion_order culled_network start !! x)
        ↔ survives (nodes culled_network) x) ∧
  new_id (zip_new_id (surviving insertion_order (nodes culled_network)) start).2 = 43 + 2.
Proof.
  destruct (new_ids_number_the_survivors insertion_order
              SampleFacts.insertion_order_spec culled_network start)
    as (Hdom & _ & _ & _ & Hnext).
  split; [exact Hdom|]. rewrite Hnext. vm_compute. reflexivity.
Defined.

Lemma update_layer_only_appends_witness :
  ∃ g' added out,
    keys_below midway ∧ 42 < new_id midway ∧
    (42 ∉ Dict.keys (new_nodes midway)) ∧
    update_layer insertion_order nested_document 0 42 None midway = Ok g' ∧
    new_nodes g'
    = (new_nodes midway ++ added
       ++ [(42, layer_node 0 10 (Some out) None)])%list ∧
    length added = 8%nat.
Proof.
  assert (Hnot : 42 ∉ Dict.keys (new_nodes midway)).
  { intros Hin. apply list_elem_of_singleton in Hin. discriminate Hin. }
  destruct (update_layer insertion_order nested_document 0 42 None midway)
    as [g'|e] eqn:Hrun; [|vm_compute in Hrun; discriminate Hrun].
  destruct (update_layer_only_appends insertion_order SampleFacts.insertion_order_spec
              nested_document 0 42 None midway g' keys_below_midway eq_refl Hnot Hrun)
    as [(added & out & Happ & Hlen) _].
  exists g', added, out. split; [exact keys_below_midway|]. split; [reflexivity|].
  split; [exact Hnot|]. split; [reflexivity|]. split; [exact Happ|].
  apply eq_add_S. rewrite Hlen. vm_compute. reflexivity.
Defined.

Lemma folder_leaves_an_unused_id_witness :
  ∃ g',
    keys_below midway ∧ 42 < new_id midway ∧
    update_layer insertion_order nested_document 0 42 None midway = Ok g' ∧
    53 < new_id g' ∧ (53 ∉ Dict.keys (new_nodes g')).
Proof.
  destruct (update_layer insertion_order nested_document 0 42 None midway)
    as [g'|e] eqn:Hrun; [|vm_compute in Hrun; discriminate Hrun].
  exists g'. split; [exact keys_below_midway|]. split; [reflexivity|].
  split; [reflexivity|].
  exact (folder_leaves_an_unused_id insertion_order SampleFacts.insertion_order_spec
           _ 0 42 None midway g' keys_below_midway eq_refl Hrun).
Defined.

End Coverage.
